(** * Keyframe extraction core of the moodboard video processor

    Shallow embedding of [modal_video_processor.py] (the Supabase variant)
    and of the archived Convex variant [.archive/scripts/modal_fix.py].

    Conventions of the embedding:
    - Python floats (timestamps, fps, image statistics) are exact
      rationals [Q] and every arithmetic operation on them is exact;
      [int(x)] is truncation toward zero. Binary64 rounds each operation,
      so that at a boundary the code may compute the neighbouring frame
      number or decide a comparison the other way; the properties are
      stated on the quantities as computed (see [sample_time_binary64]
      for the sample times of a shot in binary64).
    - Calls into cv2 / numpy / imagehash / scenedetect are not re-implemented:
      what such a call returns on a given image file (or that it raises) is
      data of the file, carried by the [frame] record.
    - The frames directory is a finite map from file names to file contents;
      [cv2.imwrite], [os.path.exists] and [os.rename] act on it;
      [cv2.imwrite] may fail, in which case it returns [False] and writes
      nothing.
    - A Python exception is the [Raise] branch of [outcome]. *)

From Stdlib Require Import ZArith QArith List Lia.
From Stdlib Require Import Floats.PrimFloat.
From stdpp Require Import base option list strings countable gmap fin_maps pretty.

Local Open Scope string_scope.
Local Open Scope list_scope.
Local Open Scope Z_scope.

(** ** Exceptions *)

Inductive exn :=
  | ZeroDivisionError
  | ValueError
  | KeyError
  | FileNotFoundError
  | LibraryError (msg : string).

Inductive outcome (A : Type) :=
  | Ret (a : A)
  | Raise (e : exn).
Arguments Ret {A} a.
Arguments Raise {A} e.

Definition bind {A B} (m : outcome A) (k : A → outcome B) : outcome B :=
  match m with
  | Ret a => k a
  | Raise e => Raise e
  end.

Notation "'let*' x := m 'in' k" := (bind m (fun x => k))
  (at level 10, x name, m at level 100, k at level 200).

(** [str(e)] of an exception, as interpolated by an f-string. *)
Definition exn_text (e : exn) : string :=
  match e with
  | ZeroDivisionError => "division by zero"
  | ValueError => "value error"
  | KeyError => "key error"
  | FileNotFoundError => "file not found"
  | LibraryError msg => msg
  end.

(** ** Numbers *)

Definition Qltb (a b : Q) : bool := (Qnum a * QDen b <? Qnum b * QDen a)%Z.
Definition Qleb (a b : Q) : bool := (Qnum a * QDen b <=? Qnum b * QDen a)%Z.
Arguments Qltb (a b)%_Q.
Arguments Qleb (a b)%_Q.

(** Python's [int(x)] on a float: truncation toward zero. *)
Definition int (x : Q) : Z := Z.quot (Qnum x) (Z.pos (Qden x)).

(** [range(n)] as the floats-to-be [0, 1, ..., n-1]; empty for [n <= 0]. *)
Definition range (n : Z) : list Z := map Z.of_nat (seq 0 (Z.to_nat n)).

(** ** Perceptual hashes

    An [imagehash.ImageHash] of [phash] is an 8x8 bit matrix; [a - b] is the
    number of positions where the two matrices differ. *)

Fixpoint popcount (p : positive) : Z :=
  match p with
  | xH => 1
  | xO q => popcount q
  | xI q => 1 + popcount q
  end.

Definition hash_sub (a b : N) : Z :=
  match N.lxor a b with
  | N0 => 0
  | Npos p => popcount p
  end.

(** ** Image files and what the libraries report on them *)

(** The statistics the checks of [is_bad_frame] compute on a decoded image.
    Each one is an [outcome]: the library call behind it may raise.
    [black_ratio] stands for [cvtColor], [gray.shape] and
    [np.sum(gray < 30) / gray.size] together. *)
Record pixels := {
  black_ratio : outcome Q;
  variance : outcome Q;
  edge_ratio : outcome Q;
  laplacian_var : outcome Q;
  non_zero : outcome Z
}.

(** One still image: a frame read from the video, and the content of the
    JPEG file written from it. *)
Record frame := {
  (* cv2.imwrite(path, frame): True when the file has been written, False
     when it could not be (nothing is written then) *)
  imwrite : bool;
  (* cv2.imread(path): raises, returns None, or returns an image *)
  imread : outcome (option pixels);
  (* cv2.imread(path, IMREAD_GRAYSCALE) followed by Laplacian(...).var() *)
  imread_gray_laplacian : outcome (option Q);
  (* imagehash.phash(Image.open(path)) *)
  phash : outcome N
}.

(** File names inside [frames_dir]:
    [temp_{scene_idx}_{frame_num}.jpg], [selected_{n:04d}.jpg],
    [rejected_{n:04d}.jpg]. *)
Inductive path :=
  | temp_jpg (scene_idx : nat) (frame_num : Z)
  | selected_jpg (n : nat)
  | rejected_jpg (n : nat).

#[global] Instance path_eq_dec : EqDecision path.
Proof. solve_decision. Defined.

Definition path_code (p : path) : nat * Z + (nat + nat) :=
  match p with
  | temp_jpg i n => inl (i, n)
  | selected_jpg n => inr (inl n)
  | rejected_jpg n => inr (inr n)
  end.

Definition path_decode (c : nat * Z + (nat + nat)) : path :=
  match c with
  | inl (i, n) => temp_jpg i n
  | inr (inl n) => selected_jpg n
  | inr (inr n) => rejected_jpg n
  end.

#[global] Instance path_countable : Countable path.
Proof. by apply (inj_countable' path_code path_decode); intros []. Defined.

Abbreviation directory := (gmap path frame).

(** ** Quality presets *)

Record preset := {
  blur_threshold : Q;
  black_threshold : Q;
  variance_threshold : Q;
  edge_threshold : Q;
  contrast_threshold : Z;
  phash_threshold : Z;
  description : string
}.

Definition preset_strict : preset := {|
  blur_threshold := 50;
  black_threshold := 75 # 100;
  variance_threshold := 200;
  edge_threshold := 2 # 100;
  contrast_threshold := 50;
  phash_threshold := 6;
  description := "Highest quality only - saves credits"
|}.

Definition preset_medium : preset := {|
  blur_threshold := 25;
  black_threshold := 85 # 100;
  variance_threshold := 100;
  edge_threshold := 1 # 100;
  contrast_threshold := 30;
  phash_threshold := 8;
  description := "Balanced quality - recommended"
|}.

Definition preset_high : preset := {|
  blur_threshold := 10;
  black_threshold := 92 # 100;
  variance_threshold := 50;
  edge_threshold := 5 # 1000;
  contrast_threshold := 20;
  phash_threshold := 10;
  description := "Minimal cuts - only removes completely black/blurry"
|}.

Definition QUALITY_PRESETS : gmap string preset :=
  <["strict" := preset_strict]>
  (<["medium" := preset_medium]>
  (<["high" := preset_high]> ∅)).

(** [QUALITY_PRESETS.get(quality_mode, QUALITY_PRESETS["medium"])] *)
Definition get_preset (quality_mode : string) : preset :=
  default preset_medium (QUALITY_PRESETS !! quality_mode).

(** ** Frame quality filters *)

(** [measure_sharpness]: 0 when the image cannot be read or anything raises. *)
Definition measure_sharpness (fs : directory) (image_path : path) : Q :=
  match fs !! image_path with
  | None => 0
  | Some f =>
      match imread_gray_laplacian f with
      | Ret (Some v) => v
      | Ret None => 0
      | Raise _ => 0
      end
  end.

(** [cv2.imread(image_path)]: [None] for a file that does not exist. *)
Definition cv2_imread (fs : directory) (image_path : path) : outcome (option pixels) :=
  match fs !! image_path with
  | None => Ret None
  | Some f => imread f
  end.

(** The five checks that follow a successful decode, inside the [try]. *)
Definition quality_checks (p : preset) (img : pixels) : outcome (bool * string) :=
  let* black := black_ratio img in
  if Qltb (black_threshold p) black then Ret (true, "black") else
  let* var := variance img in
  if Qltb var (variance_threshold p) then Ret (true, "solid_color") else
  let* edges := edge_ratio img in
  if Qltb edges (edge_threshold p) && Qltb var 500 then Ret (true, "text_only") else
  let* sharp := laplacian_var img in
  if Qltb sharp (blur_threshold p) then Ret (true, "blurry") else
  let* bins := non_zero img in
  if bins <? contrast_threshold p then Ret (true, "low_contrast") else
  Ret (false, "OK").

(** The body of the [try] block of [is_bad_frame]. *)
Definition is_bad_frame_try (fs : directory) (image_path : path) (p : preset)
  : outcome (bool * string) :=
  let* img := cv2_imread fs image_path in
  match img with
  | None => Ret (true, "unreadable")
  | Some px => quality_checks p px
  end.

Definition is_bad_frame (fs : directory) (image_path : path) (quality_mode : string)
  : bool * string :=
  let p := get_preset quality_mode in
  match is_bad_frame_try fs image_path p with
  | Ret r => r
  | Raise e => (false, "check_error: " +:+ exn_text e)
  end.

(** [compute_phash]: [None] when hashing raises (or the file is missing). *)
Definition compute_phash (fs : directory) (image_path : path) : option N :=
  match fs !! image_path with
  | None => None
  | Some f =>
      match phash f with
      | Ret h => Some h
      | Raise _ => None
      end
  end.

Fixpoint is_duplicate_scan (c : N) (seen_hashes : list (option N)) (threshold : Z) : bool :=
  match seen_hashes with
  | [] => false
  | h :: rest =>
      match h with
      | Some h' =>
          if hash_sub c h' <? threshold then true
          else is_duplicate_scan c rest threshold
      | None => is_duplicate_scan c rest threshold
      end
  end.

Definition is_duplicate (current_hash : option N) (seen_hashes : list (option N))
    (threshold : Z) : bool :=
  match current_hash with
  | None => false
  | Some c => is_duplicate_scan c seen_hashes threshold
  end.

(** ** Scene detection *)

Record scene := { start : Q; end_ : Q }.

(** [detect_scenes]: the argument is what [scenedetect.detect] does on the
    video, either raising or returning the (start, end) pairs in seconds. *)
Definition detect_scenes (detect : outcome (list (Q * Q))) : list scene :=
  match detect with
  | Ret cuts => map (fun s => {| start := fst s; end_ := snd s |}) cuts
  | Raise _ => []
  end.

(** ** Smart frame extraction *)

(** What [cv2.VideoCapture(video_path)] gives: [fps], the frame count
    (already through [int]) and, for a frame number, what [cap.set] followed
    by [cap.read] returns ([None] when [ret] is false). *)
Record video := {
  fps : Q;
  total_frames_count : Z;
  read : Z → option frame
}.

(** An entry of [selected_frames]. *)
Record selected_frame := {
  path_of : path;
  scene_start : Q;
  scene_end : Q;
  sharpness : Q;
  selected : bool
}.

(** An entry of [rejected_in_scene] / [rejected_frames]; the keys
    ['timestamp'] and ['selected'] are not always present. *)
Record rejected_frame := {
  r_path : path;
  r_reason : string;
  r_scene_start : Q;
  r_scene_end : Q;
  r_timestamp : option Q;
  r_selected : option bool
}.

(** [stats] of the result. *)
Record statistics := {
  total_scenes : nat;
  rejected_histogram : gmap string nat
}.

(** The returned dict. *)
Record extraction := {
  result_selected : list selected_frame;
  result_rejected : list rejected_frame;
  result_stats : statistics;
  result_quality_mode : string
}.

(** Mutable variables that live across scenes. *)
Record state := {
  files : directory;
  selected_frames : list selected_frame;
  rejected_frames : list rejected_frame;
  seen_hashes : list (option N);
  stats_rejected : gmap string nat
}.

(** Mutable variables of one scene ([best_frame] is never read back). *)
Record scene_vars := {
  best_sharpness : Q;
  best_path : option path;
  rejected_in_scene : list rejected_frame
}.

Inductive flow := Next | Break.

(** [d[k] = d.get(k, 0) + 1] *)
Definition count_with_get (d : gmap string nat) (k : string) : gmap string nat :=
  <[k := (default 0 (d !! k) + 1)%nat]> d.

(** [d[k] += 1]: a missing key raises [KeyError]. *)
Definition count_in_place (d : gmap string nat) (k : string) : outcome (gmap string nat) :=
  match d !! k with
  | Some n => Ret (<[k := (n + 1)%nat]> d)
  | None => Raise KeyError
  end.

(** [os.rename(src, dst)] *)
Definition os_rename (fs : directory) (src dst : path) : outcome directory :=
  match fs !! src with
  | Some content => Ret (<[dst := content]> (delete src fs))
  | None => Raise FileNotFoundError
  end.

(** [l[::step]] for [step > 0]: the elements at indices 0, step, 2*step, ... *)
Fixpoint every_nth {A} (skip : nat) (step : nat) (l : list A) : list A :=
  match l with
  | [] => []
  | x :: rest =>
      match skip with
      | O => x :: every_nth (step - 1) step rest
      | S k => every_nth k step rest
      end
  end.

(** [l[::step]] for any integer [step]: zero raises [ValueError], a negative
    step walks from the last element down. *)
Definition slice_step {A} (l : list A) (step : Z) : outcome (list A) :=
  if step =? 0 then Raise ValueError
  else if 0 <? step then Ret (every_nth 0 (Z.to_nat step) l)
  else Ret (every_nth 0 (Z.to_nat (- step)) (rev l)).

(** [a // b] on integers. *)
Definition floordiv (a b : Z) : outcome Z :=
  if b =? 0 then Raise ZeroDivisionError else Ret (a / b).

(** The timestamps sampled inside a scene (20%, 50%, 80%, ...). *)
Definition sample_points (sc : scene) (samples_per_scene : Z) : list Q :=
  let scene_duration := (end_ sc - start sc)%Q in
  fold_left
    (fun points i =>
       let offset := (scene_duration * ((2 # 10) + (3 # 10) * inject_Z i))%Q in
       let sample_time := (start sc + offset)%Q in
       if Qltb sample_time (end_ sc) then points ++ [sample_time] else points)
    (range samples_per_scene) [].

Definition with_files (st : state) (fs : directory) : state :=
  {| files := fs;
     selected_frames := selected_frames st;
     rejected_frames := rejected_frames st;
     seen_hashes := seen_hashes st;
     stats_rejected := stats_rejected st |}.

Definition with_stats (st : state) (h : gmap string nat) : state :=
  {| files := files st;
     selected_frames := selected_frames st;
     rejected_frames := rejected_frames st;
     seen_hashes := seen_hashes st;
     stats_rejected := h |}.

Definition reject_in_scene (sv : scene_vars) (r : rejected_frame) : scene_vars :=
  {| best_sharpness := best_sharpness sv;
     best_path := best_path sv;
     rejected_in_scene := rejected_in_scene sv ++ [r] |}.

Definition rejection (p : path) (reason : string) (sc : scene) (timestamp : option Q)
  : rejected_frame :=
  {| r_path := p; r_reason := reason;
     r_scene_start := start sc; r_scene_end := end_ sc;
     r_timestamp := timestamp; r_selected := None |}.

(** [cv2.imwrite(path, frame)] on the frames directory: the file is
    written, or nothing happens. *)
Definition cv2_imwrite (fs : directory) (p : path) (f : frame) : directory :=
  if imwrite f then <[p := f]> fs else fs.

(** One turn of [for sample_time in sample_points]. *)
Definition sample_step (v : video) (quality_mode : string) (scene_idx : nat) (sc : scene)
    (acc : state * scene_vars) (sample_time : Q) : state * scene_vars :=
  let (st, sv) := acc in
  let frame_num := int (sample_time * fps v) in
  if total_frames_count v <=? frame_num then acc else
  match read v frame_num with
  | None => acc
  | Some frame =>
      let temp_path := temp_jpg scene_idx frame_num in
      (* cv2.imwrite, its result ignored *)
      let st := with_files st (cv2_imwrite (files st) temp_path frame) in
      let (is_bad, reason) := is_bad_frame (files st) temp_path quality_mode in
      if is_bad then
        (with_stats st (count_with_get (stats_rejected st) reason),
         reject_in_scene sv (rejection temp_path reason sc (Some sample_time)))
      else
        let sharp := measure_sharpness (files st) temp_path in
        if Qltb (best_sharpness sv) sharp then
          let sv :=
            match best_path sv with
            | Some bp =>
                if decide (is_Some (files st !! bp))
                then reject_in_scene sv (rejection bp "not_sharpest" sc None)
                else sv
            | None => sv
            end in
          (st, {| best_sharpness := sharp;
                  best_path := Some temp_path;
                  rejected_in_scene := rejected_in_scene sv |})
        else
          (st, reject_in_scene sv (rejection temp_path "not_sharpest" sc None))
  end.

(** One turn of [for rej in rejected_in_scene]. *)
Definition rename_rejected (st : state) (rej : rejected_frame) : state :=
  match files st !! r_path rej with
  | Some content =>
      let new_path := rejected_jpg (length (rejected_frames st)) in
      {| files := <[new_path := content]> (delete (r_path rej) (files st));
         selected_frames := selected_frames st;
         rejected_frames := rejected_frames st ++
           [ {| r_path := new_path; r_reason := r_reason rej;
                r_scene_start := r_scene_start rej; r_scene_end := r_scene_end rej;
                r_timestamp := r_timestamp rej; r_selected := Some false |} ];
         seen_hashes := seen_hashes st;
         stats_rejected := stats_rejected st |}
  | None => st
  end.

Section Extractor.

(** The two copies of the extractor differ in two places only: the initial
    value of [stats["rejected"]] and the statement counting a duplicate. *)
Variable initial_histogram : gmap string nat.
Variable count_duplicate : gmap string nat → outcome (gmap string nat).

Variable v : video.
Variable max_frames : Z.
Variable samples_per_scene : Z.
Variable quality_mode : string.

(** [if best_path and best_sharpness > 0: ...], the duplicate check on the
    winner of the scene. *)
Definition settle_winner (sc : scene) (st : state) (sv : scene_vars)
  : outcome (state * scene_vars) :=
  match best_path sv with
  | None => Ret (st, sv)
  | Some bp =>
      if Qltb 0 (best_sharpness sv) then
        let current_hash := compute_phash (files st) bp in
        if is_duplicate current_hash (seen_hashes st)
             (phash_threshold (get_preset quality_mode)) then
          let* h := count_duplicate (stats_rejected st) in
          Ret (with_stats st h,
               reject_in_scene sv (rejection bp "duplicate" sc None))
        else
          let final_path := selected_jpg (length (selected_frames st)) in
          let* fs := os_rename (files st) bp final_path in
          Ret ({| files := fs;
                  selected_frames := selected_frames st ++
                    [ {| path_of := final_path;
                         scene_start := start sc; scene_end := end_ sc;
                         sharpness := best_sharpness sv; selected := true |} ];
                  rejected_frames := rejected_frames st;
                  seen_hashes := seen_hashes st ++ [current_hash];
                  stats_rejected := stats_rejected st |}, sv)
      else Ret (st, sv)
  end.

(** The body of [for scene_idx, scene in enumerate(valid_scenes)]. *)
Definition process_scene (st : state) (scene_idx : nat) (sc : scene)
  : outcome (flow * state) :=
  let scene_duration := (end_ sc - start sc)%Q in
  let scene_frame_count := int (scene_duration * fps v) in
  if scene_frame_count <? 3 then Ret (Next, st) else
  let points := sample_points sc samples_per_scene in
  let (st, sv) :=
    fold_left (sample_step v quality_mode scene_idx sc) points
      (st, {| best_sharpness := 0; best_path := None; rejected_in_scene := [] |}) in
  let* r := settle_winner sc st sv in
  let st := fold_left rename_rejected (rejected_in_scene (snd r)) (fst r) in
  if max_frames <=? Z.of_nat (length (selected_frames st))
  then Ret (Break, st)
  else Ret (Next, st).

Fixpoint scene_loop (st : state) (scene_idx : nat) (scenes : list scene)
  : outcome state :=
  match scenes with
  | [] => Ret st
  | sc :: rest =>
      let* r := process_scene st scene_idx sc in
      match r with
      | (Break, st') => Ret st'
      | (Next, st') => scene_loop st' (S scene_idx) rest
      end
  end.

(** The scenes that are visited: short ones filtered out, then thinned
    when there are more than [2 * max_frames]. *)
Definition select_scenes (scenes : list scene) (min_scene_duration : Q)
  : outcome (list scene) :=
  let valid_scenes :=
    filter (fun s => Qleb min_scene_duration (end_ s - start s) = true) scenes in
  if max_frames * 2 <? Z.of_nat (length valid_scenes) then
    let* step := floordiv (Z.of_nat (length valid_scenes)) max_frames in
    slice_step valid_scenes step
  else Ret valid_scenes.

Definition initial_state (frames_dir : directory) : state :=
  {| files := frames_dir;
     selected_frames := [];
     rejected_frames := [];
     seen_hashes := [];
     stats_rejected := initial_histogram |}.

Definition extract (scenes : list scene) (frames_dir : directory)
    (min_scene_duration : Q) : outcome extraction :=
  let* valid_scenes := select_scenes scenes min_scene_duration in
  let* st := scene_loop (initial_state frames_dir) 0 valid_scenes in
  Ret {| result_selected := selected_frames st;
         result_rejected := rejected_frames st;
         result_stats := {| total_scenes := length valid_scenes;
                            rejected_histogram := stats_rejected st |};
         result_quality_mode := quality_mode |}.

(** The state of [frames_dir] when [extract] returns. *)
Definition extract_files (scenes : list scene) (frames_dir : directory)
    (min_scene_duration : Q) : outcome directory :=
  let* valid_scenes := select_scenes scenes min_scene_duration in
  let* st := scene_loop (initial_state frames_dir) 0 valid_scenes in
  Ret (files st).

End Extractor.

(** [modal_video_processor.py]: the histogram starts with seven zero
    counters and a duplicate is counted with [+= 1]. *)
Definition supabase_histogram : gmap string nat :=
  <["black" := 0%nat]> (<["blurry" := 0%nat]> (<["duplicate" := 0%nat]>
  (<["text_only" := 0%nat]> (<["solid_color" := 0%nat]>
  (<["low_contrast" := 0%nat]> (<["other" := 0%nat]> ∅)))))).

(** [stats["rejected"]["duplicate"] += 1] *)
Definition supabase_count_duplicate (h : gmap string nat) : outcome (gmap string nat) :=
  count_in_place h "duplicate".

Definition extract_smart_keyframes (v : video) (scenes : list scene)
    (frames_dir : directory) (max_frames : Z) (samples_per_scene : Z)
    (min_scene_duration : Q) (quality_mode : string) : outcome extraction :=
  extract supabase_histogram supabase_count_duplicate
    v max_frames samples_per_scene quality_mode scenes frames_dir min_scene_duration.

(** [.archive/scripts/modal_fix.py]: the histogram starts empty and a
    duplicate is counted with [.get("duplicate", 0) + 1]. *)
Module Convex.

(** [stats["rejected"]["duplicate"] = stats["rejected"].get("duplicate", 0) + 1] *)
Definition count_duplicate (h : gmap string nat) : outcome (gmap string nat) :=
  Ret (count_with_get h "duplicate").

Definition extract_smart_keyframes (v : video) (scenes : list scene)
    (frames_dir : directory) (max_frames : Z) (samples_per_scene : Z)
    (min_scene_duration : Q) (quality_mode : string) : outcome extraction :=
  extract ∅ count_duplicate
    v max_frames samples_per_scene quality_mode scenes frames_dir min_scene_duration.

End Convex.

(** ** Upload of the frames *)

(** What [upload_to_storage] returns: [{"url": ...}] or [{"error": ...}]. *)
Inductive upload_result :=
  | upload_url (url : string)
  | upload_error (msg : string).

(** The object name of a frame inside the bucket. *)
Definition storage_filename (video_hash : string) (is_selected : bool)
    (frame_uuid : string) : string :=
  let folder := if is_selected then "selected" else "rejected" in
  "video_frames/" +:+ video_hash +:+ "/" +:+ folder +:+ "/" +:+ frame_uuid +:+ ".jpg".

(** [upload_to_storage]: [frame_uuid] is the value [uuid.uuid4()] returns in
    this call and [post] what the storage service answers to a POST on a
    URL, a status code or an exception. Opening a missing file raises,
    and every exception ends in an error result. *)
Definition upload_to_storage (fs : directory) (frame_path : path)
    (video_hash supabase_url : string) (is_selected : bool)
    (frame_uuid : string) (post : string → outcome Z) : upload_result :=
  match fs !! frame_path with
  | None => upload_error (exn_text FileNotFoundError)
  | Some image_bytes =>
      let filename := storage_filename video_hash is_selected frame_uuid in
      match post (supabase_url +:+ "/storage/v1/object/images/" +:+ filename) with
      | Ret status_code =>
          if (status_code =? 200) || (status_code =? 201)
          then upload_url (supabase_url +:+ "/storage/v1/object/public/images/" +:+ filename)
          else upload_error ("storage " +:+ pretty status_code)
      | Raise e => upload_error (exn_text e)
      end
  end.

(** An entry of [uploaded_selected]. *)
Record uploaded_selected_frame := {
  us_url : string;
  us_scene_start : Q;
  us_scene_end : Q;
  us_sharpness : Q;
  us_selected : bool
}.

(** An entry of [uploaded_rejected]. *)
Record uploaded_rejected_frame := {
  ur_url : string;
  ur_scene_start : Q;
  ur_scene_end : Q;
  ur_reason : string;
  ur_selected : bool
}.

(** [upload_args], reduced to the path and the flag of each tuple. *)
Definition upload_args (selected_frames : list selected_frame)
    (rejected_frames : list rejected_frame) : list (path * bool) :=
  map (fun f => (path_of f, true)) selected_frames ++
  map (fun f => (r_path f, false)) rejected_frames.

(** The dict [futures], as the list of what each submitted call returned
    together with the flag [arg[4]] stored beside its index. *)
Definition submit_uploads (fs : directory) (video_hash supabase_url : string)
    (uuids : nat → string) (post : string → outcome Z)
    (args : list (path * bool)) : list (upload_result * bool) :=
  imap (fun (i : nat) (arg : path * bool) =>
          (upload_to_storage fs (fst arg) video_hash supabase_url (snd arg) (uuids i) post,
           snd arg))
       args.

(** One turn of [for future in as_completed(futures)], for the future
    submitted with index [idx]. In the branch of the rejected frames [idx]
    is never below [len(selected_frames)]. *)
Definition collect_step (selected_frames : list selected_frame)
    (rejected_frames : list rejected_frame) (futures : list (upload_result * bool))
    (acc : list uploaded_selected_frame * list uploaded_rejected_frame) (idx : nat)
  : list uploaded_selected_frame * list uploaded_rejected_frame :=
  match futures !! idx with
  | None => acc
  | Some (upload_error _, _) => acc
  | Some (upload_url url, is_selected) =>
      if decide (url = "") then acc else
      if (is_selected : bool) then
        match (if decide (idx < length selected_frames)%nat
               then selected_frames !! idx else None) with
        | Some frame_data =>
            (fst acc ++ [ {| us_url := url;
                             us_scene_start := scene_start frame_data;
                             us_scene_end := scene_end frame_data;
                             us_sharpness := sharpness frame_data;
                             us_selected := true |} ], snd acc)
        | None => acc
        end
      else
        let rej_idx := (idx - length selected_frames)%nat in
        match (if decide (rej_idx < length rejected_frames)%nat
               then rejected_frames !! rej_idx else None) with
        | Some frame_data =>
            (fst acc, snd acc ++ [ {| ur_url := url;
                                      ur_scene_start := r_scene_start frame_data;
                                      ur_scene_end := r_scene_end frame_data;
                                      ur_reason := r_reason frame_data;
                                      ur_selected := false |} ])
        | None => acc
        end
  end.

(** Step 4 of [process_video]: [order] lists the indices of the futures in
    the order in which they complete. *)
Definition collect_uploads (selected_frames : list selected_frame)
    (rejected_frames : list rejected_frame) (futures : list (upload_result * bool))
    (order : list nat)
  : list uploaded_selected_frame * list uploaded_rejected_frame :=
  fold_left (collect_step selected_frames rejected_frames futures) order ([], []).

(** The entry the k-th selected frame gives when its upload returned a URL. *)
Definition uploaded_selected_at (selected_frames : list selected_frame)
    (futures : list (upload_result * bool)) (k : nat) : option uploaded_selected_frame :=
  match selected_frames !! k, futures !! k with
  | Some f, Some (upload_url url, _) =>
      if decide (url = "") then None
      else Some {| us_url := url; us_scene_start := scene_start f;
                   us_scene_end := scene_end f; us_sharpness := sharpness f;
                   us_selected := true |}
  | _, _ => None
  end.

(** The entry the k-th rejected frame gives when its upload returned a URL. *)
Definition uploaded_rejected_at (selected_frames : list selected_frame)
    (rejected_frames : list rejected_frame)
    (futures : list (upload_result * bool)) (k : nat) : option uploaded_rejected_frame :=
  match rejected_frames !! k, futures !! (length selected_frames + k)%nat with
  | Some f, Some (upload_url url, _) =>
      if decide (url = "") then None
      else Some {| ur_url := url; ur_scene_start := r_scene_start f;
                   ur_scene_end := r_scene_end f; ur_reason := r_reason f;
                   ur_selected := false |}
  | _, _ => None
  end.

(** ** The pipeline around the extractor *)

(** The frames directory as the extractor of [modal_video_processor.py]
    leaves it when it returns. *)
Definition frames_dir_after (v : video) (scenes : list scene)
    (frames_dir : directory) (max_frames : Z) (samples_per_scene : Z)
    (min_scene_duration : Q) (quality_mode : string) : outcome directory :=
  extract_files supabase_histogram supabase_count_duplicate
    v max_frames samples_per_scene quality_mode scenes frames_dir min_scene_duration.

(** The keys of the dict [results] that the run decides: "status",
    "scenes", "selected_frames", "rejected_frames" and "errors". *)
Record results := {
  status : string;
  scenes_found : nat;
  uploaded_selected : list uploaded_selected_frame;
  uploaded_rejected : list uploaded_rejected_frame;
  errors : list string
}.

(** What step 4 meets outside the function: the hash of the video URL, the
    environment variable [SUPABASE_URL], the value [uuid.uuid4()] returns in
    the call submitted with index [i], what the storage service answers to
    a POST on a URL, and the order in which the futures complete. *)
Record upload_env := {
  env_video_hash : string;
  env_supabase_url : string;
  env_uuids : nat → string;
  env_post : string → outcome Z;
  env_completion_order : list nat
}.

(** [if d.get(key):] on a value that is a string or absent. *)
Definition truthy (value : option string) : bool :=
  match value with
  | Some s => if decide (s = "") then false else true
  | None => false
  end.

(** The dict [results] of a run that stops with an error. *)
Definition failed_run (scenes : nat) (msg : string) : results :=
  {| status := "failed"; scenes_found := scenes;
     uploaded_selected := []; uploaded_rejected := [];
     errors := [msg] |}.

(** [process_video] after the download step; [dl_error] is
    [dl.get("error")], and [frames_dir] has been emptied of its .jpg files.
    [ThreadPoolExecutor(max_workers=...)] raises [ValueError] for a number
    of workers that is not positive. The calls [video_volume.commit()],
    [time.time()] and [print] are left out, and so are the keys
    "video_url", "video_hash", "quality_mode" and "time" of [results]. *)
Definition process_video (dl_error : option string)
    (detect : outcome (list (Q * Q))) (v : video)
    (quality_mode : string) (max_frames max_workers : Z) (env : upload_env)
  : outcome results :=
  let quality_mode :=
    if decide (is_Some (QUALITY_PRESETS !! quality_mode)) then quality_mode
    else "medium" in
  if truthy dl_error then Ret (failed_run 0 (default "" dl_error)) else
  let scenes := detect_scenes detect in
  match scenes with
  | [] => Ret (failed_run (length scenes) "No scenes")
  | _ =>
      let* frame_result :=
        extract_smart_keyframes v scenes ∅ max_frames 3 (3 # 10) quality_mode in
      let* fs := frames_dir_after v scenes ∅ max_frames 3 (3 # 10) quality_mode in
      match result_selected frame_result, result_rejected frame_result with
      | [], [] => Ret (failed_run (length scenes) "No frames extracted")
      | selected_frames, rejected_frames =>
          if max_workers <=? 0 then Raise ValueError else
          let futures :=
            submit_uploads fs (env_video_hash env) (env_supabase_url env)
              (env_uuids env) (env_post env)
              (upload_args selected_frames rejected_frames) in
          let uploaded :=
            collect_uploads selected_frames rejected_frames futures
              (env_completion_order env) in
          Ret {| status := "pending_approval"; scenes_found := length scenes;
                 uploaded_selected := fst uploaded;
                 uploaded_rejected := snd uploaded;
                 errors := [] |}
      end
  end.

(** ** Sample inputs *)

(** A frame that decodes and passes every check of every preset, with the
    given sharpness and perceptual hash. *)
Definition clear_pixels (sharp : Q) : pixels :=
  {| black_ratio := Ret (1 # 10);
     variance := Ret 1000%Q;
     edge_ratio := Ret (1 # 10);
     laplacian_var := Ret sharp;
     non_zero := Ret 100 |}.

Definition clear_frame (sharp : Q) (h : outcome N) : frame :=
  {| imwrite := true;
     imread := Ret (Some (clear_pixels sharp));
     imread_gray_laplacian := Ret (Some sharp);
     phash := h |}.

(** A 20-second, 1-fps video of two 10-second shots; every frame of the
    first shot hashes to 0 and every frame of the second to [h]. *)
Definition two_shot_video (h : N) : video :=
  {| fps := 1;
     total_frames_count := 20;
     read := fun n => Some (clear_frame 100 (Ret (if n <? 10 then 0%N else h))) |}.

Definition two_shots : list scene :=
  [ {| start := 0; end_ := 10 |}; {| start := 10; end_ := 20 |} ].

(** A 1-fps video whose frames get sharper with time, all hashing alike. *)
Definition sharpening_video (h : outcome N) : video :=
  {| fps := 1;
     total_frames_count := 100;
     read := fun n => Some (clear_frame (inject_Z (n + 60)) h) |}.

Definition ten_second_shot : scene := {| start := 0; end_ := 10 |}.

(** A 4-fps video and a half-second shot in it. *)
Definition four_fps_video : video :=
  {| fps := 4;
     total_frames_count := 400;
     read := fun n => Some (clear_frame 100 (Ret (Z.to_N n))) |}.

Definition half_second_shot : scene := {| start := 1; end_ := 3 # 2 |}.

(** A frame that decodes, passes the black, solid-colour and edge checks,
    and on which the Laplacian call of [is_bad_frame] raises. *)
Definition glitch_pixels : pixels :=
  {| black_ratio := Ret (1 # 10);
     variance := Ret 1000%Q;
     edge_ratio := Ret (1 # 10);
     laplacian_var := Raise (LibraryError "OpenCV: out of memory");
     non_zero := Ret 100 |}.

Definition glitch_frame : frame :=
  {| imwrite := true;
     imread := Ret (Some glitch_pixels);
     imread_gray_laplacian := Ret (Some 40%Q);
     phash := Ret 5%N |}.

Definition glitch_video : video :=
  {| fps := 1; total_frames_count := 100; read := fun _ => Some glitch_frame |}.

(** A file on which [cv2.imread] itself raises. *)
Definition undecodable_frame : frame :=
  {| imwrite := true;
     imread := Raise (LibraryError "OpenCV: failed to allocate");
     imread_gray_laplacian := Ret (Some 40%Q);
     phash := Ret 5%N |}.

(** A frame that decodes and on which [cv2.Laplacian] raises, in the gate
    and in [measure_sharpness] alike. *)
Definition laplacian_glitch_frame : frame :=
  {| imwrite := true;
     imread := Ret (Some glitch_pixels);
     imread_gray_laplacian := Raise (LibraryError "OpenCV: out of memory");
     phash := Ret 5%N |}.

Definition laplacian_glitch_video : video :=
  {| fps := 1; total_frames_count := 100;
     read := fun _ => Some laplacian_glitch_frame |}.

(** A frame that [cv2.imwrite] cannot write, and a video of such frames
    (as when the frames directory is not writable). *)
Definition unwritable_frame : frame :=
  {| imwrite := false;
     imread := Ret (Some (clear_pixels 100));
     imread_gray_laplacian := Ret (Some 100%Q);
     phash := Ret 0%N |}.

Definition unwritable_video : video :=
  {| fps := 1; total_frames_count := 100; read := fun _ => Some unwritable_frame |}.

(** ** Vocabulary of the properties *)

(** Candidate timestamp number [i] of a shot. *)
Definition sample_time_at (sc : scene) (i : Z) : Q :=
  (start sc + (end_ sc - start sc) * ((2 # 10) + (3 # 10) * inject_Z i))%Q.

(** The same expression, [scene['start'] + scene_duration * (0.2 + 0.3 * i)],
    in IEEE binary64 arithmetic, the arithmetic of Python's floats; the
    constants are the doubles nearest to 0.2 and 0.3, and [i] is the loop
    index already converted. *)
Definition sample_time_binary64 (start_ end_ i : float) : float :=
  (start_ + (end_ - start_) * (0x1.999999999999ap-3 + 0x1.3333333333333p-2 * i))%float.

(** [p1] is at least as strict as [p2] on each of the five thresholds the
    checks read. *)
Definition stricter (p1 p2 : preset) : Prop :=
  (black_threshold p1 <= black_threshold p2)%Q ∧
  (variance_threshold p2 <= variance_threshold p1)%Q ∧
  (edge_threshold p2 <= edge_threshold p1)%Q ∧
  (blur_threshold p2 <= blur_threshold p1)%Q ∧
  contrast_threshold p2 ≤ contrast_threshold p1.

(** The reasons [is_bad_frame] gives together with [True]. *)
Definition bad_reasons : list string :=
  ["unreadable"; "black"; "solid_color"; "text_only"; "blurry"; "low_contrast"].

(** [sum(stats["rejected"].values())] *)
Definition histogram_total (h : gmap string nat) : nat :=
  map_fold (fun _ n total => (n + total)%nat) 0%nat h.

(** What a turn of the sampling loop keeps: the lists that live across
    scenes, a property [P] of the histogram, and the fact that the file of
    the current best candidate exists. *)
Definition sample_inv (P : gmap string nat → Prop) (st0 : state)
    (acc : state * scene_vars) : Prop :=
  selected_frames (fst acc) = selected_frames st0 ∧
  rejected_frames (fst acc) = rejected_frames st0 ∧
  seen_hashes (fst acc) = seen_hashes st0 ∧
  P (stats_rejected (fst acc)) ∧
  (∀ bp, best_path (snd acc) = Some bp → is_Some (files (fst acc) !! bp)).

(** What holds of [stats["rejected"]] throughout a run of the Supabase
    extractor: the key "duplicate" is present and "not_sharpest" is not. *)
Definition supabase_inv (h : gmap string nat) : Prop :=
  is_Some (h !! "duplicate") ∧ h !! "not_sharpest" = None.

(** Two histograms that give every reason the same count, a missing key
    counting as zero. *)
Definition hist_equiv (h1 h2 : gmap string nat) : Prop :=
  ∀ k, default 0%nat (h1 !! k) = default 0%nat (h2 !! k).

(** A state of the Supabase loop and a state of the Convex loop that hold
    the same files, frames and fingerprints, and equivalent histograms. *)
Definition sim (st1 st2 : state) : Prop :=
  files st1 = files st2 ∧
  selected_frames st1 = selected_frames st2 ∧
  rejected_frames st1 = rejected_frames st2 ∧
  seen_hashes st1 = seen_hashes st2 ∧
  hist_equiv (stats_rejected st1) (stats_rejected st2) ∧
  is_Some (stats_rejected st1 !! "duplicate").

(** Two computations that raise the same exception or return related values. *)
Definition outcome_rel {A B} (R : A → B → Prop) (m1 : outcome A) (m2 : outcome B) : Prop :=
  match m1, m2 with
  | Ret a, Ret b => R a b
  | Raise e1, Raise e2 => e1 = e2
  | _, _ => False
  end.

Definition same_extraction (r1 r2 : extraction) : Prop :=
  result_selected r1 = result_selected r2 ∧
  result_rejected r1 = result_rejected r2 ∧
  total_scenes (result_stats r1) = total_scenes (result_stats r2) ∧
  hist_equiv (rejected_histogram (result_stats r1)) (rejected_histogram (result_stats r2)) ∧
  result_quality_mode r1 = result_quality_mode r2.


(** ** Deleting rejected frames *)

Fixpoint string_drop (n : nat) (s : string) : string :=
  match n, s with
  | O, _ => s
  | S k, EmptyString => EmptyString
  | S k, String _ rest => string_drop k rest
  end.

(** [s.split(sep)[-1]] for a non-empty [sep]: the scan goes from left to
    right, an occurrence of [sep] starts a new last part and is skipped
    whole; [skip] counts the characters of an occurrence still to skip. *)
Fixpoint split_last_scan (sep : string) (skip : nat) (s last : string) : string :=
  match s with
  | EmptyString => last
  | String _ rest =>
      match skip with
      | S k => split_last_scan sep k rest last
      | O =>
          if String.prefix sep s
          then split_last_scan sep (String.length sep - 1) rest
                 (string_drop (String.length sep) s)
          else split_last_scan sep 0 rest last
      end
  end.

Definition split_last (sep s : string) : string := split_last_scan sep 0 s s.

(** [sep] occurs nowhere in [s]. *)
Fixpoint occurs_nowhere (sep s : string) : bool :=
  match s with
  | EmptyString => true
  | String _ rest => negb (String.prefix sep s) && occurs_nowhere sep rest
  end.

Definition public_marker : string := "/storage/v1/object/public/images/".

(** The dict [delete_rejected_frames] returns. *)
Record deletion := {
  deleted : nat;
  deletion_errors : list string
}.

(** The URL a DELETE is sent to for [url]. *)
Definition delete_endpoint (supabase_url url : string) : string :=
  supabase_url +:+ "/storage/v1/object/images/" +:+ split_last public_marker url.

(** One turn of [for url in frame_urls]; [http_delete] is what the storage
    service answers to a DELETE on a URL, a status code or an exception. *)
Definition delete_step (supabase_url : string) (http_delete : string → outcome Z)
    (acc : deletion) (url : string) : deletion :=
  let path := split_last public_marker url in
  match http_delete (supabase_url +:+ "/storage/v1/object/images/" +:+ path) with
  | Ret status_code =>
      if (status_code =? 200) || (status_code =? 204)
      then {| deleted := S (deleted acc); deletion_errors := deletion_errors acc |}
      else {| deleted := deleted acc;
              deletion_errors := deletion_errors acc ++
                ["Failed to delete " +:+ path +:+ ": " +:+ pretty status_code] |}
  | Raise e =>
      {| deleted := deleted acc;
         deletion_errors := deletion_errors acc ++ [exn_text e] |}
  end.

(** [delete_rejected_frames] (the same in both files; [video_hash] is not
    used by the body). *)
Definition delete_rejected_frames (supabase_url : string)
    (http_delete : string → outcome Z) (video_hash : string)
    (frame_urls : list string) : deletion :=
  fold_left (delete_step supabase_url http_delete) frame_urls
    {| deleted := 0; deletion_errors := [] |}.

(** The DELETE for [url] is answered with 200 or 204. *)
Definition delete_accepted (supabase_url : string) (http_delete : string → outcome Z)
    (url : string) : Prop :=
  http_delete (delete_endpoint supabase_url url) = Ret 200 ∨
  http_delete (delete_endpoint supabase_url url) = Ret 204.

#[global] Instance delete_accepted_dec supabase_url http_delete url :
  Decision (delete_accepted supabase_url http_delete url).
Proof.
  unfold delete_accepted.
  destruct (http_delete (delete_endpoint supabase_url url)) as [status|e].
  - destruct (decide (status = 200)) as [->|H1]; [left; auto|].
    destruct (decide (status = 204)) as [->|H2]; [left; auto|].
    right. intros [H|H]; inversion H; contradiction.
  - right. intros [H|H]; discriminate.
Defined.

(** ** The Convex back-end *)





(** The dict [add_frame_to_convex] sends; ["user_id"] is present only for a
    truthy [user_id]. *)
Record frame_data := {
  fd_video_id : string;
  fd_frame_number : nat;
  fd_image_url : string;
  fd_user_id : option string
}.





(** ** Download through RapidAPI *)

(** What the code reads of the JSON of the first answer: the truth value of
    [data.get("success")] and the text of [data]. *)
Record api_start := {
  start_success : bool;
  start_repr : string
}.

(** What the code reads of the JSON of a progress answer. *)
Record api_progress := {
  finished : bool;
  download_url : option string
}.

(** The service as the function sees it: the answer to the first request
    (status, text, JSON), the answer to the i-th progress request (status,
    JSON), the status of the GET on a download URL, and whether writing the
    file works. Each of them may raise. *)
Record rapidapi := {
  start_request : outcome (Z * string * outcome api_start);
  progress_request : nat → outcome (Z * outcome api_progress);
  fetch : string → outcome Z;
  write_bytes : outcome unit
}.

(** [{"success": True}] or [{"error": ...}]. *)
Inductive download_result :=
  | download_success
  | download_error (msg : string).

(** The handler [except Exception as e]. *)
Definition rapidapi_error (e : exn) : download_result :=
  download_error ("RapidAPI error: " +:+ String.substring 0 200 (exn_text e)).

(** The branch [if progress.get("finished")]. *)
Definition fetch_video (api : rapidapi) (progress : api_progress) : download_result :=
  match download_url progress with
  | Some url =>
      if decide (url = "") then download_error "No download URL" else
      match fetch api url with
      | Ret status =>
          if status =? 200 then
            match write_bytes api with
            | Ret _ => download_success
            | Raise e => rapidapi_error e
            end
          else download_error ("Download failed: " +:+ pretty status)
      | Raise e => rapidapi_error e
      end
  | None => download_error "No download URL"
  end.

(** [for i in range(60)], from turn [i] on with [remaining] turns left. *)
Fixpoint poll_loop (api : rapidapi) (i remaining : nat) : download_result :=
  match remaining with
  | O => download_error "Timeout waiting for video processing"
  | S n =>
      match progress_request api i with
      | Raise e => rapidapi_error e
      | Ret (status, body) =>
          if status =? 200 then
            match body with
            | Raise e => rapidapi_error e
            | Ret progress =>
                if finished progress then fetch_video api progress
                else poll_loop api (S i) n
            end
          else poll_loop api (S i) n
      end
  end.

Definition download_youtube_rapidapi (api : rapidapi) : download_result :=
  match start_request api with
  | Raise e => rapidapi_error e
  | Ret (status, body_text, body) =>
      if status =? 200 then
        match body with
        | Raise e => rapidapi_error e
        | Ret data =>
            if start_success data then poll_loop api 0 60
            else download_error ("RapidAPI failed: " +:+ start_repr data)
        end
      else download_error ("RapidAPI returned " +:+ pretty status +:+ ": "
                           +:+ String.substring 0 200 body_text)
  end.

(** A progress answer after which the loop goes on: a status other than
    200, or a JSON that does not say finished. *)
Definition pending (answer : outcome (Z * outcome api_progress)) : Prop :=
  ∃ status body, answer = Ret (status, body) ∧
    (status ≠ 200 ∨ ∃ progress, body = Ret progress ∧ finished progress = false).

(** The first request was accepted. *)
Definition started (api : rapidapi) : Prop :=
  ∃ body_text data, start_request api = Ret (200, body_text, Ret data) ∧
                    start_success data = true.

(** A service that accepts the job and never finishes it. *)
Definition stalled_api : rapidapi :=
  {| start_request := Ret (200, "{}", Ret {| start_success := true; start_repr := "{}" |});
     progress_request := fun _ => Ret (200, Ret {| finished := false; download_url := None |});
     fetch := fun _ => Ret 200;
     write_bytes := Ret tt |}.

(** A service that answers 503 to the first two progress requests and has
    the video ready at the third. *)
Definition third_poll_api : rapidapi :=
  {| start_request := Ret (200, "{}", Ret {| start_success := true; start_repr := "{}" |});
     progress_request := fun i =>
       if (i <? 2)%nat then Ret (503, Raise ValueError)
       else Ret (200, Ret {| finished := true;
                             download_url := Some "https://cdn.example/video.mp4" |});
     fetch := fun _ => Ret 200;
     write_bytes := Ret tt |}.


(** ** Vocabulary of the further properties *)

(** The file names of the per-scene candidates. *)
Definition is_temp (p : path) : Prop :=
  match p with
  | temp_jpg _ _ => True
  | _ => False
  end.

(** Every reason an entry of the rejected list can carry. *)
Definition rejection_reasons : list string :=
  bad_reasons ++ ["not_sharpest"; "duplicate"].

(** An entry of [rejected_in_scene] of the scene [sc]: a candidate file, not
    yet flagged, labelled with the bounds of the scene; a reason of the
    quality gate comes with the sample time, the two other reasons without. *)
Definition entry_ok (sc : scene) (r : rejected_frame) : Prop :=
  is_temp (r_path r) ∧
  r_selected r = None ∧
  r_scene_start r = start sc ∧
  r_scene_end r = end_ sc ∧
  ((r_reason r ∈ bad_reasons ∧ is_Some (r_timestamp r)) ∨
   ((r_reason r = "not_sharpest" ∨ r_reason r = "duplicate") ∧ r_timestamp r = None)).

(** What the sampling loop of a scene keeps, besides [sample_inv]: files
    other than candidates are left alone, every candidate file written so
    far is either listed in [rejected_in_scene] or the current best, and the
    current best has a positive sharpness. *)
Definition scan_inv (sc : scene) (st0 : state) (acc : state * scene_vars) : Prop :=
  (∀ p, ¬ is_temp p → files (fst acc) !! p = files st0 !! p) ∧
  (∀ p, is_temp p → is_Some (files (fst acc) !! p) →
        is_Some (files st0 !! p) ∨
        p ∈ map r_path (rejected_in_scene (snd acc)) ∨
        best_path (snd acc) = Some p) ∧
  Forall (entry_ok sc) (rejected_in_scene (snd acc)) ∧
  (∀ bp, best_path (snd acc) = Some bp →
         is_temp bp ∧ (0 < best_sharpness (snd acc))%Q) ∧
  (0 <= best_sharpness (snd acc))%Q.

(** The shot an entry of the selected list is labelled with. *)
Definition scene_of (f : selected_frame) : scene :=
  {| start := scene_start f; end_ := scene_end f |}.

(** The entry appended for the winner of [sc] when [n] frames are selected. *)
Definition winner_entry (n : nat) (sc : scene) (sharp : Q) : selected_frame :=
  {| path_of := selected_jpg n;
     scene_start := start sc; scene_end := end_ sc;
     sharpness := sharp; selected := true |}.

(** Fingerprints in which each known one is at least [threshold] away from
    every known one before it. *)
Definition spread (threshold : Z) (seen : list (option N)) : Prop :=
  ∀ i j hi hj, (i < j)%nat →
    seen !! i = Some (Some hi) → seen !! j = Some (Some hj) →
    threshold ≤ hash_sub hj hi.

(** The fingerprint [compute_phash] gets from the content of a file. *)
Definition file_phash (f : frame) : option N :=
  match phash f with
  | Ret h => Some h
  | Raise _ => None
  end.

(** The entry [rejected_frames] gets for [r0] when it is renamed to number [n]. *)
Definition renamed (n : nat) (r0 : rejected_frame) : rejected_frame :=
  {| r_path := rejected_jpg n; r_reason := r_reason r0;
     r_scene_start := r_scene_start r0; r_scene_end := r_scene_end r0;
     r_timestamp := r_timestamp r0; r_selected := Some false |}.

(** [added] holds renamed entries of [l], numbered from [n] on. *)
Definition renamed_from (n : nat) (l added : list rejected_frame) : Prop :=
  ∀ k r, added !! k = Some r → ∃ r0, r0 ∈ l ∧ r = renamed (n + k) r0.

(** What processing the scene [sc] does to the variables that live across
    scenes: it appends renamed entries of the scene to the rejected list and
    leaves a file behind for each, it removes every candidate file it wrote,
    and it either leaves the selected list alone or appends one winner whose
    fingerprint is no duplicate of the fingerprints seen so far. *)
Definition scene_effect (threshold : Z) (sc : scene) (st st' : state) : Prop :=
  (∃ rej_added l,
     rejected_frames st' = rejected_frames st ++ rej_added ∧
     Forall (entry_ok sc) l ∧
     renamed_from (length (rejected_frames st)) l rej_added ∧
     (∀ k, (k < length (rejected_frames st))%nat →
        files st' !! rejected_jpg k = files st !! rejected_jpg k) ∧
     (∀ k, (length (rejected_frames st) ≤ k < length (rejected_frames st'))%nat →
        is_Some (files st' !! rejected_jpg k))) ∧
  ((∀ p, is_temp p → files st !! p = None) → ∀ p, is_temp p → files st' !! p = None) ∧
  ((selected_frames st' = selected_frames st ∧ seen_hashes st' = seen_hashes st ∧
    ∀ k, files st' !! selected_jpg k = files st !! selected_jpg k) ∨
   (∃ sharp content, (0 < sharp)%Q ∧
      selected_frames st' = selected_frames st ++
        [winner_entry (length (selected_frames st)) sc sharp] ∧
      seen_hashes st' = seen_hashes st ++ [file_phash content] ∧
      is_duplicate (file_phash content) (seen_hashes st) threshold = false ∧
      files st' !! selected_jpg (length (selected_frames st)) = Some content ∧
      ∀ k, k ≠ length (selected_frames st) →
        files st' !! selected_jpg k = files st !! selected_jpg k)).

(** What holds of the variables that live across scenes between two scenes:
    the selected and rejected entries are numbered by their position and
    flagged, a selected frame has a positive sharpness, a rejected entry
    carries a reason of the quality gate together with a sample time or one
    of the two other reasons without, there is one fingerprint per selected
    frame, read from the file of that frame, the fingerprints are spread,
    and every rejected entry has its file. *)
Definition tidy (threshold : Z) (st : state) : Prop :=
  (∀ k f, selected_frames st !! k = Some f →
     path_of f = selected_jpg k ∧ selected f = true ∧ (0 < sharpness f)%Q) ∧
  (∀ k r, rejected_frames st !! k = Some r →
     r_path r = rejected_jpg k ∧ r_selected r = Some false ∧
     ((r_reason r ∈ bad_reasons ∧ is_Some (r_timestamp r)) ∨
      ((r_reason r = "not_sharpest" ∨ r_reason r = "duplicate") ∧ r_timestamp r = None))) ∧
  length (seen_hashes st) = length (selected_frames st) ∧
  spread threshold (seen_hashes st) ∧
  (∀ k h, seen_hashes st !! k = Some h →
     ∃ content, files st !! selected_jpg k = Some content ∧ file_phash content = h) ∧
  (∀ k, (k < length (rejected_frames st))%nat → is_Some (files st !! rejected_jpg k)).

(** The entry [r] is labelled with the bounds of a scene of [scenes]. *)
Definition from_scenes (scenes : list scene) (r : rejected_frame) : Prop :=
  ∃ sc, sc ∈ scenes ∧ r_scene_start r = start sc ∧ r_scene_end r = end_ sc.

(** ** Vocabulary of the properties of an empty result *)

(** The frame of the video at [sample_time] is inside the video,
    [cap.read] returns it and [cv2.imwrite] writes it. *)
Definition captured (v : video) (sample_time : Q) : Prop :=
  int (sample_time * fps v) < total_frames_count v ∧
  ∃ f, read v (int (sample_time * fps v)) = Some f ∧ imwrite f = true.

(** The sampling loop holds a candidate that will end in one of the two
    lists: a best frame of positive sharpness whose file exists, or an entry
    of [rejected_in_scene] whose file exists. *)
Definition holds_candidate (acc : state * scene_vars) : Prop :=
  (∃ bp, best_path (snd acc) = Some bp ∧
         Qltb 0 (best_sharpness (snd acc)) = true ∧
         is_Some (files (fst acc) !! bp)) ∨
  (∃ r, r ∈ rejected_in_scene (snd acc) ∧ is_Some (files (fst acc) !! r_path r)).

(** * Properties *)

(** ** Arithmetic helpers *)

Lemma Qltb_lt (a b : Q) : Qltb a b = true ↔ (a < b)%Q.
Proof. unfold Qltb, Qlt. apply Z.ltb_lt. Qed.

Lemma Qltb_trans_l (a b c : Q) : (a <= b)%Q → Qltb b c = true → Qltb a c = true.
Proof. rewrite !Qltb_lt. intros. eapply Qle_lt_trans; eauto. Qed.

Lemma Qltb_trans_r (a b c : Q) : (b <= c)%Q → Qltb a b = true → Qltb a c = true.
Proof. rewrite !Qltb_lt. intros. eapply Qlt_le_trans; eauto. Qed.

(** ** Scene detection (C2) *)

(** C2, as the claim states it, fails: a video that cannot be decoded
    ([detect] raises) and a video without any cut ([detect] returns no
    scene) give the same value at the [detect_scenes] interface, and no
    exception reaches the caller. *)
Lemma C2_decode_error_not_distinct :
  detect_scenes (Raise (LibraryError "Failed to open video")) = detect_scenes (Ret []).
Proof. reflexivity. Qed.

(** C2 (amended): [detect_scenes] never raises; when the video cannot be
    decoded it returns the empty list, exactly as for a video without
    content changes, and [process_video] ends both runs in the same
    failed state with the error "No scenes". *)
Theorem C2_decode_error_reported_as_no_scenes :
  ∀ (e : exn) (v : video) (quality_mode : string) (max_frames max_workers : Z)
    (env : upload_env),
    detect_scenes (Raise e) = [] ∧
    detect_scenes (Ret []) = [] ∧
    process_video None (Raise e) v quality_mode max_frames max_workers env =
      Ret {| status := "failed"; scenes_found := 0;
             uploaded_selected := []; uploaded_rejected := [];
             errors := ["No scenes"] |} ∧
    process_video None (Raise e) v quality_mode max_frames max_workers env =
      process_video None (Ret []) v quality_mode max_frames max_workers env.
Proof. intros. repeat split; reflexivity. Qed.

(** ** Duplicate filter (C3, C5) *)

Lemma is_duplicate_scan_app c l1 l2 t :
  is_duplicate_scan c (l1 ++ l2) t =
  is_duplicate_scan c l1 t || is_duplicate_scan c l2 t.
Proof.
  induction l1 as [|[h|] l1 IH]; simpl; auto.
  destruct (hash_sub c h <? t); auto.
Qed.

(** What a threshold flags as duplicate, every larger threshold flags too:
    the duplicates of "strict" (6) are among those of "medium" (8), which
    are among those of "high" (10). *)
Lemma is_duplicate_threshold_mono current_hash seen_hashes t1 t2 :
  t1 ≤ t2 →
  is_duplicate current_hash seen_hashes t1 = true →
  is_duplicate current_hash seen_hashes t2 = true.
Proof.
  intros Hle. destruct current_hash as [c|]; simpl; [|auto].
  induction seen_hashes as [|[h|] l IH]; simpl; auto.
  destruct (hash_sub c h <? t1) eqn:E1, (hash_sub c h <? t2) eqn:E2; auto.
  apply Z.ltb_lt in E1. apply Z.ltb_ge in E2. lia.
Qed.

(** C3: the four scenarios of the claim, run through the extractor on a
    video of two shots whose winning frames hash to 0 and to [h].
    At distance 3 the second shot is a duplicate under "medium" and under
    "strict". At distance 9 both shots are selected under "medium", and
    under "strict" as well: 9 is not below the threshold 6, so the second
    shot is not rejected. *)
Theorem C3_duplicate_scenarios :
  hash_sub 7 0 = 3 ∧ hash_sub 511 0 = 9 ∧
  (∀ mode, mode = "medium" ∨ mode = "strict" →
     ∃ r, extract_smart_keyframes (two_shot_video 7) two_shots ∅ 50 3 (3 # 10) mode = Ret r ∧
          length (result_selected r) = 1%nat ∧
          rejected_histogram (result_stats r) !! "duplicate" = Some 1%nat ∧
          (∃ x, last (result_rejected r) = Some x ∧ r_reason x = "duplicate")) ∧
  (∀ mode, mode = "medium" ∨ mode = "strict" →
     ∃ r, extract_smart_keyframes (two_shot_video 511) two_shots ∅ 50 3 (3 # 10) mode = Ret r ∧
          length (result_selected r) = 2%nat ∧
          rejected_histogram (result_stats r) !! "duplicate" = Some 0%nat ∧
          Forall (fun x => r_reason x = "not_sharpest") (result_rejected r)) ∧
  is_duplicate (Some 511%N) [Some 0%N] (phash_threshold (get_preset "strict")) = false.
Proof.
  split; [reflexivity|]. split; [reflexivity|].
  split; [|split; [|reflexivity]].
  - intros mode [-> | ->]; eexists; (split; [vm_compute; reflexivity|]);
      (split; [reflexivity|]); (split; [vm_compute; reflexivity|]);
      eexists; split; reflexivity.
  - intros mode [-> | ->]; eexists; (split; [vm_compute; reflexivity|]);
      (split; [reflexivity|]); (split; [vm_compute; reflexivity|]);
      repeat constructor.
Qed.

(** C5, as the claim states it, fails: when the winner of a shot has no
    fingerprint ([phash] raises, [compute_phash] returns [None]) the frame
    is selected and [None] is appended to [seen_hashes]. *)
Lemma C5_seen_hashes_holds_none :
  ∃ st,
    scene_loop supabase_count_duplicate
      (sharpening_video (Raise (LibraryError "cannot identify image file")))
      50 3 "medium" (initial_state supabase_histogram ∅) 0 [ten_second_shot] = Ret st ∧
    length (selected_frames st) = 1%nat ∧
    seen_hashes st = [None].
Proof. eexists. split; [vm_compute; reflexivity|]. split; reflexivity. Qed.

(** C5 (amended): a [None] fingerprint never counts as duplicate; the
    winner it belongs to is selected and the [None] is appended to
    [seen_hashes]; and a [None] entry of [seen_hashes] is skipped by every
    later comparison, so the answer of [is_duplicate] is the same with or
    without it. *)
Theorem C5_none_fingerprint
    (count_duplicate : gmap string nat → outcome (gmap string nat))
    (quality_mode : string) (sc : scene) (st : state) (sv : scene_vars) (bp : path) :
  best_path sv = Some bp →
  Qltb 0 (best_sharpness sv) = true →
  is_Some (files st !! bp) →
  compute_phash (files st) bp = None →
  (∀ seen threshold, is_duplicate None seen threshold = false) ∧
  (∃ st', settle_winner count_duplicate quality_mode sc st sv = Ret (st', sv) ∧
          seen_hashes st' = seen_hashes st ++ [None] ∧
          length (selected_frames st') = S (length (selected_frames st)) ∧
          rejected_frames st' = rejected_frames st) ∧
  (∀ c before after threshold,
     is_duplicate c (before ++ None :: after) threshold =
     is_duplicate c (before ++ after) threshold).
Proof.
  intros Hbp Hsharp [content Hfile] Hhash.
  split; [reflexivity|]. split.
  - unfold settle_winner. rewrite Hbp, Hsharp, Hhash. simpl.
    unfold os_rename. rewrite Hfile. simpl.
    eexists. split; [reflexivity|]. simpl.
    rewrite length_app. simpl. repeat split; auto. lia.
  - intros [c|] before after threshold; simpl; [|reflexivity].
    rewrite !is_duplicate_scan_app. reflexivity.
Qed.

Lemma C5_none_fingerprint_witness :
  ∃ st',
    settle_winner supabase_count_duplicate "medium" ten_second_shot
      (with_files (initial_state supabase_histogram ∅)
         (<[temp_jpg 0 2 := clear_frame 62 (Raise (LibraryError "cannot identify image file"))]> ∅))
      {| best_sharpness := 62; best_path := Some (temp_jpg 0 2); rejected_in_scene := [] |}
    = Ret (st', {| best_sharpness := 62; best_path := Some (temp_jpg 0 2);
                   rejected_in_scene := [] |}) ∧
    seen_hashes st' = [None] ∧
    length (selected_frames st') = 1%nat ∧
    rejected_frames st' = [].
Proof.
  apply (C5_none_fingerprint supabase_count_duplicate "medium"
           ten_second_shot
           (with_files (initial_state supabase_histogram ∅)
              (<[temp_jpg 0 2 := clear_frame 62 (Raise (LibraryError "cannot identify image file"))]> ∅))
           {| best_sharpness := 62; best_path := Some (temp_jpg 0 2);
              rejected_in_scene := [] |}
           (temp_jpg 0 2)).
  - reflexivity.
  - reflexivity.
  - vm_compute. eexists. reflexivity.
  - vm_compute. reflexivity.
Defined.

(** ** Quality gate (C4, C6) *)

Lemma strict_medium : stricter preset_strict preset_medium.
Proof. unfold stricter, Qle; simpl; lia. Qed.

Lemma medium_high : stricter preset_medium preset_high.
Proof. unfold stricter, Qle; simpl; lia. Qed.

(** A frame the stricter preset does not flag gets the very same answer
    from the laxer one. *)
Lemma quality_checks_laxer p1 p2 px :
  stricter p1 p2 →
  (∀ reason, quality_checks p1 px ≠ Ret (true, reason)) →
  quality_checks p2 px = quality_checks p1 px.
Proof.
  intros (Hblack & Hvar & Hedge & Hblur & Hcontrast) Hok.
  unfold quality_checks in *.
  destruct (black_ratio px) as [b|]; simpl in *; [|reflexivity].
  destruct (Qltb (black_threshold p1) b) eqn:E1; [exfalso; eapply Hok; reflexivity|].
  destruct (Qltb (black_threshold p2) b) eqn:E1'.
  { apply (Qltb_trans_l _ _ _ Hblack) in E1'. congruence. }
  destruct (variance px) as [var|]; simpl in *; [|reflexivity].
  destruct (Qltb var (variance_threshold p1)) eqn:E2; [exfalso; eapply Hok; reflexivity|].
  destruct (Qltb var (variance_threshold p2)) eqn:E2'.
  { apply (Qltb_trans_r _ _ _ Hvar) in E2'. congruence. }
  destruct (edge_ratio px) as [edges|]; simpl in *; [|reflexivity].
  destruct (Qltb edges (edge_threshold p1) && Qltb var 500) eqn:E3;
    [exfalso; eapply Hok; reflexivity|].
  destruct (Qltb edges (edge_threshold p2) && Qltb var 500) eqn:E3'.
  { apply andb_true_iff in E3' as [E3a E3b].
    apply (Qltb_trans_r _ _ _ Hedge) in E3a. rewrite E3a, E3b in E3. discriminate. }
  destruct (laplacian_var px) as [sharp|]; simpl in *; [|reflexivity].
  destruct (Qltb sharp (blur_threshold p1)) eqn:E4; [exfalso; eapply Hok; reflexivity|].
  destruct (Qltb sharp (blur_threshold p2)) eqn:E4'.
  { apply (Qltb_trans_r _ _ _ Hblur) in E4'. congruence. }
  destruct (non_zero px) as [bins|]; simpl in *; [|reflexivity].
  destruct (bins <? contrast_threshold p1) eqn:E5; [exfalso; eapply Hok; reflexivity|].
  destruct (bins <? contrast_threshold p2) eqn:E5'; [|reflexivity].
  apply Z.ltb_lt in E5'. apply Z.ltb_ge in E5. lia.
Qed.

Lemma is_bad_frame_laxer fs image_path mode1 mode2 :
  stricter (get_preset mode1) (get_preset mode2) →
  fst (is_bad_frame fs image_path mode1) = false →
  is_bad_frame fs image_path mode2 = is_bad_frame fs image_path mode1.
Proof.
  intros Hstrict Hok. unfold is_bad_frame, is_bad_frame_try in *.
  destruct (cv2_imread fs image_path) as [[px|]|]; simpl in *; try reflexivity.
  rewrite (quality_checks_laxer _ _ px Hstrict); [reflexivity|].
  intros reason Hbad. rewrite Hbad in Hok. discriminate.
Qed.

(** C6: a frame that the quality gate accepts under "strict" is accepted
    under "medium", and a frame accepted under "medium" is accepted under
    "high" (with the shipped thresholds); the gate even returns the same
    pair in both modes. *)
Theorem C6_acceptance_monotone (fs : directory) (image_path : path) :
  (fst (is_bad_frame fs image_path "strict") = false →
   fst (is_bad_frame fs image_path "medium") = false ∧
   is_bad_frame fs image_path "medium" = is_bad_frame fs image_path "strict") ∧
  (fst (is_bad_frame fs image_path "medium") = false →
   fst (is_bad_frame fs image_path "high") = false ∧
   is_bad_frame fs image_path "high" = is_bad_frame fs image_path "medium").
Proof.
  split; intros H.
  - rewrite (is_bad_frame_laxer fs image_path "strict" "medium" strict_medium H). auto.
  - rewrite (is_bad_frame_laxer fs image_path "medium" "high" medium_high H). auto.
Qed.

Lemma C6_acceptance_monotone_witness :
  fst (is_bad_frame (<[temp_jpg 0 2 := clear_frame 62 (Ret 0%N)]> ∅) (temp_jpg 0 2) "strict") = false ∧
  fst (is_bad_frame (<[temp_jpg 0 2 := clear_frame 62 (Ret 0%N)]> ∅) (temp_jpg 0 2) "medium") = false ∧
  fst (is_bad_frame (<[temp_jpg 0 2 := clear_frame 62 (Ret 0%N)]> ∅) (temp_jpg 0 2) "high") = false.
Proof.
  pose proof (C6_acceptance_monotone
    (<[temp_jpg 0 2 := clear_frame 62 (Ret 0%N)]> ∅) (temp_jpg 0 2)) as [Hsm Hmh].
  assert (Hs : fst (is_bad_frame (<[temp_jpg 0 2 := clear_frame 62 (Ret 0%N)]> ∅)
                      (temp_jpg 0 2) "strict") = false) by (vm_compute; reflexivity).
  destruct (Hsm Hs) as [Hm _]. destruct (Hmh Hm) as [Hh _].
  exact (conj Hs (conj Hm Hh)).
Defined.

Lemma is_bad_frame_not_unreadable fs image_path quality_mode reason :
  is_bad_frame fs image_path quality_mode = (false, reason) →
  cv2_imread fs image_path ≠ Ret None.
Proof.
  unfold is_bad_frame, is_bad_frame_try. intros H Hnone.
  rewrite Hnone in H. simpl in H. discriminate.
Qed.

Lemma quality_checks_false p px reason :
  quality_checks p px = Ret (false, reason) → reason = "OK".
Proof.
  unfold quality_checks. intros H.
  destruct (black_ratio px); simpl in H; [|discriminate].
  destruct (Qltb _ _); [discriminate|].
  destruct (variance px); simpl in H; [|discriminate].
  destruct (Qltb _ _); [discriminate|].
  destruct (edge_ratio px); simpl in H; [|discriminate].
  destruct (_ && _); [discriminate|].
  destruct (laplacian_var px); simpl in H; [|discriminate].
  destruct (Qltb _ _); [discriminate|].
  destruct (non_zero px); simpl in H; [|discriminate].
  destruct (_ <? _); [discriminate|].
  inversion H. reflexivity.
Qed.

(** A [False] answer of the gate is given to an existing file only. *)
Lemma is_bad_frame_false_exists fs image_path quality_mode reason :
  is_bad_frame fs image_path quality_mode = (false, reason) →
  is_Some (fs !! image_path).
Proof.
  intros H. apply is_bad_frame_not_unreadable in H. unfold cv2_imread in H.
  destruct (fs !! image_path); [eauto|contradiction].
Qed.

Lemma cv2_imwrite_written fs p f :
  imwrite f = true → cv2_imwrite fs p f = <[p := f]> fs.
Proof. unfold cv2_imwrite. intros ->. reflexivity. Qed.

Lemma cv2_imwrite_ne fs p f q :
  p ≠ q → cv2_imwrite fs p f !! q = fs !! q.
Proof.
  unfold cv2_imwrite. intros Hne. destruct (imwrite f); [|reflexivity].
  apply lookup_insert_ne. exact Hne.
Qed.

Lemma cv2_imwrite_keeps fs p f q :
  is_Some (fs !! q) → is_Some (cv2_imwrite fs p f !! q).
Proof.
  unfold cv2_imwrite. intros H. destruct (imwrite f); [|exact H].
  destruct (decide (p = q)) as [->|Hne].
  - rewrite lookup_insert_eq. eauto.
  - rewrite lookup_insert_ne by exact Hne. exact H.
Qed.

(** C4, as the claim states it, fails on two counts. The fail-open answer
    is also given to a file on which [cv2.imread] itself raises, that is
    without any decode and before check 1 could rule anything out; and a
    frame that got the answer is not always kept: when [cv2.Laplacian]
    raises in the gate and in [measure_sharpness] alike, every frame of the
    shot decodes, gets the answer [(False, "check_error: ...")] and the
    sharpness 0, none is selected and all three end in the rejected list,
    with no trace of the exception in the histogram. *)
Lemma C4_fail_open_undecoded_or_discarded :
  cv2_imread (<[temp_jpg 0 2 := undecodable_frame]> ∅) (temp_jpg 0 2) =
    Raise (LibraryError "OpenCV: failed to allocate") ∧
  is_bad_frame (<[temp_jpg 0 2 := undecodable_frame]> ∅) (temp_jpg 0 2) "medium" =
    (false, "check_error: OpenCV: failed to allocate") ∧
  cv2_imread (<[temp_jpg 0 2 := laplacian_glitch_frame]> ∅) (temp_jpg 0 2) =
    Ret (Some glitch_pixels) ∧
  is_bad_frame (<[temp_jpg 0 2 := laplacian_glitch_frame]> ∅) (temp_jpg 0 2) "medium" =
    (false, "check_error: OpenCV: out of memory") ∧
  ∃ r, extract_smart_keyframes laplacian_glitch_video [ten_second_shot] ∅ 50 3 (3 # 10)
         "medium" = Ret r ∧
       result_selected r = [] ∧
       map r_reason (result_rejected r) =
         ["not_sharpest"; "not_sharpest"; "not_sharpest"] ∧
       rejected_histogram (result_stats r) = supabase_histogram.
Proof.
  split_and!; try (vm_compute; reflexivity).
  eexists. split; [vm_compute; reflexivity|]. split_and!; vm_compute; reflexivity.
Qed.

(** C4 (amended): for a frame file that decodes, when the evaluation of
    checks 2-6 raises [e], the gate answers [(False, "check_error: e")].
    In the sampling loop such a frame, once read and written, touches no
    counter and gets no reason of the gate: it is weighed by
    [measure_sharpness] like an accepted frame. If it is sharper than the
    best of the shot so far it becomes the best candidate (the previous
    best, if its file is there, being listed as "not_sharpest"), otherwise
    it is itself listed as "not_sharpest", which is what happens whenever
    its measured sharpness is 0. The answer [False] comes with the reason
    "OK" after all checks passed, and with a "check_error" reason exactly
    when something raised inside the [try]: a check on a decoded image, or
    [cv2.imread] itself, without any decode; it is never given to a file
    for which [cv2.imread] returned [None]. *)
Theorem C4_check_error_fail_open
    (v : video) (quality_mode : string) (scene_idx : nat) (sc : scene)
    (st : state) (sv : scene_vars) (sample_time : Q)
    (f : frame) (px : pixels) (e : exn) :
  int (sample_time * fps v) < total_frames_count v →
  read v (int (sample_time * fps v)) = Some f →
  imwrite f = true →
  imread f = Ret (Some px) →
  quality_checks (get_preset quality_mode) px = Raise e →
  (∀ fs image_path, fs !! image_path = Some f →
     is_bad_frame fs image_path quality_mode = (false, "check_error: " +:+ exn_text e)) ∧
  (let temp_path := temp_jpg scene_idx (int (sample_time * fps v)) in
   let fs := <[temp_path := f]> (files st) in
   let sharpness := measure_sharpness fs temp_path in
   sample_step v quality_mode scene_idx sc (st, sv) sample_time =
     (with_files st fs,
      if Qltb (best_sharpness sv) sharpness
      then {| best_sharpness := sharpness;
              best_path := Some temp_path;
              rejected_in_scene :=
                match best_path sv with
                | Some bp =>
                    if decide (is_Some (fs !! bp))
                    then rejected_in_scene sv ++ [rejection bp "not_sharpest" sc None]
                    else rejected_in_scene sv
                | None => rejected_in_scene sv
                end |}
      else reject_in_scene sv (rejection temp_path "not_sharpest" sc None)) ∧
   ((0 <= best_sharpness sv)%Q → (sharpness <= 0)%Q →
    sample_step v quality_mode scene_idx sc (st, sv) sample_time =
      (with_files st fs,
       reject_in_scene sv (rejection temp_path "not_sharpest" sc None)))) ∧
  (∀ fs image_path reason,
     is_bad_frame fs image_path quality_mode = (false, reason) →
     (reason = "OK" ∧
      ∃ px', cv2_imread fs image_path = Ret (Some px') ∧
             quality_checks (get_preset quality_mode) px' = Ret (false, "OK")) ∨
     (∃ e', reason = "check_error: " +:+ exn_text e' ∧
            (cv2_imread fs image_path = Raise e' ∨
             ∃ px', cv2_imread fs image_path = Ret (Some px') ∧
                    quality_checks (get_preset quality_mode) px' = Raise e'))) ∧
  (∀ fs image_path e',
     cv2_imread fs image_path = Raise e' →
     is_bad_frame fs image_path quality_mode = (false, "check_error: " +:+ exn_text e')).
Proof.
  intros Hnum Hread Hwrite Hdecode Hraise.
  assert (Hgate : ∀ fs image_path, fs !! image_path = Some f →
            is_bad_frame fs image_path quality_mode =
            (false, "check_error: " +:+ exn_text e)).
  { intros fs image_path Hfile.
    unfold is_bad_frame, is_bad_frame_try, cv2_imread.
    rewrite Hfile, Hdecode. simpl. rewrite Hraise. reflexivity. }
  assert (Hstep :
    sample_step v quality_mode scene_idx sc (st, sv) sample_time =
      (with_files st (<[temp_jpg scene_idx (int (sample_time * fps v)) := f]> (files st)),
       if Qltb (best_sharpness sv)
            (measure_sharpness
               (<[temp_jpg scene_idx (int (sample_time * fps v)) := f]> (files st))
               (temp_jpg scene_idx (int (sample_time * fps v))))
       then {| best_sharpness :=
                 measure_sharpness
                   (<[temp_jpg scene_idx (int (sample_time * fps v)) := f]> (files st))
                   (temp_jpg scene_idx (int (sample_time * fps v)));
               best_path := Some (temp_jpg scene_idx (int (sample_time * fps v)));
               rejected_in_scene :=
                 match best_path sv with
                 | Some bp =>
                     if decide (is_Some
                          ((<[temp_jpg scene_idx (int (sample_time * fps v)) := f]>
                              (files st)) !! bp))
                     then rejected_in_scene sv ++ [rejection bp "not_sharpest" sc None]
                     else rejected_in_scene sv
                 | None => rejected_in_scene sv
                 end |}
       else reject_in_scene sv
              (rejection (temp_jpg scene_idx (int (sample_time * fps v)))
                 "not_sharpest" sc None))).
  { unfold sample_step.
    destruct (total_frames_count v <=? int (sample_time * fps v)) eqn:E.
    { apply Z.leb_le in E. lia. }
    rewrite Hread. rewrite (cv2_imwrite_written _ _ _ Hwrite). simpl.
    rewrite (Hgate _ _ (lookup_insert_eq _ _ _)).
    destruct (Qltb (best_sharpness sv) _); [|reflexivity].
    destruct (best_path sv) as [bp|]; [|reflexivity].
    destruct (decide _); reflexivity. }
  split; [exact Hgate|]. split; [|split].
  - cbv zeta. split; [exact Hstep|].
    intros Hbest Hzero. rewrite Hstep.
    destruct (Qltb (best_sharpness sv) _) eqn:Esharp; [|reflexivity].
    apply Qltb_lt in Esharp. exfalso.
    apply (Qlt_irrefl 0). eapply Qle_lt_trans; [exact Hbest|].
    eapply Qlt_le_trans; [exact Esharp|exact Hzero].
  - intros fs image_path reason H.
    unfold is_bad_frame, is_bad_frame_try in H.
    destruct (cv2_imread fs image_path) as [[px'|]|e'] eqn:Eread; simpl in H.
    + destruct (quality_checks (get_preset quality_mode) px') as [r|e'] eqn:Echecks.
      * subst r. pose proof (quality_checks_false _ _ _ Echecks) as ->.
        left. split; [reflexivity|]. eauto.
      * inversion H. right. exists e'. split; [reflexivity|]. right. eauto.
    + discriminate.
    + inversion H. right. exists e'. split; [reflexivity|]. left. reflexivity.
  - intros fs image_path e' Eread. unfold is_bad_frame, is_bad_frame_try.
    rewrite Eread. reflexivity.
Qed.

Lemma C4_check_error_fail_open_witness :
  is_bad_frame (<[temp_jpg 0 2 := glitch_frame]> ∅) (temp_jpg 0 2) "medium" =
    (false, "check_error: OpenCV: out of memory") ∧
  sample_step glitch_video "medium" 0 ten_second_shot
    (initial_state supabase_histogram ∅,
     {| best_sharpness := 0; best_path := None; rejected_in_scene := [] |}) 2 =
  (with_files (initial_state supabase_histogram ∅) (<[temp_jpg 0 2 := glitch_frame]> ∅),
   {| best_sharpness := 40; best_path := Some (temp_jpg 0 2); rejected_in_scene := [] |}).
Proof.
  destruct (C4_check_error_fail_open glitch_video "medium" 0 ten_second_shot
              (initial_state supabase_histogram ∅)
              {| best_sharpness := 0; best_path := None; rejected_in_scene := [] |}
              2 glitch_frame glitch_pixels (LibraryError "OpenCV: out of memory"))
    as (Hgate & [Hstep _] & _).
  - vm_compute. reflexivity.
  - reflexivity.
  - reflexivity.
  - reflexivity.
  - vm_compute. reflexivity.
  - split.
    + apply Hgate. apply lookup_insert_eq.
    + rewrite Hstep. vm_compute. reflexivity.
Defined.

(** ** Sampling (C7) *)

Lemma sample_loop_filter (sc : scene) (l : list Z) (points : list Q) :
  fold_left
    (fun points i =>
       let offset := ((end_ sc - start sc) * ((2 # 10) + (3 # 10) * inject_Z i))%Q in
       let sample_time := (start sc + offset)%Q in
       if Qltb sample_time (end_ sc) then points ++ [sample_time] else points)
    l points
  = points ++ filter (fun t => Qltb t (end_ sc) = true) (map (sample_time_at sc) l).
Proof.
  revert points. induction l as [|i l IH]; intros points; simpl.
  - rewrite app_nil_r. reflexivity.
  - rewrite IH. fold (sample_time_at sc i).
    destruct (Qltb (sample_time_at sc i) (end_ sc)) eqn:E.
    + rewrite filter_cons_True by exact E. rewrite <- app_assoc. reflexivity.
    + rewrite filter_cons_False by congruence. reflexivity.
Qed.

(** C7: the sampled timestamps of a shot are the values
    [start + duration * (0.2 + 0.3 * i)] for [i] in [0, count) that lie
    strictly before the end of the shot, in order; a 10-second shot sampled
    with the default count 3 yields exactly start+2, start+5 and start+8,
    all before the end of the shot. *)
Theorem C7_sample_points (sc : scene) (count : Z) :
  sample_points sc count =
    filter (fun t => Qltb t (end_ sc) = true) (map (sample_time_at sc) (range count)) ∧
  ((end_ sc - start sc == 10)%Q →
     Forall2 Qeq (sample_points sc 3)
       [(start sc + 2)%Q; (start sc + 5)%Q; (start sc + 8)%Q] ∧
     Forall (fun t => (t < end_ sc)%Q) (sample_points sc 3)).
Proof.
  assert (Hgen : ∀ n, sample_points sc n =
            filter (fun t => Qltb t (end_ sc) = true) (map (sample_time_at sc) (range n))).
  { intros n. unfold sample_points. rewrite sample_loop_filter. reflexivity. }
  split; [apply Hgen|].
  intros Hten. rewrite Hgen.
  change (range 3) with [0; 1; 2]. simpl map.
  assert (H0 : (sample_time_at sc 0 == start sc + 2)%Q).
  { unfold sample_time_at. change (inject_Z 0) with 0%Q. rewrite Hten. ring. }
  assert (H1 : (sample_time_at sc 1 == start sc + 5)%Q).
  { unfold sample_time_at. change (inject_Z 1) with 1%Q. rewrite Hten. ring. }
  assert (H2 : (sample_time_at sc 2 == start sc + 8)%Q).
  { unfold sample_time_at. change (inject_Z 2) with 2%Q. rewrite Hten. ring. }
  assert (Hend : (end_ sc == start sc + 10)%Q).
  { rewrite <- Hten. ring. }
  assert (L0 : Qltb (sample_time_at sc 0) (end_ sc) = true).
  { apply Qltb_lt. rewrite H0, Hend. apply Qplus_lt_r. reflexivity. }
  assert (L1 : Qltb (sample_time_at sc 1) (end_ sc) = true).
  { apply Qltb_lt. rewrite H1, Hend. apply Qplus_lt_r. reflexivity. }
  assert (L2 : Qltb (sample_time_at sc 2) (end_ sc) = true).
  { apply Qltb_lt. rewrite H2, Hend. apply Qplus_lt_r. reflexivity. }
  rewrite filter_cons_True by exact L0.
  rewrite filter_cons_True by exact L1.
  rewrite filter_cons_True by exact L2.
  rewrite filter_nil. split.
  - repeat constructor; assumption.
  - repeat constructor; apply Qltb_lt; assumption.
Qed.

Lemma C7_sample_points_witness :
  Forall2 Qeq (sample_points ten_second_shot 3) [(0 + 2)%Q; (0 + 5)%Q; (0 + 8)%Q] ∧
  Forall (fun t => (t < 10)%Q) (sample_points ten_second_shot 3).
Proof.
  destruct (C7_sample_points ten_second_shot 3) as [_ Hscenario].
  apply Hscenario. reflexivity.
Defined.

(** In binary64 the three timestamps of the shot [0, 10] are exactly 2, 5
    and 8 as well, each below the end of the shot. *)
Example ten_second_shot_binary64 :
  map (sample_time_binary64 0 10) [0; 1; 2]%float = [2; 5; 8]%float ∧
  forallb (fun t => PrimFloat.ltb t 10) (map (sample_time_binary64 0 10) [0; 1; 2]%float)
    = true.
Proof. split; vm_compute; reflexivity. Qed.

(** ** The per-scene loop *)

Lemma quality_checks_reasons p px reason :
  quality_checks p px = Ret (true, reason) → reason ∈ bad_reasons.
Proof.
  unfold quality_checks, bad_reasons. intros H. apply list_elem_of_In.
  destruct (black_ratio px); simpl in H; [|discriminate].
  destruct (Qltb _ _); [inversion H; simpl; auto 10|].
  destruct (variance px); simpl in H; [|discriminate].
  destruct (Qltb _ _); [inversion H; simpl; auto 10|].
  destruct (edge_ratio px); simpl in H; [|discriminate].
  destruct (_ && _); [inversion H; simpl; auto 10|].
  destruct (laplacian_var px); simpl in H; [|discriminate].
  destruct (Qltb _ _); [inversion H; simpl; auto 10|].
  destruct (non_zero px); simpl in H; [|discriminate].
  destruct (_ <? _); [inversion H; simpl; auto 10|].
  inversion H.
Qed.

Lemma is_bad_frame_reasons fs image_path quality_mode reason :
  is_bad_frame fs image_path quality_mode = (true, reason) → reason ∈ bad_reasons.
Proof.
  unfold is_bad_frame, is_bad_frame_try. intros H.
  destruct (cv2_imread fs image_path) as [[px|]|]; simpl in H.
  - destruct (quality_checks _ px) eqn:E; [|discriminate].
    subst. eapply quality_checks_reasons; eauto.
  - inversion H. apply list_elem_of_In. simpl. auto.
  - discriminate.
Qed.

Lemma rename_rejected_fields st rej :
  selected_frames (rename_rejected st rej) = selected_frames st ∧
  seen_hashes (rename_rejected st rej) = seen_hashes st ∧
  stats_rejected (rename_rejected st rej) = stats_rejected st.
Proof. unfold rename_rejected. destruct (files st !! r_path rej); auto. Qed.

Lemma rename_loop_fields l st :
  selected_frames (fold_left rename_rejected l st) = selected_frames st ∧
  seen_hashes (fold_left rename_rejected l st) = seen_hashes st ∧
  stats_rejected (fold_left rename_rejected l st) = stats_rejected st.
Proof.
  revert st. induction l as [|rej l IH]; intros st; simpl; [auto|].
  destruct (IH (rename_rejected st rej)) as (-> & -> & ->).
  apply rename_rejected_fields.
Qed.

Section SampleLoop.

Variable v : video.
Variable quality_mode : string.
Variable scene_idx : nat.
Variable sc : scene.

(** A property of the histogram that counting a quality rejection keeps. *)
Variable P : gmap string nat → Prop.
Hypothesis P_count_bad :
  ∀ h reason, reason ∈ bad_reasons → P h → P (count_with_get h reason).

Lemma sample_step_inv st0 acc sample_time :
  sample_inv P st0 acc →
  sample_inv P st0 (sample_step v quality_mode scene_idx sc acc sample_time).
Proof.
  destruct acc as [st sv]. intros (Hsel & Hrej & Hseen & HP & Hbest).
  unfold sample_step. simpl in *.
  destruct (total_frames_count v <=? _); [repeat split; auto|].
  destruct (read v _) as [frame|]; [|repeat split; auto].
  destruct (is_bad_frame _ _ _) as [is_bad reason] eqn:Egate.
  destruct is_bad.
  - repeat split; simpl; auto.
    + apply P_count_bad; [|exact HP]. eapply is_bad_frame_reasons; eauto.
    + intros bp Hbp. apply cv2_imwrite_keeps. apply Hbest. exact Hbp.
  - destruct (Qltb (best_sharpness sv) _).
    + repeat split; simpl; auto.
      intros bp Hbp. inversion Hbp. subst bp.
      eapply is_bad_frame_false_exists. exact Egate.
    + repeat split; simpl; auto.
      intros bp Hbp. apply cv2_imwrite_keeps. apply Hbest. exact Hbp.
Qed.

Lemma sample_loop_inv st0 points acc :
  sample_inv P st0 acc →
  sample_inv P st0 (fold_left (sample_step v quality_mode scene_idx sc) points acc).
Proof.
  revert acc. induction points as [|t points IH]; intros acc H; simpl; [exact H|].
  apply IH. apply sample_step_inv. exact H.
Qed.

End SampleLoop.

Section SceneLoop.

Variable count_duplicate : gmap string nat → outcome (gmap string nat).
Variable v : video.
Variable max_frames : Z.
Variable samples_per_scene : Z.
Variable quality_mode : string.

Abbreviation body := (process_scene count_duplicate v max_frames samples_per_scene quality_mode).
Abbreviation loop := (scene_loop count_duplicate v max_frames samples_per_scene quality_mode).
Abbreviation count_selected st := (Z.of_nat (length (selected_frames st))).

(** A scene that is not skipped hands the loop back with [Next] only
    below the cap. *)
Lemma process_scene_next st scene_idx sc st' :
  body st scene_idx sc = Ret (Next, st') →
  st' = st ∨ count_selected st' < max_frames.
Proof.
  unfold process_scene. intros H.
  destruct (int _ <? 3); [inversion H; auto|].
  destruct (fold_left _ _ _) as [st1 sv1].
  destruct (settle_winner _ _ _ _ _) as [r|]; simpl in H; [|discriminate].
  destruct (max_frames <=? _) eqn:E; [discriminate|].
  inversion H. subst st'. right. apply Z.leb_gt in E. exact E.
Qed.


Variable P : gmap string nat → Prop.
Hypothesis P_count_bad :
  ∀ h reason, reason ∈ bad_reasons → P h → P (count_with_get h reason).
Hypothesis P_count_duplicate :
  ∀ h, P h → ∃ h', count_duplicate h = Ret h' ∧ P h'.

Lemma settle_winner_spec sc st sv :
  P (stats_rejected st) →
  (∀ bp, best_path sv = Some bp → is_Some (files st !! bp)) →
  ∃ st' sv', settle_winner count_duplicate quality_mode sc st sv = Ret (st', sv') ∧
    P (stats_rejected st') ∧
    (length (selected_frames st') ≤ S (length (selected_frames st)))%nat.
Proof.
  intros HP Hbest. unfold settle_winner.
  destruct (best_path sv) as [bp|]; [|eauto 10].
  destruct (Qltb 0 _); [|eauto 10].
  destruct (is_duplicate _ _ _).
  - destruct (P_count_duplicate _ HP) as (h' & -> & HP'). simpl. eauto 10.
  - destruct (Hbest bp eq_refl) as [c Hc]. unfold os_rename. rewrite Hc. simpl.
    do 2 eexists. split; [reflexivity|]. simpl. split; [exact HP|].
    rewrite length_app. simpl. lia.
Qed.

Lemma process_scene_spec st scene_idx sc :
  P (stats_rejected st) →
  ∃ fl st', body st scene_idx sc = Ret (fl, st') ∧
    P (stats_rejected st') ∧
    (length (selected_frames st') ≤ S (length (selected_frames st)))%nat ∧
    (fl = Break → max_frames ≤ count_selected st').
Proof.
  intros HP. unfold process_scene.
  destruct (int _ <? 3); [do 2 eexists; split; [reflexivity|]; repeat split; auto; discriminate|].
  pose proof (sample_loop_inv v quality_mode scene_idx sc P P_count_bad st
                (sample_points sc samples_per_scene)
                (st, {| best_sharpness := 0; best_path := None; rejected_in_scene := [] |}))
    as Hinv.
  destruct (fold_left _ _ _) as [st1 sv1].
  destruct Hinv as (Hsel & _ & _ & HP1 & Hbest1).
  { repeat split; simpl; auto. discriminate. }
  simpl in *.
  destruct (settle_winner_spec sc st1 sv1 HP1 Hbest1) as (st2 & sv2 & -> & HP2 & Hlen).
  simpl.
  destruct (rename_loop_fields (rejected_in_scene sv2) st2) as (Hs & _ & Hh).
  destruct (max_frames <=? _) eqn:E; do 2 eexists; (split; [reflexivity|]);
    rewrite Hh, Hs; repeat split; auto; try discriminate; try congruence.
  intros _. apply Z.leb_le in E. rewrite Hs in E. exact E.
Qed.

(** Below the cap at the loop head, the loop returns, at or below the cap. *)
Lemma scene_loop_spec scenes st scene_idx :
  P (stats_rejected st) →
  count_selected st < max_frames →
  ∃ st', loop st scene_idx scenes = Ret st' ∧
    P (stats_rejected st') ∧
    count_selected st' ≤ max_frames.
Proof.
  revert st scene_idx. induction scenes as [|sc scenes IH]; intros st scene_idx HP Hlt; simpl.
  - eexists. split; [reflexivity|]. split; [exact HP|lia].
  - destruct (process_scene_spec st scene_idx sc HP) as (fl & st1 & E & HP1 & Hlen & Hbreak).
    rewrite E. simpl. destruct fl.
    + destruct (process_scene_next _ _ _ _ E) as [-> | Hlt1]; apply IH; auto.
    + eexists. split; [reflexivity|]. split; [exact HP1|]. lia.
Qed.

(** The thinning of the scene list cannot fail for a positive cap. *)
Lemma select_scenes_total scenes min_scene_duration :
  1 ≤ max_frames →
  ∃ l, select_scenes max_frames scenes min_scene_duration = Ret l.
Proof.
  intros Hmax. unfold select_scenes.
  destruct (max_frames * 2 <? _) eqn:E; [|eauto].
  apply Z.ltb_lt in E. unfold floordiv.
  destruct (max_frames =? 0) eqn:E0; [apply Z.eqb_eq in E0; lia|]. simpl.
  unfold slice_step.
  set (n := Z.of_nat (length _)) in *.
  assert (2 ≤ n / max_frames) by (apply Z.div_le_lower_bound; lia).
  destruct (n / max_frames =? 0) eqn:E1; [apply Z.eqb_eq in E1; lia|].
  destruct (0 <? n / max_frames); eauto.
Qed.


End SceneLoop.

(** ** The Supabase extractor: frame cap (C1) *)

Lemma supabase_inv_initial : supabase_inv supabase_histogram.
Proof. split; [eexists|]; vm_compute; reflexivity. Qed.

Lemma supabase_inv_count_bad h reason :
  reason ∈ bad_reasons → supabase_inv h → supabase_inv (count_with_get h reason).
Proof.
  intros Hin [Hdup Hns]. unfold count_with_get. split.
  - destruct (decide (reason = "duplicate")) as [->|Hne].
    + rewrite lookup_insert_eq. eauto.
    + rewrite lookup_insert_ne by exact Hne. exact Hdup.
  - rewrite lookup_insert_ne; [exact Hns|].
    intros ->. apply list_elem_of_In in Hin. simpl in Hin.
    repeat (destruct Hin as [Hin|Hin]; [discriminate|]). exact Hin.
Qed.

Lemma supabase_inv_count_duplicate h :
  supabase_inv h → ∃ h', supabase_count_duplicate h = Ret h' ∧ supabase_inv h'.
Proof.
  intros [[n Hdup] Hns]. unfold supabase_count_duplicate, count_in_place.
  rewrite Hdup. eexists. split; [reflexivity|]. split.
  - rewrite lookup_insert_eq. eauto.
  - rewrite lookup_insert_ne by discriminate. exact Hns.
Qed.



(** With a cap of one, the second of two shots is never visited: the
    result holds the winner of the first shot and the two other candidates
    of the first shot, and nothing of the second. *)
Example cap_leaves_second_shot_unvisited :
  ∃ r, extract_smart_keyframes (two_shot_video 511) two_shots ∅ 1 3 (3 # 10) "medium" = Ret r ∧
       map scene_start (result_selected r) = [0%Q] ∧
       map r_scene_start (result_rejected r) = [0%Q; 0%Q] ∧
       total_scenes (result_stats r) = 2%nat.
Proof. eexists. split; [vm_compute; reflexivity|]. repeat split. Qed.


(** ** Shots with fewer than three frames (C9) *)

(** C9: a shot whose frame count [int((end - start) * fps)] is below 3 is
    skipped by the loop body of either variant: the body hands back the
    state it was given (no file written, nothing selected, nothing
    rejected, no counter touched) and goes on to the next shot, whatever
    the duration of the shot. *)
Theorem C9_short_shot_skipped
    (count_duplicate : gmap string nat → outcome (gmap string nat))
    (v : video) (max_frames samples_per_scene : Z) (quality_mode : string)
    (st : state) (scene_idx : nat) (sc : scene) :
  int ((end_ sc - start sc) * fps v) < 3 →
  process_scene count_duplicate v max_frames samples_per_scene quality_mode
    st scene_idx sc = Ret (Next, st).
Proof.
  intros Hfew. unfold process_scene.
  destruct (int _ <? 3) eqn:E; [reflexivity|].
  apply Z.ltb_ge in E. lia.
Qed.

Lemma C9_short_shot_skipped_witness :
  Qleb (3 # 10) (end_ half_second_shot - start half_second_shot) = true ∧
  select_scenes 50 [half_second_shot] (3 # 10) = Ret [half_second_shot] ∧
  process_scene supabase_count_duplicate four_fps_video 50 3 "medium"
    (initial_state supabase_histogram ∅) 0 half_second_shot
  = Ret (Next, initial_state supabase_histogram ∅) ∧
  process_scene Convex.count_duplicate four_fps_video 50 3 "medium"
    (initial_state ∅ ∅) 0 half_second_shot
  = Ret (Next, initial_state ∅ ∅).
Proof.
  split; [reflexivity|]. split; [reflexivity|]. split.
  - apply (C9_short_shot_skipped supabase_count_duplicate four_fps_video 50 3 "medium"
             (initial_state supabase_histogram ∅) 0 half_second_shot).
    vm_compute. reflexivity.
  - apply (C9_short_shot_skipped Convex.count_duplicate four_fps_video 50 3 "medium"
             (initial_state ∅ ∅) 0 half_second_shot).
    vm_compute. reflexivity.
Defined.

(** The half-second shot of a 4-fps video passes the duration filter (it is
    counted in [total_scenes]) and leaves no trace in the result. *)
Example half_second_shot_dropped :
  ∃ r, extract_smart_keyframes four_fps_video [half_second_shot] ∅ 50 3 (3 # 10) "medium"
         = Ret r ∧
       total_scenes (result_stats r) = 1%nat ∧
       result_selected r = [] ∧ result_rejected r = [] ∧
       rejected_histogram (result_stats r) = supabase_histogram.
Proof. eexists. split; [vm_compute; reflexivity|]. repeat split. Qed.

(** ** The rejection histogram (C10) *)

Lemma scene_loop_inv
    (count_duplicate : gmap string nat → outcome (gmap string nat))
    (v : video) (max_frames samples_per_scene : Z) (quality_mode : string)
    (P : gmap string nat → Prop) :
  (∀ h reason, reason ∈ bad_reasons → P h → P (count_with_get h reason)) →
  (∀ h, P h → ∃ h', count_duplicate h = Ret h' ∧ P h') →
  ∀ scenes st scene_idx,
    P (stats_rejected st) →
    ∃ st', scene_loop count_duplicate v max_frames samples_per_scene quality_mode
             st scene_idx scenes = Ret st' ∧
           P (stats_rejected st').
Proof.
  intros Hbad Hdup. induction scenes as [|sc scenes IH]; intros st scene_idx HP; simpl.
  - eauto.
  - destruct (process_scene_spec count_duplicate v max_frames samples_per_scene
                quality_mode P Hbad Hdup st scene_idx sc HP)
      as (fl & st1 & -> & HP1 & _).
    simpl. destruct fl; eauto.
Qed.

(** C10: for every input the histogram [stats["rejected"]] of the result
    has no entry "not_sharpest"; and there are inputs whose rejected list
    holds frames with that reason, so that the counters of the histogram
    add up to less than [len(rejected)]. *)
Theorem C10_not_sharpest_not_counted :
  (∀ v scenes frames_dir max_frames samples_per_scene min_scene_duration quality_mode r,
     extract_smart_keyframes v scenes frames_dir max_frames samples_per_scene
       min_scene_duration quality_mode = Ret r →
     rejected_histogram (result_stats r) !! "not_sharpest" = None) ∧
  (∃ r, extract_smart_keyframes (sharpening_video (Ret 0%N)) [ten_second_shot] ∅
          50 3 (3 # 10) "medium" = Ret r ∧
        (∃ x, x ∈ result_rejected r ∧ r_reason x = "not_sharpest") ∧
        (histogram_total (rejected_histogram (result_stats r))
         < length (result_rejected r))%nat).
Proof.
  split.
  - intros v scenes frames_dir max_frames samples_per_scene min_scene_duration
      quality_mode r Hr.
    unfold extract_smart_keyframes, extract in Hr.
    destruct (select_scenes _ _ _) as [l|]; simpl in Hr; [|discriminate].
    destruct (scene_loop_inv supabase_count_duplicate v max_frames samples_per_scene
                quality_mode supabase_inv supabase_inv_count_bad
                supabase_inv_count_duplicate l
                (initial_state supabase_histogram frames_dir) 0 supabase_inv_initial)
      as (st & E & _ & Hns).
    rewrite E in Hr. simpl in Hr. inversion Hr. simpl. exact Hns.
  - eexists. split; [vm_compute; reflexivity|]. split.
    + eexists. split; [apply list_elem_of_here|reflexivity].
    + vm_compute. lia.
Qed.

Lemma C10_not_sharpest_not_counted_witness :
  ∃ r, extract_smart_keyframes (sharpening_video (Ret 0%N)) [ten_second_shot] ∅
         50 3 (3 # 10) "medium" = Ret r ∧
       length (result_rejected r) = 2%nat ∧
       rejected_histogram (result_stats r) !! "not_sharpest" = None.
Proof.
  destruct C10_not_sharpest_not_counted as [Hall _].
  eexists. split; [vm_compute; reflexivity|]. split; [reflexivity|].
  eapply (Hall (sharpening_video (Ret 0%N)) [ten_second_shot] ∅ 50 3 (3 # 10) "medium").
  vm_compute. reflexivity.
Defined.

(** ** The two variants (C8) *)

Lemma count_with_get_equiv h1 h2 k :
  hist_equiv h1 h2 → hist_equiv (count_with_get h1 k) (count_with_get h2 k).
Proof.
  intros H k'. unfold count_with_get.
  destruct (decide (k = k')) as [->|Hne].
  - rewrite !lookup_insert_eq. simpl. rewrite (H k'). reflexivity.
  - rewrite !lookup_insert_ne by exact Hne. apply H.
Qed.

Lemma count_with_get_keeps h k k' :
  is_Some (h !! k') → is_Some (count_with_get h k !! k').
Proof.
  intros H. unfold count_with_get.
  destruct (decide (k = k')) as [->|Hne].
  - rewrite lookup_insert_eq. eauto.
  - rewrite lookup_insert_ne by exact Hne. exact H.
Qed.

Lemma count_duplicate_sim h1 h2 :
  hist_equiv h1 h2 → is_Some (h1 !! "duplicate") →
  ∃ h1', supabase_count_duplicate h1 = Ret h1' ∧
         hist_equiv h1' (count_with_get h2 "duplicate") ∧
         is_Some (h1' !! "duplicate").
Proof.
  intros He [n Hn]. unfold supabase_count_duplicate, count_in_place. rewrite Hn.
  eexists. split; [reflexivity|]. split.
  - intros k. unfold count_with_get.
    destruct (decide ("duplicate" = k)) as [<-|Hne].
    + rewrite !lookup_insert_eq. simpl. specialize (He "duplicate").
      rewrite Hn in He. simpl in He. rewrite <- He. reflexivity.
    + rewrite !lookup_insert_ne by exact Hne. apply He.
  - rewrite lookup_insert_eq. eauto.
Qed.

Lemma sample_step_sim v quality_mode scene_idx sc st1 st2 sv sample_time :
  sim st1 st2 →
  sim (fst (sample_step v quality_mode scene_idx sc (st1, sv) sample_time))
      (fst (sample_step v quality_mode scene_idx sc (st2, sv) sample_time)) ∧
  snd (sample_step v quality_mode scene_idx sc (st1, sv) sample_time) =
  snd (sample_step v quality_mode scene_idx sc (st2, sv) sample_time).
Proof.
  destruct st1 as [fs1 sel1 rej1 seen1 h1], st2 as [fs2 sel2 rej2 seen2 h2].
  intros (Hf & Hs & Hr & Hn & He & Hd). simpl in *. subst fs2 sel2 rej2 seen2.
  unfold sample_step. simpl.
  destruct (total_frames_count v <=? _); [simpl; repeat split; auto|].
  destruct (read v _) as [frame|]; [|simpl; repeat split; auto].
  destruct (is_bad_frame _ _ _) as [[] reason]; simpl.
  - repeat split; simpl; auto.
    + apply count_with_get_equiv. exact He.
    + apply count_with_get_keeps. exact Hd.
  - destruct (Qltb (best_sharpness sv) _); simpl; repeat split; auto.
Qed.

Lemma sample_loop_sim v quality_mode scene_idx sc points st1 st2 sv :
  sim st1 st2 →
  sim (fst (fold_left (sample_step v quality_mode scene_idx sc) points (st1, sv)))
      (fst (fold_left (sample_step v quality_mode scene_idx sc) points (st2, sv))) ∧
  snd (fold_left (sample_step v quality_mode scene_idx sc) points (st1, sv)) =
  snd (fold_left (sample_step v quality_mode scene_idx sc) points (st2, sv)).
Proof.
  revert st1 st2 sv. induction points as [|t points IH]; intros st1 st2 sv H;
    cbn [fold_left].
  - auto.
  - destruct (sample_step_sim v quality_mode scene_idx sc st1 st2 sv t H) as [Hsim Hsv].
    destruct (sample_step v quality_mode scene_idx sc (st1, sv) t) as [a1 s1].
    destruct (sample_step v quality_mode scene_idx sc (st2, sv) t) as [a2 s2].
    simpl in *. subst s2. apply IH. exact Hsim.
Qed.

Lemma settle_winner_sim quality_mode sc st1 st2 sv :
  sim st1 st2 →
  outcome_rel (fun r1 r2 => sim (fst r1) (fst r2) ∧ snd r1 = snd r2)
    (settle_winner supabase_count_duplicate quality_mode sc st1 sv)
    (settle_winner Convex.count_duplicate quality_mode sc st2 sv).
Proof.
  destruct st1 as [fs1 sel1 rej1 seen1 h1], st2 as [fs2 sel2 rej2 seen2 h2].
  intros (Hf & Hs & Hr & Hn & He & Hd). simpl in *. subst fs2 sel2 rej2 seen2.
  unfold settle_winner. simpl.
  destruct (best_path sv) as [bp|]; [|simpl; repeat split; auto].
  destruct (Qltb 0 _); [|simpl; repeat split; auto].
  destruct (is_duplicate _ _ _).
  - destruct (count_duplicate_sim h1 h2 He Hd) as (h1' & -> & He' & Hd').
    simpl. repeat split; auto.
  - destruct (os_rename fs1 bp _); simpl; repeat split; auto.
Qed.

Lemma rename_loop_sim l st1 st2 :
  sim st1 st2 → sim (fold_left rename_rejected l st1) (fold_left rename_rejected l st2).
Proof.
  revert st1 st2. induction l as [|rej l IH]; intros st1 st2 H; simpl; [exact H|].
  apply IH.
  destruct st1 as [fs1 sel1 rej1 seen1 h1], st2 as [fs2 sel2 rej2 seen2 h2].
  destruct H as (Hf & Hs & Hr & Hn & He & Hd). simpl in *. subst fs2 sel2 rej2 seen2.
  unfold rename_rejected. simpl.
  destruct (fs1 !! r_path rej); repeat split; auto.
Qed.

Lemma process_scene_sim v max_frames samples_per_scene quality_mode st1 st2 scene_idx sc :
  sim st1 st2 →
  outcome_rel (fun r1 r2 => fst r1 = fst r2 ∧ sim (snd r1) (snd r2))
    (process_scene supabase_count_duplicate v max_frames samples_per_scene quality_mode
       st1 scene_idx sc)
    (process_scene Convex.count_duplicate v max_frames samples_per_scene quality_mode
       st2 scene_idx sc).
Proof.
  intros H. unfold process_scene.
  destruct (int _ <? 3); [simpl; auto|].
  pose proof (sample_loop_sim v quality_mode scene_idx sc
                (sample_points sc samples_per_scene) st1 st2
                {| best_sharpness := 0; best_path := None; rejected_in_scene := [] |} H)
    as [Hsim Hsv].
  destruct (fold_left _ _ (st1, _)) as [a1 s1].
  destruct (fold_left _ _ (st2, _)) as [a2 s2].
  simpl in Hsim, Hsv. subst s2.
  pose proof (settle_winner_sim quality_mode sc a1 a2 s1 Hsim) as Hsettle.
  destruct (settle_winner supabase_count_duplicate _ _ a1 s1) as [[b1 t1]|e1];
    destruct (settle_winner Convex.count_duplicate _ _ a2 s1) as [[b2 t2]|e2];
    simpl in *; try contradiction; [|exact Hsettle].
  destruct Hsettle as [Hb ->].
  pose proof (rename_loop_sim (rejected_in_scene t2) b1 b2 Hb) as Hfinal.
  destruct Hfinal as (Hf & Hs & Hrest).
  rewrite Hs.
  destruct (max_frames <=? _); simpl; repeat split; auto; apply Hrest.
Qed.

Lemma scene_loop_sim v max_frames samples_per_scene quality_mode scenes st1 st2 scene_idx :
  sim st1 st2 →
  outcome_rel sim
    (scene_loop supabase_count_duplicate v max_frames samples_per_scene quality_mode
       st1 scene_idx scenes)
    (scene_loop Convex.count_duplicate v max_frames samples_per_scene quality_mode
       st2 scene_idx scenes).
Proof.
  revert st1 st2 scene_idx. induction scenes as [|sc scenes IH]; intros st1 st2 scene_idx H.
  - exact H.
  - simpl.
    pose proof (process_scene_sim v max_frames samples_per_scene quality_mode
                  st1 st2 scene_idx sc H) as Hbody.
    destruct (process_scene supabase_count_duplicate _ _ _ _ st1 _ _) as [[f1 a1]|e1];
      destruct (process_scene Convex.count_duplicate _ _ _ _ st2 _ _) as [[f2 a2]|e2];
      simpl in *; try contradiction; [|exact Hbody].
    destruct Hbody as [-> Ha]. destruct f2; [apply IH; exact Ha|exact Ha].
Qed.

Lemma initial_sim frames_dir :
  sim (initial_state supabase_histogram frames_dir) (initial_state ∅ frames_dir).
Proof.
  repeat split; simpl; auto.
  intros k. unfold supabase_histogram. rewrite lookup_empty.
  repeat (rewrite lookup_insert; case_decide; [reflexivity|]).
  rewrite lookup_empty. reflexivity.
Qed.

(** C8: on the same video, scene list and parameters the Supabase and the
    Convex copy of [extract_smart_keyframes] either raise the same
    exception or return results with the same selected list, the same
    rejected list (hence the same reason on every frame), the same
    [total_scenes] and [quality_mode], and histograms that give every
    reason the same count (the Supabase copy lists zero counters that the
    Convex copy leaves out). *)
Theorem C8_variants_agree
    (v : video) (scenes : list scene) (frames_dir : directory) (max_frames : Z)
    (samples_per_scene : Z) (min_scene_duration : Q) (quality_mode : string) :
  outcome_rel same_extraction
    (extract_smart_keyframes v scenes frames_dir max_frames samples_per_scene
       min_scene_duration quality_mode)
    (Convex.extract_smart_keyframes v scenes frames_dir max_frames samples_per_scene
       min_scene_duration quality_mode).
Proof.
  unfold extract_smart_keyframes, Convex.extract_smart_keyframes, extract.
  destruct (select_scenes max_frames scenes min_scene_duration) as [l|e]; simpl;
    [|reflexivity].
  pose proof (scene_loop_sim v max_frames samples_per_scene quality_mode l
                _ _ 0%nat (initial_sim frames_dir)) as Hloop.
  destruct (scene_loop supabase_count_duplicate _ _ _ _ _ _ _) as [a1|e1];
    destruct (scene_loop Convex.count_duplicate _ _ _ _ _ _ _) as [a2|e2];
    simpl in *; try contradiction; [|exact Hloop].
  destruct Hloop as (_ & Hs & Hr & _ & He & _).
  repeat split; auto.
Qed.

(** The histograms themselves differ: on a run without any rejection the
    Supabase copy reports a zero counter for "black", the Convex copy no
    counter at all. *)
Example variants_histograms_differ :
  ∃ r1 r2,
    extract_smart_keyframes four_fps_video [half_second_shot] ∅ 50 3 (3 # 10) "medium"
      = Ret r1 ∧
    Convex.extract_smart_keyframes four_fps_video [half_second_shot] ∅ 50 3 (3 # 10) "medium"
      = Ret r2 ∧
    rejected_histogram (result_stats r1) !! "black" = Some 0%nat ∧
    rejected_histogram (result_stats r2) !! "black" = None.
Proof.
  do 2 eexists. split; [vm_compute; reflexivity|]. split; [vm_compute; reflexivity|].
  split; vm_compute; reflexivity.
Qed.

(** * Further properties of the extractor *)

Lemma Qltb_0_pos (a b : Q) : (0 <= a)%Q → Qltb a b = true → (0 < b)%Q.
Proof. rewrite Qltb_lt. intros. eapply Qle_lt_trans; eauto. Qed.

Lemma rejection_ok_bad p reason sc t :
  is_temp p → reason ∈ bad_reasons → entry_ok sc (rejection p reason sc (Some t)).
Proof. intros. unfold entry_ok, rejection; simpl. intuition eauto. Qed.

Lemma rejection_ok_other p reason sc :
  is_temp p → reason = "not_sharpest" ∨ reason = "duplicate" →
  entry_ok sc (rejection p reason sc None).
Proof. intros. unfold entry_ok, rejection; simpl. intuition eauto. Qed.

Lemma sample_step_scan v quality_mode scene_idx sc st0 acc sample_time :
  scan_inv sc st0 acc →
  scan_inv sc st0 (sample_step v quality_mode scene_idx sc acc sample_time).
Proof.
  destruct acc as [st sv]. intros Hinv.
  pose proof Hinv as (Hkeep & Htemp & Hok & Hbest & Hpos).
  unfold sample_step. simpl in Hkeep, Htemp, Hok, Hbest, Hpos.
  destruct (total_frames_count v <=? _); [exact Hinv|].
  destruct (read v _) as [frame|]; [|exact Hinv].
  clear Hinv. unfold scan_inv.
  set (tp := temp_jpg scene_idx (int (sample_time * fps v))).
  assert (Htp : is_temp tp) by exact I.
  assert (Hkeep' : ∀ p, ¬ is_temp p → (cv2_imwrite (files st) tp frame) !! p = files st0 !! p).
  { intros p Hp. rewrite cv2_imwrite_ne; [auto|]. intros <-. auto. }
  destruct (is_bad_frame _ _ _) as [is_bad reason] eqn:Egate.
  destruct is_bad.
  - split; [exact Hkeep'|]. split; [|split; [|split; [|exact Hpos]]]; simpl.
    + intros p Hp Hsome. rewrite map_app, elem_of_app. simpl.
      destruct (decide (tp = p)) as [<-|Hne].
      * right. left. right. apply list_elem_of_here.
      * rewrite cv2_imwrite_ne in Hsome by exact Hne.
        destruct (Htemp p Hp Hsome) as [H|[H|H]]; auto.
    + apply Forall_app. split; [exact Hok|]. constructor; [|constructor].
      apply rejection_ok_bad; [exact Htp|]. eapply is_bad_frame_reasons; eauto.
    + intros bp Hbp. apply Hbest; auto.
  - destruct (Qltb (best_sharpness sv) _) eqn:Esharp.
    + split; [exact Hkeep'|]. split; [|split; [|split]]; simpl.
      * intros p Hp Hsome.
        destruct (decide (tp = p)) as [<-|Hne]; [right; right; reflexivity|].
        rewrite cv2_imwrite_ne in Hsome by exact Hne.
        destruct (Htemp p Hp Hsome) as [H|[H|H]]; [auto| |].
        -- right. left. destruct (best_path sv) as [bp|]; [|exact H].
           destruct (decide _); [|exact H]. simpl.
           rewrite map_app, elem_of_app. auto.
        -- right. left. rewrite H.
           destruct (decide _) as [_|Hno]; simpl.
           ++ rewrite map_app, elem_of_app. right. apply list_elem_of_here.
           ++ exfalso. apply Hno. rewrite cv2_imwrite_ne by exact Hne. exact Hsome.
      * destruct (best_path sv) as [bp|]; [|exact Hok].
        destruct (decide _); [|exact Hok]. simpl.
        apply Forall_app. split; [exact Hok|]. constructor; [|constructor].
        apply rejection_ok_other; [|auto]. apply (Hbest bp eq_refl).
      * intros bp Hbp. inversion Hbp. subst bp. split; [exact Htp|].
        eapply Qltb_0_pos; eauto.
      * apply Qlt_le_weak. eapply Qltb_0_pos; eauto.
    + split; [exact Hkeep'|]. split; [|split; [|split; [|exact Hpos]]]; simpl.
      * intros p Hp Hsome. rewrite map_app, elem_of_app. simpl.
        destruct (decide (tp = p)) as [<-|Hne].
        -- right. left. right. apply list_elem_of_here.
        -- rewrite cv2_imwrite_ne in Hsome by exact Hne.
           destruct (Htemp p Hp Hsome) as [H|[H|H]]; auto.
      * apply Forall_app. split; [exact Hok|]. constructor; [|constructor].
        apply rejection_ok_other; auto.
      * intros bp Hbp. apply Hbest; auto.
Qed.

Lemma sample_loop_scan v quality_mode scene_idx sc st0 points acc :
  scan_inv sc st0 acc →
  scan_inv sc st0 (fold_left (sample_step v quality_mode scene_idx sc) points acc).
Proof.
  revert acc. induction points as [|t points IH]; intros acc H; cbn [fold_left]; [exact H|].
  apply IH. apply sample_step_scan. exact H.
Qed.

Lemma scan_inv_initial sc st :
  scan_inv sc st (st, {| best_sharpness := 0; best_path := None; rejected_in_scene := [] |}).
Proof.
  unfold scan_inv. split_and!; simpl; auto; discriminate.
Qed.

Lemma compute_phash_lookup fs p :
  compute_phash fs p = fs !! p ≫= file_phash.
Proof. unfold compute_phash, file_phash. destruct (fs !! p); reflexivity. Qed.

(** The three ways the duplicate check on the winner can end. *)
Lemma settle_winner_cases count_duplicate quality_mode sc st sv st' sv' :
  settle_winner count_duplicate quality_mode sc st sv = Ret (st', sv') →
  (st' = st ∧ sv' = sv ∧
   (best_path sv = None ∨ Qltb 0 (best_sharpness sv) = false)) ∨
  (∃ bp h, best_path sv = Some bp ∧
     st' = with_stats st h ∧
     sv' = reject_in_scene sv (rejection bp "duplicate" sc None)) ∨
  (∃ bp content, best_path sv = Some bp ∧
     Qltb 0 (best_sharpness sv) = true ∧
     files st !! bp = Some content ∧
     is_duplicate (file_phash content) (seen_hashes st)
       (phash_threshold (get_preset quality_mode)) = false ∧
     sv' = sv ∧
     st' = {| files := <[selected_jpg (length (selected_frames st)) := content]>
                         (delete bp (files st));
              selected_frames := selected_frames st ++
                [winner_entry (length (selected_frames st)) sc (best_sharpness sv)];
              rejected_frames := rejected_frames st;
              seen_hashes := seen_hashes st ++ [file_phash content];
              stats_rejected := stats_rejected st |}).
Proof.
  unfold settle_winner. intros H.
  destruct (best_path sv) as [bp|] eqn:Ebp; [|inversion H; auto].
  destruct (Qltb 0 _) eqn:Epos; [|inversion H; auto].
  destruct (is_duplicate _ _ _) eqn:Edup.
  - destruct (count_duplicate _) as [h|]; simpl in H; [|discriminate].
    inversion H. right. left. eauto.
  - unfold os_rename in H. destruct (files st !! bp) as [content|] eqn:Efile;
      simpl in H; [|discriminate].
    inversion H. right. right. exists bp, content.
    rewrite compute_phash_lookup, Efile in Edup. simpl in Edup.
    rewrite compute_phash_lookup, Efile. simpl. auto 10.
Qed.

Lemma rename_loop_spec l s :
  Forall (fun r => is_temp (r_path r)) l →
  ∃ added,
    rejected_frames (fold_left rename_rejected l s) = rejected_frames s ++ added ∧
    renamed_from (length (rejected_frames s)) l added ∧
    (∀ k, files (fold_left rename_rejected l s) !! selected_jpg k = files s !! selected_jpg k) ∧
    (∀ k, (k < length (rejected_frames s))%nat →
       files (fold_left rename_rejected l s) !! rejected_jpg k = files s !! rejected_jpg k) ∧
    (∀ k, (length (rejected_frames s) ≤ k < length (rejected_frames s) + length added)%nat →
       is_Some (files (fold_left rename_rejected l s) !! rejected_jpg k)) ∧
    (∀ p, is_temp p → is_Some (files (fold_left rename_rejected l s) !! p) →
       is_Some (files s !! p) ∧ p ∉ map r_path l).
Proof.
  revert s. induction l as [|r l IH]; intros s Hl; cbn [fold_left].
  - exists []. rewrite app_nil_r. split_and!; auto.
    + intros k r Hk. rewrite lookup_nil in Hk. discriminate.
    + intros k Hk. simpl in Hk. lia.
    + intros p _ Hp. split; [exact Hp|]. simpl. apply not_elem_of_nil.
  - inversion Hl as [|? ? Hr Hl']. subst.
    destruct (IH (rename_rejected s r) Hl') as (added & Hrej & Hren & Hsel & Hold & Hnew & Htemp).
    unfold rename_rejected in *.
    destruct (files s !! r_path r) as [content|] eqn:Efile.
    + simpl in *. exists (renamed (length (rejected_frames s)) r :: added).
      split_and!.
      * rewrite Hrej, <- app_assoc. reflexivity.
      * intros k x Hk. destruct k as [|k]; simpl in Hk.
        -- inversion Hk. exists r. split; [apply list_elem_of_here|].
           f_equal. lia.
        -- destruct (Hren k x Hk) as (r0 & Hin & ->). exists r0.
           split; [apply list_elem_of_further; exact Hin|].
           rewrite length_app. simpl. f_equal. lia.
      * intros k. rewrite Hsel. rewrite lookup_insert_ne by discriminate.
        rewrite lookup_delete_ne; [reflexivity|].
        intros E. rewrite E in Hr. exact Hr.
      * intros k Hk. rewrite Hold by (rewrite length_app; simpl; lia).
        rewrite lookup_insert_ne by (intros E; inversion E; lia).
        rewrite lookup_delete_ne; [reflexivity|].
        intros E. rewrite E in Hr. exact Hr.
      * intros k Hk. simpl in Hk.
        destruct (decide (k = length (rejected_frames s))) as [->|Hne].
        -- rewrite Hold by (rewrite length_app; simpl; lia).
           rewrite lookup_insert_eq. eauto.
        -- apply Hnew. rewrite length_app. simpl. lia.
      * intros p Hp Hsome. destruct (Htemp p Hp Hsome) as [Hs1 Hnot].
        rewrite lookup_insert_ne in Hs1 by (intros <-; exact Hp).
        destruct (decide (r_path r = p)) as [E|Hne].
        -- rewrite E, lookup_delete_eq in Hs1. destruct Hs1 as [? ?]. discriminate.
        -- rewrite lookup_delete_ne in Hs1 by exact Hne. split; [exact Hs1|].
           simpl. rewrite not_elem_of_cons. auto.
    + exists added. split_and!; auto.
      * intros k x Hk. destruct (Hren k x Hk) as (r0 & Hin & ->). exists r0.
        split; [apply list_elem_of_further; exact Hin|reflexivity].
      * intros p Hp Hsome. destruct (Htemp p Hp Hsome) as [Hs1 Hnot].
        split; [exact Hs1|]. simpl. rewrite not_elem_of_cons. split; [|exact Hnot].
        intros ->. rewrite Efile in Hs1. destruct Hs1 as [? ?]. discriminate.
Qed.

Lemma entry_ok_temp sc l :
  Forall (entry_ok sc) l → Forall (fun r => is_temp (r_path r)) l.
Proof. intros H. eapply Forall_impl; [exact H|]. intros r Hr. apply Hr. Qed.

Lemma scene_effect_skip threshold sc st : scene_effect threshold sc st st.
Proof.
  split; [|split; [auto|left; auto]].
  exists [], []. rewrite app_nil_r. split_and!; auto.
  - intros k r Hk. rewrite lookup_nil in Hk. discriminate.
  - intros k Hk. lia.
Qed.

Lemma process_scene_effect count_duplicate v max_frames samples_per_scene quality_mode
    st scene_idx sc fl st' :
  process_scene count_duplicate v max_frames samples_per_scene quality_mode
    st scene_idx sc = Ret (fl, st') →
  scene_effect (phash_threshold (get_preset quality_mode)) sc st st'.
Proof.
  unfold process_scene. intros H.
  destruct (int _ <? 3); [inversion H; apply scene_effect_skip|].
  pose proof (sample_loop_inv v quality_mode scene_idx sc (fun _ => True)
                (fun _ _ _ _ => I) st (sample_points sc samples_per_scene)
                (st, {| best_sharpness := 0; best_path := None; rejected_in_scene := [] |}))
    as Hinv.
  pose proof (sample_loop_scan v quality_mode scene_idx sc st
                (sample_points sc samples_per_scene) _ (scan_inv_initial sc st)) as Hscan.
  destruct (fold_left _ _ _) as [st1 sv1].
  destruct Hinv as (Hsel1 & Hrej1 & Hseen1 & _ & _).
  { unfold sample_inv. split_and!; simpl; auto. discriminate. }
  destruct Hscan as (Hkeep & Htemp & Hok & Hbest & _). simpl in *.
  destruct (settle_winner _ _ _ _ _) as [[st2 sv2]|] eqn:Esettle; simpl in H; [|discriminate].
  assert (Hfinal : st' = fold_left rename_rejected (rejected_in_scene sv2) st2).
  { destruct (max_frames <=? _); inversion H; reflexivity. }
  clear H. subst st'.
  destruct (rename_loop_fields (rejected_in_scene sv2) st2) as (Hs & Hn & _).
  apply settle_winner_cases in Esettle.
  destruct Esettle as [(-> & -> & Hnone)|[(bp & h & Ebp & -> & ->)|
    (bp & content & Ebp & Epos & Efile & Edup & -> & ->)]].
  - (* no winner *)
    destruct (rename_loop_spec (rejected_in_scene sv1) st1 (entry_ok_temp sc _ Hok))
      as (added & Hrej & Hren & Hfsel & Hfold & Hfnew & Hftemp).
    split; [|split].
    + rewrite Hrej1 in Hrej, Hren, Hfold, Hfnew.
      exists added, (rejected_in_scene sv1). rewrite Hrej.
      split; [reflexivity|]. split; [exact Hok|]. split; [exact Hren|]. split.
      * intros k Hk. rewrite Hfold by exact Hk. apply Hkeep. auto.
      * intros k Hk. apply Hfnew. rewrite length_app in Hk. exact Hk.
    + intros Hclean p Hp. apply eq_None_not_Some. intros Hsome.
      destruct (Hftemp p Hp Hsome) as [Hs1 Hnot].
      destruct (Htemp p Hp Hs1) as [Hc|[Hc|Hc]].
      * rewrite (Hclean p Hp) in Hc. destruct Hc as [? ?]. discriminate.
      * contradiction.
      * destruct Hnone as [Hnone|Hnone]; [congruence|].
        destruct (Hbest p Hc) as [_ Hlt]. apply Qltb_lt in Hlt. congruence.
    + left. rewrite Hs, Hn. split_and!; auto.
      intros k. rewrite Hfsel. apply Hkeep. auto.
  - (* the winner is a duplicate *)
    assert (Hok2 : Forall (entry_ok sc)
              (rejected_in_scene (reject_in_scene sv1 (rejection bp "duplicate" sc None)))).
    { simpl. apply Forall_app. split; [exact Hok|]. constructor; [|constructor].
      apply rejection_ok_other; [|auto]. apply (Hbest bp Ebp). }
    destruct (rename_loop_spec _ (with_stats st1 h) (entry_ok_temp sc _ Hok2))
      as (added & Hrej & Hren & Hfsel & Hfold & Hfnew & Hftemp).
    simpl in *. split; [|split].
    + rewrite Hrej1 in Hrej, Hren, Hfold, Hfnew.
      exists added, (rejected_in_scene sv1 ++ [rejection bp "duplicate" sc None]).
      rewrite Hrej.
      split; [reflexivity|]. split; [exact Hok2|]. split; [exact Hren|]. split.
      * intros k Hk. rewrite Hfold by exact Hk. apply Hkeep. auto.
      * intros k Hk. apply Hfnew. rewrite length_app in Hk. exact Hk.
    + intros Hclean p Hp. apply eq_None_not_Some. intros Hsome.
      destruct (Hftemp p Hp Hsome) as [Hs1 Hnot].
      rewrite map_app, not_elem_of_app in Hnot. destruct Hnot as [Hnot1 Hnot2].
      destruct (Htemp p Hp Hs1) as [Hc|[Hc|Hc]].
      * rewrite (Hclean p Hp) in Hc. destruct Hc as [? ?]. discriminate.
      * contradiction.
      * apply Hnot2. simpl. rewrite Ebp in Hc. inversion Hc. apply list_elem_of_here.
    + left. rewrite Hs, Hn. simpl. split_and!; auto.
      intros k. rewrite Hfsel. apply Hkeep. auto.
  - (* the winner is selected *)
    destruct (Hbest bp Ebp) as [Hbptemp Hbppos].
    match type of Hs with
    | selected_frames (fold_left _ _ ?s) = _ => remember s as st2 eqn:Est2
    end.
    assert (Hf2 : files st2 = <[selected_jpg (length (selected_frames st)) := content]>
                                (delete bp (files st1))).
    { rewrite Est2. simpl. rewrite Hsel1. reflexivity. }
    assert (Hs2 : selected_frames st2 = selected_frames st ++
              [winner_entry (length (selected_frames st)) sc (best_sharpness sv1)]).
    { rewrite Est2. simpl. rewrite Hsel1. reflexivity. }
    assert (Hr2 : rejected_frames st2 = rejected_frames st).
    { rewrite Est2. simpl. exact Hrej1. }
    assert (Hn2 : seen_hashes st2 = seen_hashes st ++ [file_phash content]).
    { rewrite Est2. simpl. rewrite Hseen1. reflexivity. }
    clear Est2.
    destruct (rename_loop_spec (rejected_in_scene sv1) st2 (entry_ok_temp sc _ Hok))
      as (added & Hrej & Hren & Hfsel & Hfold & Hfnew & Hftemp).
    rewrite Hr2 in Hrej, Hren, Hfold, Hfnew.
    split; [|split].
    + exists added, (rejected_in_scene sv1). rewrite Hrej.
      split; [reflexivity|]. split; [exact Hok|]. split; [exact Hren|]. split.
      * intros k Hk. rewrite Hfold by exact Hk. rewrite Hf2.
        rewrite lookup_insert_ne by discriminate.
        rewrite lookup_delete_ne by (intros ->; exact Hbptemp). apply Hkeep. auto.
      * intros k Hk. apply Hfnew. rewrite length_app in Hk. exact Hk.
    + intros Hclean p Hp. apply eq_None_not_Some. intros Hsome.
      destruct (Hftemp p Hp Hsome) as [Hs1 Hnot]. rewrite Hf2 in Hs1.
      rewrite lookup_insert_ne in Hs1 by (intros <-; exact Hp).
      destruct (decide (bp = p)) as [<-|Hne].
      { rewrite lookup_delete_eq in Hs1. destruct Hs1 as [? ?]. discriminate. }
      rewrite lookup_delete_ne in Hs1 by exact Hne.
      destruct (Htemp p Hp Hs1) as [Hc|[Hc|Hc]].
      * rewrite (Hclean p Hp) in Hc. destruct Hc as [? ?]. discriminate.
      * contradiction.
      * congruence.
    + right. exists (best_sharpness sv1), content. rewrite Hs, Hn, Hs2, Hn2.
      rewrite Hseen1 in Edup.
      split; [exact Hbppos|]. split; [reflexivity|]. split; [reflexivity|].
      split; [exact Edup|]. split.
      * rewrite Hfsel, Hf2. apply lookup_insert_eq.
      * intros k Hk. rewrite Hfsel, Hf2.
        rewrite lookup_insert_ne by (intros E; inversion E; lia).
        rewrite lookup_delete_ne by (intros ->; exact Hbptemp). apply Hkeep. auto.
Qed.

(** ** The duplicate test, characterised *)

Lemma is_duplicate_scan_true c seen t :
  is_duplicate_scan c seen t = true ↔ ∃ h, Some h ∈ seen ∧ hash_sub c h < t.
Proof.
  induction seen as [|[h|] seen IH]; simpl.
  - split; [discriminate|]. intros (h & Hin & _). inversion Hin.
  - destruct (hash_sub c h <? t) eqn:E.
    + split; [|auto]. intros _. exists h. split; [apply list_elem_of_here|].
      apply Z.ltb_lt. exact E.
    + rewrite IH. split.
      * intros (h' & Hin & Hlt). exists h'. split; [apply list_elem_of_further|]; auto.
      * intros (h' & Hin & Hlt). apply elem_of_cons in Hin as [Heq|Hin].
        -- inversion Heq. subst h'. apply Z.ltb_ge in E. lia.
        -- eauto.
  - rewrite IH. split.
    + intros (h' & Hin & Hlt). exists h'. split; [apply list_elem_of_further|]; auto.
    + intros (h' & Hin & Hlt). apply elem_of_cons in Hin as [Heq|Hin]; [discriminate|eauto].
Qed.

Lemma is_duplicate_false h seen t :
  is_duplicate h seen t = false →
  ∀ c h', h = Some c → Some h' ∈ seen → t ≤ hash_sub c h'.
Proof.
  intros H c h' -> Hin. simpl in H.
  destruct (Z_lt_le_dec (hash_sub c h') t) as [Hlt|Hle]; [|exact Hle].
  assert (is_duplicate_scan c seen t = true) by (apply is_duplicate_scan_true; eauto).
  congruence.
Qed.

Lemma spread_app threshold seen h :
  spread threshold seen →
  is_duplicate h seen threshold = false →
  spread threshold (seen ++ [h]).
Proof.
  intros Hspread Hdup i j hi hj Hij Hi Hj.
  assert (Hjlen : (j < length (seen ++ [h]))%nat) by (eapply lookup_lt_Some; eauto).
  rewrite length_app in Hjlen. simpl in Hjlen.
  rewrite lookup_app_l in Hi by lia.
  destruct (decide (j = length seen)) as [->|Hne].
  - rewrite list_lookup_middle in Hj by reflexivity. inversion Hj. subst h.
    apply (is_duplicate_false (Some hj) seen threshold Hdup hj hi eq_refl).
    apply list_elem_of_lookup. eauto.
  - rewrite lookup_app_l in Hj by lia. exact (Hspread i j hi hj Hij Hi Hj).
Qed.

(** ** What a run keeps between scenes *)

Lemma renamed_from_lookup n l added k r :
  renamed_from n l added → added !! k = Some r →
  ∃ r0, r0 ∈ l ∧ r = renamed (n + k) r0.
Proof. intros H. apply H. Qed.

Lemma scene_effect_tidy threshold sc st st' :
  tidy threshold st → scene_effect threshold sc st st' → tidy threshold st'.
Proof.
  intros (Hsel & Hrej & Hlen & Hspread & Halign & Hfiles)
         ((added & l & Erej & Hok & Hren & Hold & Hnew) & _ & Hwin).
  assert (Hrej' : ∀ k r, rejected_frames st' !! k = Some r →
     r_path r = rejected_jpg k ∧ r_selected r = Some false ∧
     ((r_reason r ∈ bad_reasons ∧ is_Some (r_timestamp r)) ∨
      ((r_reason r = "not_sharpest" ∨ r_reason r = "duplicate") ∧ r_timestamp r = None))).
  { intros k r Hk. rewrite Erej in Hk.
    apply lookup_app_Some in Hk as [Hk|[Hge Hk]]; [apply Hrej; exact Hk|].
    destruct (Hren _ _ Hk) as (r0 & Hin & ->).
    rewrite Forall_forall in Hok. destruct (Hok r0 Hin) as (_ & _ & _ & _ & Hreason).
    simpl. split; [f_equal; lia|]. split; [reflexivity|exact Hreason]. }
  assert (Hfiles' : ∀ k, (k < length (rejected_frames st'))%nat →
            is_Some (files st' !! rejected_jpg k)).
  { intros k Hk. destruct (decide (k < length (rejected_frames st))%nat) as [Hlt|Hge].
    - rewrite Hold by exact Hlt. apply Hfiles. exact Hlt.
    - apply Hnew. lia. }
  destruct Hwin as [(Es & En & Hf)|(sharp & content & Hpos & Es & En & Hdup & Hnewf & Hf)].
  - unfold tidy. rewrite Es, En. split_and!; auto.
    intros k h Hk. rewrite Hf. apply Halign. exact Hk.
  - unfold tidy. rewrite Es, En. split_and!; auto.
    + intros k f Hk. apply lookup_app_Some in Hk as [Hk|[Hge Hk]]; [apply Hsel; exact Hk|].
      destruct (k - length (selected_frames st))%nat as [|n] eqn:E; simpl in Hk; [|
        rewrite lookup_nil in Hk; discriminate].
      inversion Hk. simpl. split; [f_equal; lia|]. split; [reflexivity|exact Hpos].
    + rewrite !length_app. simpl. lia.
    + apply spread_app; assumption.
    + intros k h Hk. apply lookup_app_Some in Hk as [Hk|[Hge Hk]].
      * rewrite Hf; [apply Halign; exact Hk|].
        apply lookup_lt_Some in Hk. lia.
      * destruct (k - length (seen_hashes st))%nat as [|n] eqn:E; simpl in Hk; [|
          rewrite lookup_nil in Hk; discriminate].
        inversion Hk. assert (k = length (selected_frames st)) as -> by lia.
        exists content. auto.
Qed.

Lemma scene_loop_tidy count_duplicate v max_frames samples_per_scene quality_mode
    scenes st scene_idx st' :
  tidy (phash_threshold (get_preset quality_mode)) st →
  scene_loop count_duplicate v max_frames samples_per_scene quality_mode
    st scene_idx scenes = Ret st' →
  tidy (phash_threshold (get_preset quality_mode)) st' ∧
  ((∀ p, is_temp p → files st !! p = None) → ∀ p, is_temp p → files st' !! p = None).
Proof.
  revert st scene_idx. induction scenes as [|sc scenes IH]; intros st scene_idx Htidy Hrun;
    simpl in Hrun.
  - inversion Hrun. subst. auto.
  - destruct (process_scene _ _ _ _ _ st scene_idx sc) as [[fl st1]|] eqn:E;
      simpl in Hrun; [|discriminate].
    pose proof (process_scene_effect _ _ _ _ _ _ _ _ _ _ E) as Heff.
    pose proof (scene_effect_tidy _ _ _ _ Htidy Heff) as Htidy1.
    destruct Heff as (_ & Hclean & _).
    destruct fl.
    + destruct (IH st1 (S scene_idx) Htidy1 Hrun) as [Hfin Hclean']. auto.
    + inversion Hrun. subst. auto.
Qed.

Lemma initial_tidy threshold h frames_dir :
  tidy threshold (initial_state h frames_dir).
Proof.
  unfold tidy. simpl. split_and!; auto.
  - intros k f Hk. rewrite lookup_nil in Hk. discriminate.
  - intros k r Hk. rewrite lookup_nil in Hk. discriminate.
  - intros i j hi hj _ Hi. rewrite lookup_nil in Hi. discriminate.
  - intros k h' Hk. rewrite lookup_nil in Hk. discriminate.
  - intros k Hk. lia.
Qed.

Lemma scene_of_winner n sc sharp : scene_of (winner_entry n sc sharp) = sc.
Proof. destruct sc. reflexivity. Qed.

Lemma scene_loop_shots count_duplicate v max_frames samples_per_scene quality_mode
    scenes st scene_idx st' :
  scene_loop count_duplicate v max_frames samples_per_scene quality_mode
    st scene_idx scenes = Ret st' →
  ∃ sel rej,
    selected_frames st' = selected_frames st ++ sel ∧
    map scene_of sel `sublist_of` scenes ∧
    rejected_frames st' = rejected_frames st ++ rej ∧
    Forall (from_scenes scenes) rej.
Proof.
  revert st scene_idx. induction scenes as [|sc scenes IH]; intros st scene_idx Hrun;
    simpl in Hrun.
  - inversion Hrun. subst. exists [], []. rewrite !app_nil_r. auto.
  - destruct (process_scene _ _ _ _ _ st scene_idx sc) as [[fl st1]|] eqn:E;
      simpl in Hrun; [|discriminate].
    pose proof (process_scene_effect _ _ _ _ _ _ _ _ _ _ E)
      as ((added & l & Erej & Hok & Hren & _) & _ & Hwin).
    assert (Hadded : Forall (from_scenes (sc :: scenes)) added).
    { apply Forall_lookup. intros k r Hk. destruct (Hren _ _ Hk) as (r0 & Hin & ->).
      rewrite Forall_forall in Hok. destruct (Hok r0 Hin) as (_ & _ & Hs & He & _).
      exists sc. split; [apply list_elem_of_here|]. auto. }
    assert (Hrest : ∃ sel rej,
      selected_frames st' = selected_frames st1 ++ sel ∧
      map scene_of sel `sublist_of` scenes ∧
      rejected_frames st' = rejected_frames st1 ++ rej ∧
      Forall (from_scenes (sc :: scenes)) rej).
    { destruct fl.
      - destruct (IH st1 (S scene_idx) Hrun) as (sel & rej & Es & Hsub & Er & Hfrom).
        exists sel, rej. split; [exact Es|]. split; [exact Hsub|]. split; [exact Er|].
        eapply Forall_impl; [exact Hfrom|]. intros r (s0 & Hin & Hb).
        exists s0. split; [apply list_elem_of_further; exact Hin|exact Hb].
      - inversion Hrun. subst. exists [], []. rewrite !app_nil_r.
        split; [reflexivity|]. split; [apply sublist_nil_l|]. split; [reflexivity|].
        constructor. }
    destruct Hrest as (sel & rej & Es & Hsub & Er & Hfrom).
    destruct Hwin as [(Es1 & _)|(sharp & content & _ & Es1 & _)].
    + exists sel, (added ++ rej).
      split; [rewrite Es, Es1; reflexivity|].
      split; [apply sublist_cons; exact Hsub|].
      split; [rewrite Er, Erej, app_assoc; reflexivity|].
      apply Forall_app. auto.
    + exists (winner_entry (length (selected_frames st)) sc sharp :: sel), (added ++ rej).
      split; [rewrite Es, Es1, <- app_assoc; reflexivity|].
      split; [simpl; rewrite scene_of_winner; apply sublist_skip; exact Hsub|].
      split; [rewrite Er, Erej, app_assoc; reflexivity|].
      apply Forall_app. auto.
Qed.

(** ** The scenes that are visited *)

Lemma every_nth_sublist {A} (skip step : nat) (l : list A) :
  every_nth skip step l `sublist_of` l.
Proof.
  revert skip. induction l as [|x l IH]; intros skip; simpl; [constructor|].
  destruct skip; [apply sublist_skip|apply sublist_cons]; apply IH.
Qed.

Lemma every_nth_length {A} (skip step : nat) (l : list A) :
  (skip < step)%nat →
  (step * length (every_nth skip step l) + skip + 1 ≤ length l + step)%nat.
Proof.
  revert skip. induction l as [|x l IH]; intros skip Hskip; simpl; [lia|].
  destruct skip as [|k]; simpl.
  - specialize (IH (step - 1)%nat ltac:(lia)). nia.
  - specialize (IH k ltac:(lia)). lia.
Qed.

Lemma select_scenes_spec max_frames scenes min_scene_duration :
  1 ≤ max_frames →
  ∃ visited,
    select_scenes max_frames scenes min_scene_duration = Ret visited ∧
    visited `sublist_of` scenes ∧
    Forall (fun s => (min_scene_duration <= end_ s - start s)%Q) visited ∧
    Z.of_nat (length visited) ≤ 2 * max_frames.
Proof.
  intros Hmax. unfold select_scenes.
  set (valid := filter _ scenes).
  assert (Hsub : valid `sublist_of` scenes) by apply sublist_filter.
  assert (Hdur : Forall (fun s => (min_scene_duration <= end_ s - start s)%Q) valid).
  { apply Forall_forall. intros s Hs. apply list_elem_of_filter in Hs as [Hs _].
    apply Z.leb_le in Hs. exact Hs. }
  destruct (max_frames * 2 <? _) eqn:E.
  - apply Z.ltb_lt in E. unfold floordiv.
    destruct (max_frames =? 0) eqn:E0; [apply Z.eqb_eq in E0; lia|]. simpl.
    unfold slice_step.
    set (n := Z.of_nat (length valid)) in *.
    assert (Hstep : 2 ≤ n / max_frames) by (apply Z.div_le_lower_bound; lia).
    destruct (n / max_frames =? 0) eqn:E1; [apply Z.eqb_eq in E1; lia|].
    destruct (0 <? n / max_frames) eqn:E2; [|apply Z.ltb_ge in E2; lia].
    eexists. split; [reflexivity|]. split; [|split].
    + etransitivity; [apply every_nth_sublist|exact Hsub].
    + pose proof (every_nth_sublist 0 (Z.to_nat (n / max_frames)) valid) as Hs.
      apply Forall_forall. intros s Hin. rewrite Forall_forall in Hdur.
      apply Hdur. eapply elem_of_sublist; eauto.
    + pose proof (every_nth_length 0 (Z.to_nat (n / max_frames)) valid ltac:(lia)) as Hlen.
      assert (Hbound : n < max_frames * (n / max_frames) + max_frames).
      { pose proof (Z.div_mod n max_frames ltac:(lia)).
        pose proof (Z.mod_pos_bound n max_frames ltac:(lia)). lia. }
      set (q := n / max_frames) in *.
      set (L := length (every_nth 0 (Z.to_nat q) valid)) in *.
      assert (q * Z.of_nat L + 1 ≤ n + q) by (subst n; nia).
      nia.
  - apply Z.ltb_ge in E. exists valid. split; [reflexivity|]. split; [exact Hsub|].
    split; [exact Hdur|lia].
Qed.

Lemma extract_inv initial_histogram count_duplicate v max_frames samples_per_scene
    quality_mode scenes frames_dir min_scene_duration r :
  extract initial_histogram count_duplicate v max_frames samples_per_scene quality_mode
    scenes frames_dir min_scene_duration = Ret r →
  ∃ visited st,
    select_scenes max_frames scenes min_scene_duration = Ret visited ∧
    scene_loop count_duplicate v max_frames samples_per_scene quality_mode
      (initial_state initial_histogram frames_dir) 0 visited = Ret st ∧
    result_selected r = selected_frames st ∧
    result_rejected r = rejected_frames st ∧
    total_scenes (result_stats r) = length visited ∧
    rejected_histogram (result_stats r) = stats_rejected st ∧
    result_quality_mode r = quality_mode.
Proof.
  unfold extract. intros H.
  destruct (select_scenes _ _ _) as [visited|] eqn:Ev; simpl in H; [|discriminate].
  destruct (scene_loop _ _ _ _ _ _ _ _) as [st|] eqn:Es; simpl in H; [|discriminate].
  inversion H. subst r. simpl. exists visited, st. split_and!; auto.
Qed.

(** ** What a result of the extraction looks like *)

Lemma extract_tidy initial_histogram count_duplicate v max_frames samples_per_scene
    quality_mode scenes frames_dir min_scene_duration r :
  extract initial_histogram count_duplicate v max_frames samples_per_scene quality_mode
    scenes frames_dir min_scene_duration = Ret r →
  ∃ visited st,
    select_scenes max_frames scenes min_scene_duration = Ret visited ∧
    scene_loop count_duplicate v max_frames samples_per_scene quality_mode
      (initial_state initial_histogram frames_dir) 0 visited = Ret st ∧
    result_selected r = selected_frames st ∧
    result_rejected r = rejected_frames st ∧
    total_scenes (result_stats r) = length visited ∧
    tidy (phash_threshold (get_preset quality_mode)) st.
Proof.
  intros H. apply extract_inv in H as (visited & st & Ev & Es & Hs & Hr & Ht & _).
  exists visited, st. split_and!; auto.
  eapply scene_loop_tidy; [|exact Es]. apply initial_tidy.
Qed.

(** X1: in a result of either copy of the extractor, the k-th selected
    frame is the file [selected_{k:04d}.jpg], is flagged as selected and has
    a sharpness above zero. *)
Theorem X1_selected_entries
    (initial_histogram : gmap string nat)
    (count_duplicate : gmap string nat → outcome (gmap string nat))
    (v : video) (max_frames samples_per_scene : Z) (quality_mode : string)
    (scenes : list scene) (frames_dir : directory) (min_scene_duration : Q)
    (r : extraction) :
  extract initial_histogram count_duplicate v max_frames samples_per_scene quality_mode
    scenes frames_dir min_scene_duration = Ret r →
  ∀ k f, result_selected r !! k = Some f →
    path_of f = selected_jpg k ∧ selected f = true ∧ (0 < sharpness f)%Q.
Proof.
  intros H. apply extract_tidy in H as (visited & st & _ & _ & -> & _ & _ & Htidy).
  apply Htidy.
Qed.

Lemma X1_selected_entries_witness :
  ∃ r, extract_smart_keyframes (two_shot_video 511) two_shots ∅ 50 3 (3 # 10) "medium" = Ret r ∧
       length (result_selected r) = 2%nat ∧
       ∀ k f, result_selected r !! k = Some f →
         path_of f = selected_jpg k ∧ selected f = true ∧ (0 < sharpness f)%Q.
Proof.
  eexists. split; [vm_compute; reflexivity|]. split; [reflexivity|].
  apply (X1_selected_entries supabase_histogram supabase_count_duplicate
           (two_shot_video 511) 50 3 "medium" two_shots ∅ (3 # 10)).
  vm_compute. reflexivity.
Defined.

(** X2: for a cap of at least one, the shots of the selected frames, taken
    in order, form a subsequence of the scene list given to the extractor:
    at most one frame is selected per shot, in shot order, only from shots
    of at least [min_scene_duration], never more frames than scenes were
    visited, and no shot twice when the given scenes are distinct. *)
Theorem X2_one_winner_per_shot
    (initial_histogram : gmap string nat)
    (count_duplicate : gmap string nat → outcome (gmap string nat))
    (v : video) (max_frames samples_per_scene : Z) (quality_mode : string)
    (scenes : list scene) (frames_dir : directory) (min_scene_duration : Q)
    (r : extraction) :
  1 ≤ max_frames →
  extract initial_histogram count_duplicate v max_frames samples_per_scene quality_mode
    scenes frames_dir min_scene_duration = Ret r →
  map scene_of (result_selected r) `sublist_of` scenes ∧
  Forall (fun f => (min_scene_duration <= scene_end f - scene_start f)%Q)
    (result_selected r) ∧
  (length (result_selected r) ≤ total_scenes (result_stats r))%nat ∧
  (NoDup scenes → NoDup (map scene_of (result_selected r))).
Proof.
  intros Hmax H.
  apply extract_inv in H as (visited & st & Ev & Es & -> & _ & -> & _).
  destruct (select_scenes_spec max_frames scenes min_scene_duration Hmax)
    as (visited' & Ev' & Hsub & Hdur & _).
  rewrite Ev in Ev'. inversion Ev'. subst visited'.
  apply scene_loop_shots in Es as (sel & rej & Esel & Hsel & _).
  simpl in Esel. rewrite Esel.
  assert (Hall : map scene_of sel `sublist_of` scenes) by (etransitivity; eauto).
  split_and!.
  - exact Hall.
  - apply Forall_forall. intros f Hf.
    assert (Hin : scene_of f ∈ visited).
    { eapply elem_of_sublist; [|exact Hsel]. apply list_elem_of_fmap. eauto. }
    rewrite Forall_forall in Hdur. apply (Hdur _ Hin).
  - apply sublist_length in Hsel. rewrite length_map in Hsel. exact Hsel.
  - intros Hnodup. eapply sublist_NoDup; eauto.
Qed.

Lemma X2_one_winner_per_shot_witness :
  ∃ r, extract_smart_keyframes (two_shot_video 511) two_shots ∅ 50 3 (3 # 10) "medium" = Ret r ∧
       map scene_of (result_selected r) `sublist_of` two_shots ∧
       (length (result_selected r) ≤ total_scenes (result_stats r))%nat.
Proof.
  eexists. split; [vm_compute; reflexivity|].
  edestruct (X2_one_winner_per_shot supabase_histogram supabase_count_duplicate
               (two_shot_video 511) 50 3 "medium" two_shots ∅ (3 # 10))
    as (Hsub & _ & Hlen & _); [lia|vm_compute; reflexivity|].
  split; [exact Hsub|exact Hlen].
Defined.

Lemma not_sharpest_not_bad :
  ("not_sharpest" ∉ bad_reasons) ∧ ("duplicate" ∉ bad_reasons).
Proof.
  split; intros H; apply list_elem_of_In in H; simpl in H;
    repeat (destruct H as [H|H]; [discriminate|]); exact H.
Qed.

(** X3: in a result of either copy of the extractor, the k-th rejected
    entry is the file [rejected_{k:04d}.jpg], is flagged as not selected,
    and carries one of the eight reasons unreadable, black, solid_color,
    text_only, blurry, low_contrast, not_sharpest, duplicate (never
    "check_error" or "OK"); it has a sample timestamp exactly when its
    reason is one of the six reasons of the quality gate. *)
Theorem X3_rejected_entries
    (initial_histogram : gmap string nat)
    (count_duplicate : gmap string nat → outcome (gmap string nat))
    (v : video) (max_frames samples_per_scene : Z) (quality_mode : string)
    (scenes : list scene) (frames_dir : directory) (min_scene_duration : Q)
    (r : extraction) :
  extract initial_histogram count_duplicate v max_frames samples_per_scene quality_mode
    scenes frames_dir min_scene_duration = Ret r →
  ∀ k x, result_rejected r !! k = Some x →
    r_path x = rejected_jpg k ∧
    r_selected x = Some false ∧
    r_reason x ∈ rejection_reasons ∧
    (is_Some (r_timestamp x) ↔ r_reason x ∈ bad_reasons).
Proof.
  intros H k x Hk.
  apply extract_tidy in H as (visited & st & _ & _ & _ & Hr & _ & Htidy).
  rewrite Hr in Hk. destruct Htidy as (_ & Hrej & _).
  destruct (Hrej k x Hk) as (Hpath & Hflag & Hreason).
  split; [exact Hpath|]. split; [exact Hflag|].
  destruct not_sharpest_not_bad as [Hns Hdup].
  unfold rejection_reasons. rewrite elem_of_app.
  destruct Hreason as [[Hbad Hts]|[Hother Hts]].
  - split; [auto|]. split; auto.
  - split.
    + right. apply list_elem_of_In. simpl. destruct Hother as [-> | ->]; auto.
    + rewrite Hts. split.
      * intros [? ?]. discriminate.
      * intros Hbad. destruct Hother as [E|E]; rewrite E in Hbad; contradiction.
Qed.

Lemma X3_rejected_entries_witness :
  ∃ r, extract_smart_keyframes (two_shot_video 7) two_shots ∅ 50 3 (3 # 10) "medium" = Ret r ∧
       length (result_rejected r) = 5%nat ∧
       ∀ k x, result_rejected r !! k = Some x →
         r_path x = rejected_jpg k ∧ r_selected x = Some false ∧
         r_reason x ∈ rejection_reasons ∧
         (is_Some (r_timestamp x) ↔ r_reason x ∈ bad_reasons).
Proof.
  eexists. split; [vm_compute; reflexivity|]. split; [reflexivity|].
  apply (X3_rejected_entries supabase_histogram supabase_count_duplicate
           (two_shot_video 7) 50 3 "medium" two_shots ∅ (3 # 10)).
  vm_compute. reflexivity.
Defined.

(** X4: at the end of the per-shot loop of either copy, started from the
    initial state, there is one fingerprint per selected frame, it is the
    fingerprint of the file of that frame, and any two selected files whose
    fingerprints can be computed are at least [phash_threshold] apart, the
    later one measured against the earlier one. *)
Theorem X4_selected_fingerprints_spread
    (initial_histogram : gmap string nat)
    (count_duplicate : gmap string nat → outcome (gmap string nat))
    (v : video) (max_frames samples_per_scene : Z) (quality_mode : string)
    (scenes : list scene) (frames_dir : directory) (st : state) :
  scene_loop count_duplicate v max_frames samples_per_scene quality_mode
    (initial_state initial_histogram frames_dir) 0 scenes = Ret st →
  length (seen_hashes st) = length (selected_frames st) ∧
  (∀ k h, seen_hashes st !! k = Some h →
     compute_phash (files st) (selected_jpg k) = h) ∧
  (∀ i j hi hj, (i < j < length (selected_frames st))%nat →
     compute_phash (files st) (selected_jpg i) = Some hi →
     compute_phash (files st) (selected_jpg j) = Some hj →
     phash_threshold (get_preset quality_mode) ≤ hash_sub hj hi).
Proof.
  intros Hrun.
  destruct (scene_loop_tidy _ _ _ _ _ _ _ _ _
              (initial_tidy _ initial_histogram frames_dir) Hrun)
    as [(_ & _ & Hlen & Hspread & Halign & _) _].
  assert (Hfp : ∀ k h, seen_hashes st !! k = Some h →
            compute_phash (files st) (selected_jpg k) = h).
  { intros k h Hk. destruct (Halign k h Hk) as (content & Hfile & Hh).
    rewrite compute_phash_lookup, Hfile. exact Hh. }
  split; [exact Hlen|]. split; [exact Hfp|].
  intros i j hi hj [Hij Hj] Hi Hjh.
  destruct (lookup_lt_is_Some_2 (seen_hashes st) i ltac:(lia)) as [xi Hxi].
  destruct (lookup_lt_is_Some_2 (seen_hashes st) j ltac:(lia)) as [xj Hxj].
  pose proof (Hfp i xi Hxi) as Ei. pose proof (Hfp j xj Hxj) as Ej.
  rewrite Hi in Ei. rewrite Hjh in Ej. subst xi xj.
  exact (Hspread i j hi hj Hij Hxi Hxj).
Qed.

Lemma X4_selected_fingerprints_spread_witness :
  ∃ st,
    scene_loop supabase_count_duplicate (two_shot_video 511) 50 3 "medium"
      (initial_state supabase_histogram ∅) 0 two_shots = Ret st ∧
    seen_hashes st = [Some 0%N; Some 511%N] ∧
    (∀ i j hi hj, (i < j < length (selected_frames st))%nat →
       compute_phash (files st) (selected_jpg i) = Some hi →
       compute_phash (files st) (selected_jpg j) = Some hj →
       8 ≤ hash_sub hj hi).
Proof.
  eexists. split; [vm_compute; reflexivity|]. split; [reflexivity|].
  edestruct (X4_selected_fingerprints_spread supabase_histogram supabase_count_duplicate
               (two_shot_video 511) 50 3 "medium" two_shots ∅)
    as (_ & _ & Hspread); [vm_compute; reflexivity|].
  exact Hspread.
Defined.

Lemma run_files_in_place
    (initial_histogram : gmap string nat)
    (count_duplicate : gmap string nat → outcome (gmap string nat))
    (v : video) (max_frames samples_per_scene : Z) (quality_mode : string)
    (scenes : list scene) (frames_dir : directory) (st : state) :
  (∀ p, is_temp p → frames_dir !! p = None) →
  scene_loop count_duplicate v max_frames samples_per_scene quality_mode
    (initial_state initial_histogram frames_dir) 0 scenes = Ret st →
  Forall (fun f => is_Some (files st !! path_of f)) (selected_frames st) ∧
  Forall (fun x => is_Some (files st !! r_path x)) (rejected_frames st) ∧
  (∀ p, is_temp p → files st !! p = None).
Proof.
  intros Hclean Hrun.
  destruct (scene_loop_tidy _ _ _ _ _ _ _ _ _
              (initial_tidy _ initial_histogram frames_dir) Hrun)
    as [(Hsel & Hrej & Hlen & _ & Halign & Hfiles) Htemp].
  split; [|split].
  - apply Forall_lookup. intros k f Hk.
    destruct (Hsel k f Hk) as (-> & _).
    apply lookup_lt_Some in Hk. rewrite <- Hlen in Hk.
    destruct (lookup_lt_is_Some_2 _ _ Hk) as [h Hh].
    destruct (Halign k h Hh) as (content & -> & _). eauto.
  - apply Forall_lookup. intros k x Hk.
    destruct (Hrej k x Hk) as (-> & _).
    apply Hfiles. eapply lookup_lt_Some; eauto.
  - apply Htemp. exact Hclean.
Qed.

(** X5: when the frames directory holds no candidate file
    ([temp_*.jpg]) at the start, at the end of the per-shot loop of either
    copy every selected entry and every rejected entry names a file that
    exists, and no candidate file is left behind. *)
Theorem X5_files_in_place
    (initial_histogram : gmap string nat)
    (count_duplicate : gmap string nat → outcome (gmap string nat))
    (v : video) (max_frames samples_per_scene : Z) (quality_mode : string)
    (scenes : list scene) (frames_dir : directory) (st : state) :
  (∀ p, is_temp p → frames_dir !! p = None) →
  scene_loop count_duplicate v max_frames samples_per_scene quality_mode
    (initial_state initial_histogram frames_dir) 0 scenes = Ret st →
  Forall (fun f => is_Some (files st !! path_of f)) (selected_frames st) ∧
  Forall (fun x => is_Some (files st !! r_path x)) (rejected_frames st) ∧
  (∀ p, is_temp p → files st !! p = None).
Proof. apply run_files_in_place. Qed.

Lemma X5_files_in_place_witness :
  ∃ st,
    scene_loop supabase_count_duplicate (two_shot_video 7) 50 3 "medium"
      (initial_state supabase_histogram ∅) 0 two_shots = Ret st ∧
    length (selected_frames st) = 1%nat ∧
    length (rejected_frames st) = 5%nat ∧
    Forall (fun f => is_Some (files st !! path_of f)) (selected_frames st) ∧
    Forall (fun x => is_Some (files st !! r_path x)) (rejected_frames st) ∧
    (∀ p, is_temp p → files st !! p = None).
Proof.
  eexists. split; [vm_compute; reflexivity|]. split; [reflexivity|].
  split; [reflexivity|].
  apply (X5_files_in_place supabase_histogram supabase_count_duplicate
           (two_shot_video 7) 50 3 "medium" two_shots ∅).
  - intros p _. apply lookup_empty.
  - vm_compute. reflexivity.
Defined.

(** X6: for a cap of at least one, the choice of the scenes to visit never
    fails; the chosen scenes are a subsequence of the given ones, each of
    at least [min_scene_duration], and there are at most [2 * max_frames]
    of them, however many scenes were detected. *)
Theorem X6_visited_scenes_bounded
    (max_frames : Z) (scenes : list scene) (min_scene_duration : Q) :
  1 ≤ max_frames →
  ∃ visited,
    select_scenes max_frames scenes min_scene_duration = Ret visited ∧
    visited `sublist_of` scenes ∧
    Forall (fun s => (min_scene_duration <= end_ s - start s)%Q) visited ∧
    Z.of_nat (length visited) ≤ 2 * max_frames.
Proof. apply select_scenes_spec. Qed.

Lemma X6_visited_scenes_bounded_witness :
  ∃ visited,
    select_scenes 1 (two_shots ++ two_shots ++ [half_second_shot]) (3 # 10) = Ret visited ∧
    visited `sublist_of` two_shots ++ two_shots ++ [half_second_shot] ∧
    Forall (fun s => (3 # 10 <= end_ s - start s)%Q) visited ∧
    Z.of_nat (length visited) ≤ 2 * 1.
Proof.
  apply (X6_visited_scenes_bounded 1 (two_shots ++ two_shots ++ [half_second_shot]) (3 # 10)).
  lia.
Defined.

(** X7: with [max_frames = 0], either copy of the extractor raises
    [ZeroDivisionError] as soon as one given scene lasts at least
    [min_scene_duration]: the division that computes the thinning step is
    reached before any frame is read. *)
Theorem X7_zero_cap_raises
    (initial_histogram : gmap string nat)
    (count_duplicate : gmap string nat → outcome (gmap string nat))
    (v : video) (samples_per_scene : Z) (quality_mode : string)
    (scenes : list scene) (frames_dir : directory) (min_scene_duration : Q)
    (sc : scene) :
  sc ∈ scenes →
  (min_scene_duration <= end_ sc - start sc)%Q →
  extract initial_histogram count_duplicate v 0 samples_per_scene quality_mode
    scenes frames_dir min_scene_duration = Raise ZeroDivisionError.
Proof.
  intros Hin Hdur. unfold extract, select_scenes.
  assert (Hvalid : sc ∈ filter (fun s => Qleb min_scene_duration (end_ s - start s) = true)
                          scenes).
  { apply list_elem_of_filter. split; [|exact Hin]. apply Z.leb_le. exact Hdur. }
  destruct (filter _ scenes) as [|s l]; [inversion Hvalid|].
  reflexivity.
Qed.

Lemma X7_zero_cap_raises_witness :
  extract_smart_keyframes (two_shot_video 7) two_shots ∅ 0 3 (3 # 10) "medium"
    = Raise ZeroDivisionError ∧
  Convex.extract_smart_keyframes (two_shot_video 7) two_shots ∅ 0 3 (3 # 10) "medium"
    = Raise ZeroDivisionError.
Proof.
  split.
  - apply (X7_zero_cap_raises supabase_histogram supabase_count_duplicate
             (two_shot_video 7) 3 "medium" two_shots ∅ (3 # 10) ten_second_shot).
    + apply list_elem_of_here.
    + vm_compute. discriminate.
  - apply (X7_zero_cap_raises ∅ Convex.count_duplicate
             (two_shot_video 7) 3 "medium" two_shots ∅ (3 # 10) ten_second_shot).
    + apply list_elem_of_here.
    + vm_compute. discriminate.
Defined.

(** ** Quality modes *)

Lemma is_bad_frame_preset fs image_path mode1 mode2 :
  get_preset mode1 = get_preset mode2 →
  is_bad_frame fs image_path mode1 = is_bad_frame fs image_path mode2.
Proof. intros H. unfold is_bad_frame. rewrite H. reflexivity. Qed.

Lemma sample_loop_preset v mode1 mode2 scene_idx sc points acc :
  get_preset mode1 = get_preset mode2 →
  fold_left (sample_step v mode1 scene_idx sc) points acc =
  fold_left (sample_step v mode2 scene_idx sc) points acc.
Proof.
  intros H. revert acc. induction points as [|t points IH]; intros acc; cbn [fold_left];
    [reflexivity|].
  rewrite IH. f_equal. unfold sample_step. destruct acc as [st sv].
  destruct (total_frames_count v <=? _); [reflexivity|].
  destruct (read v _); [|reflexivity].
  rewrite (is_bad_frame_preset _ _ mode1 mode2 H). reflexivity.
Qed.

Lemma scene_loop_preset count_duplicate v max_frames samples_per_scene mode1 mode2
    scenes st scene_idx :
  get_preset mode1 = get_preset mode2 →
  scene_loop count_duplicate v max_frames samples_per_scene mode1 st scene_idx scenes =
  scene_loop count_duplicate v max_frames samples_per_scene mode2 st scene_idx scenes.
Proof.
  intros H. revert st scene_idx. induction scenes as [|sc scenes IH]; intros st scene_idx;
    simpl; [reflexivity|].
  assert (Hbody : process_scene count_duplicate v max_frames samples_per_scene mode1
                    st scene_idx sc =
                  process_scene count_duplicate v max_frames samples_per_scene mode2
                    st scene_idx sc).
  { unfold process_scene. rewrite (sample_loop_preset v mode1 mode2 _ _ _ _ H).
    unfold settle_winner. rewrite H. reflexivity. }
  rewrite Hbody. destruct (process_scene _ _ _ _ mode2 _ _ _) as [[[] st1]|]; simpl; auto.
Qed.

(** X8: a quality mode that is not a key of [QUALITY_PRESETS] makes either
    copy of the extractor behave exactly as "medium" does: same exception,
    or same selected list, rejected list and statistics; only the
    [quality_mode] echoed in the result is the name that was given. *)
Theorem X8_unknown_mode_is_medium
    (initial_histogram : gmap string nat)
    (count_duplicate : gmap string nat → outcome (gmap string nat))
    (v : video) (max_frames samples_per_scene : Z) (quality_mode : string)
    (scenes : list scene) (frames_dir : directory) (min_scene_duration : Q) :
  QUALITY_PRESETS !! quality_mode = None →
  (∀ fs image_path,
     is_bad_frame fs image_path quality_mode = is_bad_frame fs image_path "medium") ∧
  outcome_rel
    (fun r1 r2 =>
       result_selected r1 = result_selected r2 ∧
       result_rejected r1 = result_rejected r2 ∧
       result_stats r1 = result_stats r2 ∧
       result_quality_mode r1 = quality_mode ∧
       result_quality_mode r2 = "medium")
    (extract initial_histogram count_duplicate v max_frames samples_per_scene
       quality_mode scenes frames_dir min_scene_duration)
    (extract initial_histogram count_duplicate v max_frames samples_per_scene
       "medium" scenes frames_dir min_scene_duration).
Proof.
  intros Hnone.
  assert (H : get_preset quality_mode = get_preset "medium").
  { unfold get_preset. rewrite Hnone. reflexivity. }
  split; [intros; apply is_bad_frame_preset; exact H|].
  unfold extract.
  destruct (select_scenes _ _ _) as [visited|]; simpl; [|reflexivity].
  rewrite (scene_loop_preset _ _ _ _ quality_mode "medium" _ _ _ H).
  destruct (scene_loop _ _ _ _ "medium" _ _ _) as [st|]; simpl; auto.
Qed.

Lemma X8_unknown_mode_is_medium_witness :
  is_bad_frame (<[temp_jpg 0 2 := glitch_frame]> ∅) (temp_jpg 0 2) "ultra" =
  is_bad_frame (<[temp_jpg 0 2 := glitch_frame]> ∅) (temp_jpg 0 2) "medium".
Proof.
  destruct (X8_unknown_mode_is_medium supabase_histogram supabase_count_duplicate
              (two_shot_video 7) 50 3 "ultra" two_shots ∅ (3 # 10)) as [Hgate _].
  - vm_compute. reflexivity.
  - apply Hgate.
Defined.

(** X9: [is_duplicate] answers [True] exactly when the current fingerprint
    is known and some known fingerprint of the list lies at a distance
    below the threshold; [None] entries of the list and a [None] current
    fingerprint never make it answer [True]. *)
Theorem X9_is_duplicate_iff
    (current_hash : option N) (seen_hashes : list (option N)) (threshold : Z) :
  is_duplicate current_hash seen_hashes threshold = true ↔
  ∃ c h, current_hash = Some c ∧ Some h ∈ seen_hashes ∧ hash_sub c h < threshold.
Proof.
  destruct current_hash as [c|]; simpl.
  - rewrite is_duplicate_scan_true. split.
    + intros (h & Hin & Hlt). eauto.
    + intros (c' & h & Hc & Hin & Hlt). inversion Hc. subst. eauto.
  - split; [discriminate|]. intros (c & h & Hc & _). discriminate.
Qed.

(** * The upload of the frames *)

Lemma submit_uploads_lookup fs video_hash supabase_url uuids post args idx :
  submit_uploads fs video_hash supabase_url uuids post args !! idx =
  (fun arg : path * bool => (upload_to_storage fs (fst arg) video_hash supabase_url (snd arg)
                 (uuids idx) post, snd arg)) <$> args !! idx.
Proof. unfold submit_uploads. apply list_lookup_imap. Qed.

(** The flag stored with a future says on which side of [upload_args] it is. *)
Lemma submit_uploads_flag fs video_hash supabase_url uuids post selected rejected idx res flag :
  submit_uploads fs video_hash supabase_url uuids post (upload_args selected rejected)
    !! idx = Some (res, flag) →
  (flag = true ∧ (idx < length selected)%nat) ∨
  (flag = false ∧ (length selected ≤ idx < length selected + length rejected)%nat).
Proof.
  rewrite submit_uploads_lookup. unfold upload_args.
  destruct (decide (idx < length selected)%nat) as [Hlt|Hge].
  - rewrite lookup_app_l by (rewrite length_map; exact Hlt).
    rewrite list_lookup_fmap. destruct (selected !! idx); simpl; [|discriminate].
    intros H. inversion H. auto.
  - rewrite lookup_app_r by (rewrite length_map; lia).
    rewrite list_lookup_fmap, length_map.
    destruct (rejected !! (idx - length selected)%nat) eqn:E; simpl; [|discriminate].
    intros H. inversion H. right. split; [reflexivity|].
    apply lookup_lt_Some in E. lia.
Qed.

Lemma collect_fold selected rejected futures order acc :
  (∀ idx res flag, futures !! idx = Some (res, flag) →
     (flag = true ∧ (idx < length selected)%nat) ∨
     (flag = false ∧ (length selected ≤ idx < length selected + length rejected)%nat)) →
  fold_left (collect_step selected rejected futures) order acc =
  (fst acc ++ omap (uploaded_selected_at selected futures) order,
   snd acc ++ omap (fun idx => if decide (length selected ≤ idx)%nat
                               then uploaded_rejected_at selected rejected futures
                                      (idx - length selected)
                               else None) order).
Proof.
  intros Hflag. revert acc. induction order as [|idx order IH]; intros [a b]; cbn [fold_left].
  - simpl. rewrite !app_nil_r. reflexivity.
  - rewrite IH. clear IH. simpl omap.
    unfold collect_step, uploaded_selected_at, uploaded_rejected_at.
    destruct (futures !! idx) as [[[url|msg] flag]|] eqn:Efut.
    + destruct (Hflag _ _ _ Efut) as [[-> Hlt]|[-> [Hge Hlt]]].
      * destruct (decide (length selected ≤ idx)%nat); [lia|].
        destruct (decide (idx < length selected)%nat); [|lia].
        destruct (selected !! idx) as [f|] eqn:Ef;
          [|apply lookup_ge_None in Ef; lia].
        destruct (decide (url = "")); simpl; [reflexivity|].
        rewrite <- app_assoc. reflexivity.
      * destruct (decide (length selected ≤ idx)%nat); [|lia].
        rewrite (lookup_ge_None_2 selected idx) by lia.
        replace (length selected + (idx - length selected))%nat with idx by lia.
        rewrite Efut.
        destruct (decide (idx - length selected < length rejected)%nat); [|lia].
        destruct (rejected !! (idx - length selected)%nat) as [f|] eqn:Ef;
          [|apply lookup_ge_None in Ef; lia].
        destruct (decide (url = "")); simpl; [reflexivity|].
        rewrite <- app_assoc. reflexivity.
    + destruct (selected !! idx); simpl.
      * destruct (decide (length selected ≤ idx)%nat); [|reflexivity].
        replace (length selected + (idx - length selected))%nat with idx by lia.
        rewrite Efut. destruct (rejected !! _); reflexivity.
      * destruct (decide (length selected ≤ idx)%nat); [|reflexivity].
        replace (length selected + (idx - length selected))%nat with idx by lia.
        rewrite Efut. destruct (rejected !! _); reflexivity.
    + destruct (selected !! idx); simpl.
      * destruct (decide (length selected ≤ idx)%nat); [|reflexivity].
        replace (length selected + (idx - length selected))%nat with idx by lia.
        rewrite Efut. destruct (rejected !! _); reflexivity.
      * destruct (decide (length selected ≤ idx)%nat); [|reflexivity].
        replace (length selected + (idx - length selected))%nat with idx by lia.
        rewrite Efut. destruct (rejected !! _); reflexivity.
Qed.

Lemma omap_seq_none {A} (g : nat → option A) (start_ len : nat) :
  (∀ k, (start_ ≤ k < start_ + len)%nat → g k = None) →
  omap g (seq start_ len) = [].
Proof.
  revert start_. induction len as [|len IH]; intros start_ H; simpl; [reflexivity|].
  rewrite (H start_) by lia. apply IH. intros k Hk. apply H. lia.
Qed.

Lemma omap_pointwise {A B} (f g : A → option B) (l : list A) :
  (∀ x, f x = g x) → omap f l = omap g l.
Proof.
  intros H. induction l as [|x l IH]; [reflexivity|].
  change (omap f (x :: l)) with (match f x with Some y => y :: omap f l | None => omap f l end).
  change (omap g (x :: l)) with (match g x with Some y => y :: omap g l | None => omap g l end).
  rewrite H, IH. reflexivity.
Qed.

Lemma omap_seq_shift {A} (g : nat → option A) (start_ len : nat) :
  omap g (seq start_ len) = omap (fun k => g (start_ + k)%nat) (seq 0 len).
Proof.
  revert g start_. induction len as [|len IH]; intros g start_; simpl; [reflexivity|].
  rewrite Nat.add_0_r.
  pose proof (IH g (S start_)) as H1.
  pose proof (IH (fun k => g (start_ + k)%nat) 1%nat) as H2.
  assert (E : omap (fun k => g (S start_ + k)%nat) (seq 0 len) =
              omap (fun k => g (start_ + (1 + k))%nat) (seq 0 len)).
  { apply omap_pointwise. intros k. f_equal. lia. }
  unfold omap in H1, H2, E. rewrite H1, H2, E. reflexivity.
Qed.

Lemma omap_length_le {A B} (g : A → option B) (l : list A) :
  (length (omap g l) ≤ length l)%nat.
Proof.
  induction l as [|x l IH]; [reflexivity|].
  change (omap g (x :: l)) with (match g x with Some y => y :: omap g l | None => omap g l end).
  destruct (g x); simpl; lia.
Qed.

(** X10: step 4 of [process_video]. Whatever the order in which the
    uploads complete, [uploaded_selected] holds, up to order, exactly one
    entry for each selected frame whose upload returned a URL, with the
    scene bounds and the sharpness of that frame, and [uploaded_rejected]
    one entry for each rejected frame whose upload returned a URL, with its
    reason; a frame whose upload failed is left out without any trace, so
    the two lists are never longer than the lists of the extraction. *)
Theorem X10_uploads_collected
    (fs : directory) (video_hash supabase_url : string) (uuids : nat → string)
    (post : string → outcome Z)
    (selected : list selected_frame) (rejected : list rejected_frame)
    (order : list nat) :
  order ≡ₚ seq 0 (length selected + length rejected) →
  fst (collect_uploads selected rejected
         (submit_uploads fs video_hash supabase_url uuids post
            (upload_args selected rejected)) order)
    ≡ₚ omap (uploaded_selected_at selected
               (submit_uploads fs video_hash supabase_url uuids post
                  (upload_args selected rejected)))
            (seq 0 (length selected)) ∧
  snd (collect_uploads selected rejected
         (submit_uploads fs video_hash supabase_url uuids post
            (upload_args selected rejected)) order)
    ≡ₚ omap (uploaded_rejected_at selected rejected
               (submit_uploads fs video_hash supabase_url uuids post
                  (upload_args selected rejected)))
            (seq 0 (length rejected)) ∧
  (length (fst (collect_uploads selected rejected
                  (submit_uploads fs video_hash supabase_url uuids post
                     (upload_args selected rejected)) order)) ≤ length selected)%nat ∧
  (length (snd (collect_uploads selected rejected
                  (submit_uploads fs video_hash supabase_url uuids post
                     (upload_args selected rejected)) order)) ≤ length rejected)%nat.
Proof.
  intros Hperm.
  set (futures := submit_uploads fs video_hash supabase_url uuids post
                    (upload_args selected rejected)).
  unfold collect_uploads.
  rewrite (collect_fold selected rejected futures order ([], []))
    by (intros idx res flag; apply submit_uploads_flag).
  cbn [fst snd app].
  assert (Hsel : omap (uploaded_selected_at selected futures) order ≡ₚ
                 omap (uploaded_selected_at selected futures) (seq 0 (length selected))).
  { rewrite Hperm, seq_app, omap_app.
    rewrite (omap_seq_none _ (0 + length selected) (length rejected)).
    - rewrite app_nil_r. reflexivity.
    - intros k Hk. unfold uploaded_selected_at.
      rewrite (lookup_ge_None_2 selected k) by lia. reflexivity. }
  assert (Hrej : omap (fun idx => if decide (length selected ≤ idx)%nat
                                  then uploaded_rejected_at selected rejected futures
                                         (idx - length selected)
                                  else None) order ≡ₚ
                 omap (uploaded_rejected_at selected rejected futures)
                      (seq 0 (length rejected))).
  { rewrite Hperm, seq_app, omap_app.
    rewrite (omap_seq_none _ 0 (length selected)).
    - rewrite app_nil_l. simpl. rewrite omap_seq_shift.
      erewrite omap_pointwise; [reflexivity|].
      intros k. simpl. destruct (decide _); [|lia].
      f_equal. lia.
    - intros k Hk. simpl. destruct (decide _); [lia|reflexivity]. }
  split; [exact Hsel|]. split; [exact Hrej|]. split.
  - rewrite Hsel. etransitivity; [apply omap_length_le|]. rewrite length_seq. reflexivity.
  - rewrite Hrej. etransitivity; [apply omap_length_le|]. rewrite length_seq. reflexivity.
Qed.

Lemma X10_uploads_collected_witness :
  fst (collect_uploads
         [winner_entry 0 ten_second_shot 5; winner_entry 1 ten_second_shot 6] []
         (submit_uploads (<[selected_jpg 0 := glitch_frame]> ∅) "0123456789ab"
            "https://project.supabase.co" (fun _ => "uuid") (fun _ => Ret 200)
            (upload_args
               [winner_entry 0 ten_second_shot 5; winner_entry 1 ten_second_shot 6] []))
         [1; 0]%nat)
  ≡ₚ omap (uploaded_selected_at
             [winner_entry 0 ten_second_shot 5; winner_entry 1 ten_second_shot 6]
             (submit_uploads (<[selected_jpg 0 := glitch_frame]> ∅) "0123456789ab"
                "https://project.supabase.co" (fun _ => "uuid") (fun _ => Ret 200)
                (upload_args
                   [winner_entry 0 ten_second_shot 5; winner_entry 1 ten_second_shot 6] [])))
          (seq 0 2).
Proof.
  apply (X10_uploads_collected (<[selected_jpg 0 := glitch_frame]> ∅) "0123456789ab"
           "https://project.supabase.co" (fun _ => "uuid") (fun _ => Ret 200)
           [winner_entry 0 ten_second_shot 5; winner_entry 1 ten_second_shot 6] []
           [1; 0]%nat).
  apply perm_swap.
Defined.

(** In the run of the witness the second file is missing: one entry only. *)
Example upload_of_missing_file_is_dropped :
  collect_uploads
    [winner_entry 0 ten_second_shot 5; winner_entry 1 ten_second_shot 6] []
    (submit_uploads (<[selected_jpg 0 := glitch_frame]> ∅) "0123456789ab"
       "https://project.supabase.co" (fun _ => "uuid") (fun _ => Ret 200)
       (upload_args
          [winner_entry 0 ten_second_shot 5; winner_entry 1 ten_second_shot 6] []))
    [1; 0]%nat
  = ([ {| us_url := "https://project.supabase.co/storage/v1/object/public/images/video_frames/0123456789ab/selected/uuid.jpg";
          us_scene_start := 0; us_scene_end := 10; us_sharpness := 5;
          us_selected := true |} ], []).
Proof. vm_compute. reflexivity. Qed.

(** X11: the extractor and the uploader fit together. After the per-shot
    loop of either copy, started on a frames directory without candidate
    files, the upload of any selected or rejected entry finds its file: it
    returns the public URL of the object as soon as the storage service
    answers 200 or 201 to the POST, under [selected/] for a selected frame
    and under [rejected/] for a rejected one. *)
Theorem X11_frames_of_a_run_upload
    (initial_histogram : gmap string nat)
    (count_duplicate : gmap string nat → outcome (gmap string nat))
    (v : video) (max_frames samples_per_scene : Z) (quality_mode : string)
    (scenes : list scene) (frames_dir : directory) (st : state)
    (video_hash supabase_url frame_uuid : string) (post : string → outcome Z) :
  (∀ p, is_temp p → frames_dir !! p = None) →
  scene_loop count_duplicate v max_frames samples_per_scene quality_mode
    (initial_state initial_histogram frames_dir) 0 scenes = Ret st →
  (∀ is_selected,
     post (supabase_url +:+ "/storage/v1/object/images/" +:+
           storage_filename video_hash is_selected frame_uuid) = Ret 200 ∨
     post (supabase_url +:+ "/storage/v1/object/images/" +:+
           storage_filename video_hash is_selected frame_uuid) = Ret 201) →
  Forall (fun f =>
            upload_to_storage (files st) (path_of f) video_hash supabase_url true
              frame_uuid post =
            upload_url (supabase_url +:+ "/storage/v1/object/public/images/" +:+
                        storage_filename video_hash true frame_uuid))
         (selected_frames st) ∧
  Forall (fun x =>
            upload_to_storage (files st) (r_path x) video_hash supabase_url false
              frame_uuid post =
            upload_url (supabase_url +:+ "/storage/v1/object/public/images/" +:+
                        storage_filename video_hash false frame_uuid))
         (rejected_frames st).
Proof.
  intros Hclean Hrun Hpost.
  destruct (run_files_in_place _ _ _ _ _ _ _ _ _ Hclean Hrun) as (Hsel & Hrej & _).
  split.
  - eapply Forall_impl; [exact Hsel|]. intros f [content Hf].
    unfold upload_to_storage. rewrite Hf.
    destruct (Hpost true) as [-> | ->]; reflexivity.
  - eapply Forall_impl; [exact Hrej|]. intros x [content Hx].
    unfold upload_to_storage. rewrite Hx.
    destruct (Hpost false) as [-> | ->]; reflexivity.
Qed.

Lemma X11_frames_of_a_run_upload_witness :
  ∃ st,
    scene_loop supabase_count_duplicate (two_shot_video 7) 50 3 "medium"
      (initial_state supabase_histogram ∅) 0 two_shots = Ret st ∧
    Forall (fun x =>
              upload_to_storage (files st) (r_path x) "0123456789ab"
                "https://project.supabase.co" false "uuid" (fun _ => Ret 200) =
              upload_url ("https://project.supabase.co/storage/v1/object/public/images/" +:+
                          storage_filename "0123456789ab" false "uuid"))
           (rejected_frames st).
Proof.
  eexists. split; [vm_compute; reflexivity|].
  match goal with
  | |- Forall _ (rejected_frames ?s) =>
      destruct (X11_frames_of_a_run_upload supabase_histogram supabase_count_duplicate
                  (two_shot_video 7) 50 3 "medium" two_shots ∅ s
                  "0123456789ab" "https://project.supabase.co" "uuid" (fun _ => Ret 200))
        as [_ Hrej]
  end.
  - intros p _. apply lookup_empty.
  - vm_compute. reflexivity.
  - intros is_selected. left. reflexivity.
  - exact Hrej.
Defined.

(** * Deleting rejected frames *)

Lemma split_last_scan_nowhere sep s last :
  occurs_nowhere sep s = true → split_last_scan sep 0 s last = last.
Proof.
  induction s as [|c s IH]; simpl; [reflexivity|].
  intros H. apply andb_true_iff in H as [Hp Hs].
  apply negb_true_iff in Hp. rewrite Hp. apply IH. exact Hs.
Qed.

Lemma delete_step_accounting supabase_url http_delete acc url :
  (delete_accepted supabase_url http_delete url ∧
   delete_step supabase_url http_delete acc url =
   {| deleted := S (deleted acc); deletion_errors := deletion_errors acc |}) ∨
  (¬ delete_accepted supabase_url http_delete url ∧
   deleted (delete_step supabase_url http_delete acc url) = deleted acc ∧
   length (deletion_errors (delete_step supabase_url http_delete acc url)) =
   S (length (deletion_errors acc))).
Proof.
  unfold delete_step, delete_accepted, delete_endpoint.
  destruct (http_delete _) as [status|e].
  - destruct ((status =? 200) || (status =? 204)) eqn:Eok.
    + left. split; [|reflexivity].
      apply orb_true_iff in Eok as [H|H]; apply Z.eqb_eq in H; subst; auto.
    + right. apply orb_false_iff in Eok as [H1 H2]. apply Z.eqb_neq in H1, H2.
      split; [intros [H|H]; inversion H; contradiction|].
      simpl. rewrite length_app. simpl. split; [reflexivity|lia].
  - right. split; [intros [H|H]; discriminate|].
    simpl. rewrite length_app. simpl. split; [reflexivity|lia].
Qed.

Lemma delete_fold supabase_url http_delete frame_urls acc :
  deleted (fold_left (delete_step supabase_url http_delete) frame_urls acc) =
    (deleted acc + length (filter (delete_accepted supabase_url http_delete) frame_urls))%nat ∧
  (deleted (fold_left (delete_step supabase_url http_delete) frame_urls acc) +
   length (deletion_errors (fold_left (delete_step supabase_url http_delete) frame_urls acc)) =
   deleted acc + length (deletion_errors acc) + length frame_urls)%nat.
Proof.
  revert acc. induction frame_urls as [|url urls IH]; intros acc; cbn [fold_left].
  - simpl. lia.
  - destruct (IH (delete_step supabase_url http_delete acc url)) as [-> ->].
    rewrite filter_cons.
    destruct (delete_step_accounting supabase_url http_delete acc url)
      as [[Hyes ->]|(Hno & -> & ->)];
      destruct (decide _); try contradiction; simpl; lia.
Qed.

(** X12: [delete_rejected_frames] accounts for every URL it is given: the
    count [deleted] plus the number of error messages is the number of
    URLs, and [deleted] is the number of URLs whose DELETE was answered
    with 200 or 204; a URL that does not contain
    "/storage/v1/object/public/images/" is used whole as the object path. *)
Theorem X12_delete_accounting
    (supabase_url : string) (http_delete : string → outcome Z)
    (video_hash : string) (frame_urls : list string) :
  (deleted (delete_rejected_frames supabase_url http_delete video_hash frame_urls) +
   length (deletion_errors
             (delete_rejected_frames supabase_url http_delete video_hash frame_urls))
   = length frame_urls)%nat ∧
  deleted (delete_rejected_frames supabase_url http_delete video_hash frame_urls) =
    length (filter (delete_accepted supabase_url http_delete) frame_urls) ∧
  (∀ url, occurs_nowhere public_marker url = true →
     delete_endpoint supabase_url url =
     supabase_url +:+ "/storage/v1/object/images/" +:+ url).
Proof.
  unfold delete_rejected_frames.
  destruct (delete_fold supabase_url http_delete frame_urls
              {| deleted := 0; deletion_errors := [] |}) as [Hd Hsum].
  split; [rewrite Hsum; simpl; lia|]. split; [rewrite Hd; simpl; lia|].
  intros url Hno. unfold delete_endpoint, split_last.
  rewrite split_last_scan_nowhere by exact Hno. reflexivity.
Qed.

(** The path cut out of a public URL, and a URL without the marker. *)
Example split_last_examples :
  split_last public_marker
    "https://p.supabase.co/storage/v1/object/public/images/video_frames/ab/rejected/u.jpg"
    = "video_frames/ab/rejected/u.jpg" ∧
  split_last public_marker "https://example.org/u.jpg" = "https://example.org/u.jpg" ∧
  split_last "aa" "aaab" = "ab".
Proof. repeat split; vm_compute; reflexivity. Qed.

(** * The Convex back-end *)




(** * Download through RapidAPI *)

Lemma fetch_video_success api progress :
  fetch_video api progress = download_success ↔
  ∃ url, download_url progress = Some url ∧ url ≠ "" ∧
         fetch api url = Ret 200 ∧ write_bytes api = Ret tt.
Proof.
  unfold fetch_video, rapidapi_error. split.
  - destruct (download_url progress) as [url|]; [|discriminate].
    destruct (decide (url = "")); [discriminate|].
    destruct (fetch api url) as [status|] eqn:Ef; [|discriminate].
    destruct (status =? 200) eqn:E; [|discriminate]. apply Z.eqb_eq in E. subst.
    destruct (write_bytes api) as [[]|] eqn:Ew; [|discriminate].
    intros _. exists url. split_and!; auto.
  - intros (url & -> & Hne & -> & ->). destruct (decide (url = "")); [contradiction|].
    reflexivity.
Qed.

Lemma pending_inv status body :
  pending (Ret (status, body)) →
  status ≠ 200 ∨ ∃ progress, body = Ret progress ∧ finished progress = false.
Proof.
  intros (s & b & Hsb & Hwhy). inversion Hsb. subst. exact Hwhy.
Qed.

Lemma poll_loop_success api remaining i :
  poll_loop api i remaining = download_success ↔
  ∃ k progress,
    (k < remaining)%nat ∧
    (∀ j, (j < k)%nat → pending (progress_request api (i + j))) ∧
    progress_request api (i + k) = Ret (200, Ret progress) ∧
    finished progress = true ∧
    fetch_video api progress = download_success.
Proof.
  revert i. induction remaining as [|n IH]; intros i; simpl.
  - split; [discriminate|]. intros (k & _ & Hk & _). lia.
  - assert (Hnext : poll_loop api (S i) n = download_success →
      pending (progress_request api i) →
      ∃ k progress, (k < S n)%nat ∧
        (∀ j, (j < k)%nat → pending (progress_request api (i + j))) ∧
        progress_request api (i + k) = Ret (200, Ret progress) ∧
        finished progress = true ∧ fetch_video api progress = download_success).
    { intros Hs Hp. apply IH in Hs as (k & progress & Hk & Hpend & Hreq & Hfin & Hget).
      exists (S k), progress. split; [lia|]. split; [|split; [|auto]].
      - intros j Hj. destruct j as [|j]; [rewrite Nat.add_0_r; exact Hp|].
        replace (i + S j)%nat with (S i + j)%nat by lia. apply Hpend. lia.
      - replace (i + S k)%nat with (S i + k)%nat by lia. exact Hreq. }
    assert (Hback : ∀ k progress, (k < S n)%nat →
      (∀ j, (j < k)%nat → pending (progress_request api (i + j))) →
      progress_request api (i + k) = Ret (200, Ret progress) →
      finished progress = true → fetch_video api progress = download_success →
      k ≠ 0%nat → poll_loop api (S i) n = download_success).
    { intros k progress Hk Hpend Hreq Hfin Hget Hk0. apply IH.
      destruct k as [|k]; [contradiction|]. exists k, progress.
      split; [lia|]. split; [|split; [|auto]].
      - intros j Hj. replace (S i + j)%nat with (i + S j)%nat by lia. apply Hpend. lia.
      - replace (S i + k)%nat with (i + S k)%nat by lia. exact Hreq. }
    destruct (progress_request api i) as [[status body]|e] eqn:Ereq.
    + destruct (status =? 200) eqn:Est.
      * apply Z.eqb_eq in Est. subst status.
        destruct body as [progress|e].
        -- destruct (finished progress) eqn:Efin.
           ++ split.
              ** intros Hget. exists 0%nat, progress. rewrite Nat.add_0_r.
                 split; [lia|]. split; [intros j Hj; lia|auto].
              ** intros (k & progress' & Hk & Hpend & Hreq & Hfin & Hget).
                 destruct k as [|k].
                 --- rewrite Nat.add_0_r, Ereq in Hreq. inversion Hreq. subst. exact Hget.
                 --- specialize (Hpend 0%nat ltac:(lia)). rewrite Nat.add_0_r, Ereq in Hpend.
                     apply pending_inv in Hpend as [Hne|(p & Hb & Hf)]; [contradiction|].
                     inversion Hb. subst. congruence.
           ++ split.
              ** intros Hs. apply Hnext; [exact Hs|].
                 exists 200, (Ret progress). split; [reflexivity|]. right. eauto.
              ** intros (k & progress' & Hk & Hpend & Hreq & Hfin & Hget).
                 apply (Hback k progress'); auto.
                 intros ->. rewrite Nat.add_0_r, Ereq in Hreq. inversion Hreq. subst.
                 congruence.
        -- split; [discriminate|].
           intros (k & progress' & Hk & Hpend & Hreq & Hfin & Hget).
           destruct k as [|k].
           ++ rewrite Nat.add_0_r, Ereq in Hreq. discriminate.
           ++ specialize (Hpend 0%nat ltac:(lia)). rewrite Nat.add_0_r, Ereq in Hpend.
              apply pending_inv in Hpend as [Hne|(p & Hb & Hf)]; [contradiction|discriminate].
      * apply Z.eqb_neq in Est. split.
        -- intros Hs. apply Hnext; [exact Hs|].
           exists status, body. split; [reflexivity|]. left. exact Est.
        -- intros (k & progress' & Hk & Hpend & Hreq & Hfin & Hget).
           apply (Hback k progress'); auto.
           intros ->. rewrite Nat.add_0_r, Ereq in Hreq. inversion Hreq. contradiction.
    + split; [discriminate|].
      intros (k & progress' & Hk & Hpend & Hreq & Hfin & Hget).
      destruct k as [|k].
      * rewrite Nat.add_0_r, Ereq in Hreq. discriminate.
      * specialize (Hpend 0%nat ltac:(lia)). rewrite Nat.add_0_r, Ereq in Hpend.
        destruct Hpend as (s & b & Hsb & _). discriminate.
Qed.

Lemma poll_loop_timeout api remaining i :
  (∀ j, (j < remaining)%nat → pending (progress_request api (i + j))) →
  poll_loop api i remaining = download_error "Timeout waiting for video processing".
Proof.
  revert i. induction remaining as [|n IH]; intros i H; simpl; [reflexivity|].
  assert (Hrest : poll_loop api (S i) n =
                  download_error "Timeout waiting for video processing").
  { apply IH. intros j Hj. replace (S i + j)%nat with (i + S j)%nat by lia.
    apply H. lia. }
  destruct (H 0%nat ltac:(lia)) as (status & body & Hreq & Hwhy).
  rewrite Nat.add_0_r in Hreq. rewrite Hreq.
  destruct Hwhy as [Hne|(progress & -> & Hfin)].
  - apply Z.eqb_neq in Hne. rewrite Hne. exact Hrest.
  - destruct (status =? 200); [rewrite Hfin|]; exact Hrest.
Qed.

Lemma started_polls api :
  started api →
  download_youtube_rapidapi api = poll_loop api 0 60.
Proof.
  intros (body_text & data & Hreq & Hok). unfold download_youtube_rapidapi.
  rewrite Hreq. cbv beta match. rewrite Z.eqb_refl, Hok. reflexivity.
Qed.

(** X14: [download_youtube_rapidapi] reports success exactly when the first
    request was accepted and one of the first 60 progress requests, all the
    earlier ones being answered with a status other than 200 or with an
    unfinished job, is answered with status 200, a finished job and a
    non-empty download URL, the GET on that URL returns 200 and the file is
    written. *)
Theorem X14_rapidapi_success_iff (api : rapidapi) :
  download_youtube_rapidapi api = download_success ↔
  started api ∧
  ∃ k progress url,
    (k < 60)%nat ∧
    (∀ j, (j < k)%nat → pending (progress_request api j)) ∧
    progress_request api k = Ret (200, Ret progress) ∧
    finished progress = true ∧
    download_url progress = Some url ∧ url ≠ "" ∧
    fetch api url = Ret 200 ∧
    write_bytes api = Ret tt.
Proof.
  split.
  - intros H.
    assert (Hstarted : started api).
    { unfold download_youtube_rapidapi, rapidapi_error in H. unfold started.
      destruct (start_request api) as [[[status body_text] body]|]; [|discriminate].
      destruct (status =? 200) eqn:E; [|discriminate]. apply Z.eqb_eq in E. subst.
      destruct body as [data|]; [|discriminate].
      destruct (start_success data) eqn:Eok; [|discriminate]. eauto. }
    split; [exact Hstarted|].
    rewrite (started_polls api Hstarted) in H.
    apply poll_loop_success in H as (k & progress & Hk & Hpend & Hreq & Hfin & Hget).
    apply fetch_video_success in Hget as (url & Hurl & Hne & Hfetch & Hwrite).
    exists k, progress, url. simpl in Hreq. auto 10.
  - intros (Hstarted & k & progress & url & Hk & Hpend & Hreq & Hfin & Hurl & Hne & Hf & Hw).
    rewrite (started_polls api Hstarted). apply poll_loop_success.
    exists k, progress. simpl. split; [exact Hk|]. split; [exact Hpend|].
    split; [exact Hreq|]. split; [exact Hfin|].
    apply fetch_video_success. eauto.
Qed.

(** X15: when the first request was accepted and each of the first 60
    progress requests is answered with a status other than 200 or with an
    unfinished job, [download_youtube_rapidapi] gives up with the error
    "Timeout waiting for video processing", whatever a 61st request would
    have been answered. *)
Theorem X15_rapidapi_gives_up_after_60_polls (api : rapidapi) :
  started api →
  (∀ j, (j < 60)%nat → pending (progress_request api j)) →
  download_youtube_rapidapi api =
  download_error "Timeout waiting for video processing".
Proof.
  intros Hstarted Hpend. rewrite (started_polls api Hstarted).
  apply poll_loop_timeout. exact Hpend.
Qed.

Lemma X15_rapidapi_gives_up_after_60_polls_witness :
  download_youtube_rapidapi stalled_api =
  download_error "Timeout waiting for video processing".
Proof.
  apply X15_rapidapi_gives_up_after_60_polls.
  - do 2 eexists. split; reflexivity.
  - intros j _. exists 200, (Ret {| finished := false; download_url := None |}).
    split; [reflexivity|]. right. eexists. split; reflexivity.
Defined.

(** Two refused progress requests do not stop the download. *)
Example third_poll_succeeds :
  download_youtube_rapidapi third_poll_api = download_success.
Proof. vm_compute. reflexivity. Qed.

(** * An empty result *)

Lemma sample_step_candidate v quality_mode scene_idx sc acc sample_time :
  (0 <= best_sharpness (snd acc))%Q →
  holds_candidate acc ∨ captured v sample_time →
  holds_candidate (sample_step v quality_mode scene_idx sc acc sample_time).
Proof.
  destruct acc as [st sv]. simpl. intros Hpos H. unfold sample_step.
  destruct (total_frames_count v <=? _) eqn:Etot.
  { destruct H as [H|[Hin _]]; [exact H|]. apply Z.leb_le in Etot. lia. }
  destruct (read v _) as [frame|] eqn:Eread.
  2:{ destruct H as [H|(_ & f & Hf & _)]; [exact H|]. rewrite Eread in Hf. discriminate. }
  simpl.
  set (tp := temp_jpg scene_idx (int (sample_time * fps v))).
  destruct (is_bad_frame _ _ _) as [is_bad reason] eqn:Egate. destruct is_bad.
  - destruct H as [[(bp & Hbp & Hsharp & Hfile)|(r & Hr & Hfile)]|(_ & f & Hf & Hwrite)];
      simpl in *.
    + left. exists bp. simpl. split; [exact Hbp|]. split; [exact Hsharp|].
      apply cv2_imwrite_keeps. exact Hfile.
    + right. exists r. simpl. split; [apply elem_of_app; left; exact Hr|].
      apply cv2_imwrite_keeps. exact Hfile.
    + right. eexists. simpl. split; [apply elem_of_app; right; apply list_elem_of_here|].
      simpl. rewrite Eread in Hf. inversion Hf. subst f.
      rewrite (cv2_imwrite_written _ _ _ Hwrite).
      rewrite lookup_insert_eq. eauto.
  - clear H. apply is_bad_frame_false_exists in Egate. simpl in Egate.
    destruct (Qltb (best_sharpness sv) _) eqn:Esharp.
    + left. exists tp. simpl. split; [reflexivity|]. split; [|exact Egate].
      apply Qltb_lt. eapply Qltb_0_pos; eauto.
    + right. eexists. simpl. split; [apply elem_of_app; right; apply list_elem_of_here|].
      simpl. exact Egate.
Qed.

Lemma sample_loop_candidate v quality_mode scene_idx sc st0 points acc :
  scan_inv sc st0 acc →
  holds_candidate acc ∨ (∃ t, t ∈ points ∧ captured v t) →
  holds_candidate (fold_left (sample_step v quality_mode scene_idx sc) points acc).
Proof.
  revert acc. induction points as [|t points IH]; intros acc Hscan H; cbn [fold_left].
  - destruct H as [H|(t & Ht & _)]; [exact H|]. apply elem_of_nil in Ht. contradiction.
  - apply IH; [apply sample_step_scan; exact Hscan|].
    destruct Hscan as (_ & _ & _ & _ & Hpos).
    destruct H as [H|(t' & Ht & Hread)].
    + left. apply sample_step_candidate; auto.
    + apply elem_of_cons in Ht as [->|Ht].
      * left. apply sample_step_candidate; auto.
      * right. eauto.
Qed.

Lemma rename_loop_nonempty l st :
  rejected_frames st ≠ [] ∨ (∃ r, r ∈ l ∧ is_Some (files st !! r_path r)) →
  rejected_frames (fold_left rename_rejected l st) ≠ [].
Proof.
  revert st. induction l as [|r0 l IH]; intros st H; cbn [fold_left].
  - destruct H as [H|(r & Hr & _)]; [exact H|]. apply elem_of_nil in Hr. contradiction.
  - apply IH. unfold rename_rejected.
    destruct (files st !! r_path r0) as [content|] eqn:Efile.
    + left. simpl. intros Hnil. apply app_eq_nil in Hnil as [_ Hnil]. discriminate.
    + destruct H as [H|(r & Hr & Hsome)]; [left; exact H|].
      apply elem_of_cons in Hr as [->|Hr].
      * rewrite Efile in Hsome. destruct Hsome. discriminate.
      * right. eauto.
Qed.

Lemma process_scene_break count_duplicate v max_frames samples_per_scene quality_mode
    st scene_idx sc st' :
  process_scene count_duplicate v max_frames samples_per_scene quality_mode
    st scene_idx sc = Ret (Break, st') →
  max_frames ≤ Z.of_nat (length (selected_frames st')).
Proof.
  unfold process_scene. intros H.
  destruct (int _ <? 3); [discriminate|].
  destruct (fold_left _ _ _) as [st1 sv1].
  destruct (settle_winner _ _ _ _ _) as [r|]; simpl in H; [|discriminate].
  destruct (max_frames <=? _) eqn:E; [|discriminate].
  inversion H. subst st'. apply Z.leb_le in E. exact E.
Qed.

Lemma process_scene_nonempty count_duplicate v max_frames samples_per_scene quality_mode
    st scene_idx sc fl st' t :
  process_scene count_duplicate v max_frames samples_per_scene quality_mode
    st scene_idx sc = Ret (fl, st') →
  3 ≤ int ((end_ sc - start sc) * fps v) →
  t ∈ sample_points sc samples_per_scene →
  captured v t →
  selected_frames st' ≠ [] ∨ rejected_frames st' ≠ [].
Proof.
  unfold process_scene. intros H Hlong Ht Hread.
  destruct (int _ <? 3) eqn:E3; [apply Z.ltb_lt in E3; lia|].
  pose proof (sample_loop_candidate v quality_mode scene_idx sc st
                (sample_points sc samples_per_scene) _ (scan_inv_initial sc st)
                (or_intror (ex_intro _ t (conj Ht Hread)))) as Hcand.
  destruct (fold_left _ _ _) as [st1 sv1].
  destruct (settle_winner _ _ _ _ _) as [[st2 sv2]|] eqn:Esettle; simpl in H; [|discriminate].
  assert (Hfinal : st' = fold_left rename_rejected (rejected_in_scene sv2) st2).
  { destruct (max_frames <=? _); inversion H; reflexivity. }
  clear H. subst st'.
  destruct (rename_loop_fields (rejected_in_scene sv2) st2) as (Hs & _ & _).
  apply settle_winner_cases in Esettle.
  destruct Esettle as [(-> & -> & Hnone)|[(bp & h & Ebp & -> & ->)|
    (bp & content & Ebp & Epos & Efile & Edup & -> & ->)]].
  - right. apply rename_loop_nonempty. right.
    destruct Hcand as [(bp & Ebp & Epos & _)|Hrej]; [|exact Hrej]. simpl in *.
    destruct Hnone as [Hnone|Hnone]; congruence.
  - right. apply rename_loop_nonempty. right. simpl in *.
    destruct Hcand as [(bp' & Ebp' & _ & Hfile)|(r & Hr & Hfile)]; simpl in *.
    + exists (rejection bp "duplicate" sc None). split.
      * apply elem_of_app. right. apply list_elem_of_here.
      * simpl. congruence.
    + exists r. split; [apply elem_of_app; left; exact Hr|exact Hfile].
  - left. rewrite Hs. simpl. intros Hnil. apply app_eq_nil in Hnil as [_ Hnil]. discriminate.
Qed.

Lemma scene_effect_grows threshold sc st st' :
  scene_effect threshold sc st st' →
  selected_frames st ≠ [] ∨ rejected_frames st ≠ [] →
  selected_frames st' ≠ [] ∨ rejected_frames st' ≠ [].
Proof.
  intros ((added & l & Hrej & _) & _ & Hsel) [H|H].
  - left. destruct Hsel as [(-> & _)|(sharp & content & _ & -> & _)]; [exact H|].
    intros Hnil. apply app_eq_nil in Hnil as [Hnil _]. contradiction.
  - right. rewrite Hrej. intros Hnil. apply app_eq_nil in Hnil as [Hnil _]. contradiction.
Qed.

Lemma scene_loop_grows count_duplicate v max_frames samples_per_scene quality_mode
    scenes st scene_idx st' :
  scene_loop count_duplicate v max_frames samples_per_scene quality_mode
    st scene_idx scenes = Ret st' →
  selected_frames st ≠ [] ∨ rejected_frames st ≠ [] →
  selected_frames st' ≠ [] ∨ rejected_frames st' ≠ [].
Proof.
  revert st scene_idx. induction scenes as [|sc scenes IH]; intros st scene_idx H Hne;
    simpl in H.
  - inversion H. subst. exact Hne.
  - destruct (process_scene _ _ _ _ _ _ _ _) as [[fl st1]|] eqn:E; simpl in H; [|discriminate].
    pose proof (scene_effect_grows _ _ _ _ (process_scene_effect _ _ _ _ _ _ _ _ _ _ E) Hne)
      as Hne1.
    destruct fl; [eapply IH; eauto|]. inversion H. subst. exact Hne1.
Qed.

Lemma scene_loop_nonempty count_duplicate v max_frames samples_per_scene quality_mode
    scenes st scene_idx st' sc t :
  scene_loop count_duplicate v max_frames samples_per_scene quality_mode
    st scene_idx scenes = Ret st' →
  1 ≤ max_frames →
  sc ∈ scenes →
  3 ≤ int ((end_ sc - start sc) * fps v) →
  t ∈ sample_points sc samples_per_scene →
  captured v t →
  selected_frames st' ≠ [] ∨ rejected_frames st' ≠ [].
Proof.
  intros H Hmax Hsc Hlong Ht Hread.
  revert st scene_idx H. induction scenes as [|sc0 scenes IH]; intros st scene_idx H.
  - apply elem_of_nil in Hsc. contradiction.
  - simpl in H.
    destruct (process_scene _ _ _ _ _ _ _ _) as [[fl st1]|] eqn:E; simpl in H; [|discriminate].
    destruct fl.
    + apply elem_of_cons in Hsc as [->|Hsc].
      * eapply scene_loop_grows; [exact H|].
        eapply process_scene_nonempty; eauto.
      * eapply IH; eauto.
    + inversion H. subst st1. left.
      apply process_scene_break in E. intros Hnil. rewrite Hnil in E. simpl in E. lia.
Qed.

(** X16: in both copies of the extractor, with a cap of at least one frame,
    a result with no selected and no rejected frame means that no sampled
    frame reached the frames directory: as soon as one sample point of one
    visited shot of three frames or more lies inside the video, [cap.read]
    returns its frame and [cv2.imwrite] writes it, the result holds a
    selected or a rejected frame. *)
Theorem X16_captured_sample_gives_a_frame
    (initial_histogram : gmap string nat)
    (count_duplicate : gmap string nat → outcome (gmap string nat))
    (v : video) (max_frames samples_per_scene : Z) (quality_mode : string)
    (scenes : list scene) (frames_dir : directory) (min_scene_duration : Q)
    (r : extraction) (visited : list scene) (sc : scene) (t : Q) :
  1 ≤ max_frames →
  extract initial_histogram count_duplicate v max_frames samples_per_scene quality_mode
    scenes frames_dir min_scene_duration = Ret r →
  select_scenes max_frames scenes min_scene_duration = Ret visited →
  sc ∈ visited →
  3 ≤ int ((end_ sc - start sc) * fps v) →
  t ∈ sample_points sc samples_per_scene →
  captured v t →
  result_selected r ≠ [] ∨ result_rejected r ≠ [].
Proof.
  intros Hmax Hr Hvisited Hsc Hlong Ht Hread.
  apply extract_inv in Hr as (visited' & st & Hv & Hloop & -> & -> & _).
  rewrite Hvisited in Hv. inversion Hv. subst visited'.
  eapply scene_loop_nonempty; eauto.
Qed.

Lemma X16_captured_sample_gives_a_frame_witness :
  ∃ r, extract_smart_keyframes (two_shot_video 0) two_shots ∅ 5 3 (3 # 10) "medium" = Ret r ∧
       (result_selected r ≠ [] ∨ result_rejected r ≠ []).
Proof.
  eexists. split; [vm_compute; reflexivity|].
  eapply (X16_captured_sample_gives_a_frame supabase_histogram supabase_count_duplicate
            (two_shot_video 0) 5 3 "medium" two_shots ∅ (3 # 10) _ two_shots
            ten_second_shot).
  - lia.
  - vm_compute. reflexivity.
  - vm_compute. reflexivity.
  - apply list_elem_of_here.
  - vm_compute. discriminate.
  - cbv. apply list_elem_of_here.
  - split; [vm_compute; reflexivity|]. eexists. split; reflexivity.
Defined.

(** Frames that are read but cannot be written leave nothing behind: each
    is counted as "unreadable" and its entry is dropped when the rejected
    frames are renamed. *)
Example unwritable_frames_leave_nothing :
  ∃ r, extract_smart_keyframes unwritable_video [ten_second_shot] ∅ 50 3 (3 # 10)
         "medium" = Ret r ∧
       result_selected r = [] ∧ result_rejected r = [] ∧
       rejected_histogram (result_stats r) !! "unreadable" = Some 3%nat.
Proof.
  eexists. split; [vm_compute; reflexivity|]. split_and!; vm_compute; reflexivity.
Qed.

Lemma supabase_extract_total v scenes frames_dir max_frames samples_per_scene
    min_scene_duration quality_mode :
  1 ≤ max_frames →
  ∃ r, extract_smart_keyframes v scenes frames_dir max_frames samples_per_scene
         min_scene_duration quality_mode = Ret r.
Proof.
  intros Hmax. unfold extract_smart_keyframes, extract.
  destruct (select_scenes_total max_frames scenes min_scene_duration Hmax) as [l ->].
  simpl.
  destruct (scene_loop_spec supabase_count_duplicate v max_frames samples_per_scene
              quality_mode supabase_inv supabase_inv_count_bad
              supabase_inv_count_duplicate l
              (initial_state supabase_histogram frames_dir) 0)
    as (st & -> & _).
  - apply supabase_inv_initial.
  - simpl. lia.
  - simpl. eauto.
Qed.

Lemma frames_dir_after_total v scenes frames_dir max_frames samples_per_scene
    min_scene_duration quality_mode r :
  extract_smart_keyframes v scenes frames_dir max_frames samples_per_scene
    min_scene_duration quality_mode = Ret r →
  ∃ fs, frames_dir_after v scenes frames_dir max_frames samples_per_scene
          min_scene_duration quality_mode = Ret fs.
Proof.
  unfold extract_smart_keyframes, frames_dir_after, extract, extract_files. intros H.
  destruct (select_scenes _ _ _) as [visited|]; simpl in *; [|discriminate].
  destruct (scene_loop _ _ _ _ _ _ _ _) as [st|]; simpl in *; [|discriminate].
  eauto.
Qed.

(** X17: after a download without error and with a cap of at least one
    frame, [process_video] returns for every positive number of workers:
    the number of scenes reported is the number detected, and the run is
    "pending_approval" without error, or "failed" with the single error
    "No scenes" (no scene detected) or "No frames extracted" and without
    any uploaded frame; the latter cannot happen when the frame of a sample
    point of a visited shot of three frames or more is read and written.
    With a number of workers that is not positive the run fails in the same
    two ways when there is no scene or no frame, and otherwise raises
    [ValueError] at the creation of the thread pool, which is what happens
    when such a frame is read and written. *)
Theorem X17_process_video_outcome
    (detect : outcome (list (Q * Q))) (v : video) (quality_mode : string)
    (max_frames max_workers : Z) (env : upload_env) :
  1 ≤ max_frames →
  (1 ≤ max_workers →
   ∃ res, process_video None detect v quality_mode max_frames max_workers env = Ret res ∧
     scenes_found res = length (detect_scenes detect) ∧
     ((status res = "pending_approval" ∧ errors res = [] ∧ detect_scenes detect ≠ []) ∨
      (res = failed_run 0 "No scenes" ∧ detect_scenes detect = []) ∨
      (res = failed_run (length (detect_scenes detect)) "No frames extracted" ∧
       detect_scenes detect ≠ [])) ∧
     (∀ visited sc t,
        select_scenes max_frames (detect_scenes detect) (3 # 10) = Ret visited →
        sc ∈ visited →
        3 ≤ int ((end_ sc - start sc) * fps v) →
        t ∈ sample_points sc 3 →
        captured v t →
        status res = "pending_approval")) ∧
  (max_workers ≤ 0 →
   (process_video None detect v quality_mode max_frames max_workers env =
      Raise ValueError ∨
    (process_video None detect v quality_mode max_frames max_workers env =
       Ret (failed_run 0 "No scenes") ∧ detect_scenes detect = []) ∨
    (process_video None detect v quality_mode max_frames max_workers env =
       Ret (failed_run (length (detect_scenes detect)) "No frames extracted") ∧
     detect_scenes detect ≠ [])) ∧
   (∀ visited sc t,
      select_scenes max_frames (detect_scenes detect) (3 # 10) = Ret visited →
      sc ∈ visited →
      3 ≤ int ((end_ sc - start sc) * fps v) →
      t ∈ sample_points sc 3 →
      captured v t →
      process_video None detect v quality_mode max_frames max_workers env =
        Raise ValueError)).
Proof.
  intros Hmax. unfold process_video. cbn [truthy].
  set (mode := if decide (is_Some (QUALITY_PRESETS !! quality_mode))
               then quality_mode else "medium").
  destruct (detect_scenes detect) as [|sc0 scenes] eqn:Escenes.
  - assert (Hnone : ∀ visited sc, select_scenes max_frames [] (3 # 10) = Ret visited →
                      sc ∈ visited → False).
    { intros visited sc Hv Hsc. unfold select_scenes in Hv. simpl in Hv.
      destruct (max_frames * 2 <? Z.of_nat 0) eqn:E; [apply Z.ltb_lt in E; lia|].
      inversion Hv as [Hv']. rewrite <- Hv' in Hsc. cbn in Hsc.
      apply elem_of_nil in Hsc. contradiction. }
    split; intros Hworkers.
    + eexists. split; [reflexivity|]. split; [reflexivity|]. split; [auto|].
      intros visited sc t Hv Hsc. destruct (Hnone visited sc Hv Hsc).
    + split; [auto|]. intros visited sc t Hv Hsc. destruct (Hnone visited sc Hv Hsc).
  - destruct (supabase_extract_total v (sc0 :: scenes) ∅ max_frames 3 (3 # 10) mode Hmax)
      as [r Hr].
    destruct (frames_dir_after_total _ _ _ _ _ _ _ _ Hr) as [fs Hfs].
    rewrite Hr, Hfs. simpl.
    assert (Hfull : ∀ visited sc t,
       select_scenes max_frames (sc0 :: scenes) (3 # 10) = Ret visited →
       sc ∈ visited →
       3 ≤ int ((end_ sc - start sc) * fps v) →
       t ∈ sample_points sc 3 →
       captured v t →
       result_selected r ≠ [] ∨ result_rejected r ≠ []).
    { intros visited sc t Hv Hsc Hlong Ht Hread.
      unfold extract_smart_keyframes in Hr.
      apply extract_inv in Hr as (visited' & st & Hv' & Hloop & -> & -> & _).
      rewrite Hv in Hv'. inversion Hv'. subst visited'.
      eapply scene_loop_nonempty; eauto. }
    assert (Hempty : result_selected r = [] → result_rejected r = [] →
       ∀ visited sc t,
         select_scenes max_frames (sc0 :: scenes) (3 # 10) = Ret visited →
         sc ∈ visited →
         3 ≤ int ((end_ sc - start sc) * fps v) →
         t ∈ sample_points sc 3 →
         captured v t → False).
    { intros Hs Hj visited sc t Hv Hsc Hlong Ht Hread.
      destruct (Hfull visited sc t Hv Hsc Hlong Ht Hread) as [H|H]; contradiction. }
    split; intros Hworkers.
    + assert (Eworkers : (max_workers <=? 0) = false) by (apply Z.leb_gt; lia).
      destruct (result_selected r) as [|f fs'] eqn:Esel;
        [destruct (result_rejected r) as [|rj rjs] eqn:Erej|].
      * eexists. split; [reflexivity|]. split; [reflexivity|]. split.
        -- right. right. split; [reflexivity|discriminate].
        -- intros visited sc t Hv Hsc Hlong Ht Hread. exfalso. eauto.
      * rewrite Eworkers. eexists. split; [reflexivity|]. split; [reflexivity|]. split.
        -- left. split_and!; [reflexivity|reflexivity|discriminate].
        -- intros; reflexivity.
      * rewrite Eworkers. eexists. split; [reflexivity|]. split; [reflexivity|]. split.
        -- left. split_and!; [reflexivity|reflexivity|discriminate].
        -- intros; reflexivity.
    + assert (Eworkers : (max_workers <=? 0) = true) by (apply Z.leb_le; lia).
      destruct (result_selected r) as [|f fs'] eqn:Esel;
        [destruct (result_rejected r) as [|rj rjs] eqn:Erej|].
      * split.
        -- right. right. split; [reflexivity|discriminate].
        -- intros visited sc t Hv Hsc Hlong Ht Hread. exfalso. eauto.
      * rewrite Eworkers. split; [left; reflexivity|]. intros; reflexivity.
      * rewrite Eworkers. split; [left; reflexivity|]. intros; reflexivity.
Qed.

Lemma X17_process_video_outcome_witness :
  (∃ res, process_video None (Ret [(0, 10); (10, 20)]%Q) (two_shot_video 0) "medium" 5 30
            {| env_video_hash := "0123456789ab";
               env_supabase_url := "https://project.supabase.co";
               env_uuids := fun _ => "uuid";
               env_post := fun _ => Ret 200;
               env_completion_order := [1; 0]%nat |}
          = Ret res ∧ status res = "pending_approval") ∧
  process_video None (Ret [(0, 10); (10, 20)]%Q) (two_shot_video 0) "medium" 5 0
    {| env_video_hash := "0123456789ab";
       env_supabase_url := "https://project.supabase.co";
       env_uuids := fun _ => "uuid";
       env_post := fun _ => Ret 200;
       env_completion_order := [1; 0]%nat |}
  = Raise ValueError.
Proof.
  assert (Hsample : ∃ t, t ∈ sample_points ten_second_shot 3 ∧ captured (two_shot_video 0) t).
  { eexists. split; [cbv; apply list_elem_of_here|].
    split; [vm_compute; reflexivity|]. eexists. split; reflexivity. }
  destruct Hsample as (t & Ht & Hcaptured).
  split.
  - destruct (X17_process_video_outcome (Ret [(0, 10); (10, 20)]%Q) (two_shot_video 0)
                "medium" 5 30
                {| env_video_hash := "0123456789ab";
                   env_supabase_url := "https://project.supabase.co";
                   env_uuids := fun _ => "uuid";
                   env_post := fun _ => Ret 200;
                   env_completion_order := [1; 0]%nat |}) as [Hrun _]; [lia|].
    destruct Hrun as (res & Hres & _ & _ & Hread); [lia|].
    exists res. split; [exact Hres|].
    apply (Hread two_shots ten_second_shot t).
    + vm_compute. reflexivity.
    + apply list_elem_of_here.
    + vm_compute. discriminate.
    + exact Ht.
    + exact Hcaptured.
  - destruct (X17_process_video_outcome (Ret [(0, 10); (10, 20)]%Q) (two_shot_video 0)
                "medium" 5 0
                {| env_video_hash := "0123456789ab";
                   env_supabase_url := "https://project.supabase.co";
                   env_uuids := fun _ => "uuid";
                   env_post := fun _ => Ret 200;
                   env_completion_order := [1; 0]%nat |}) as [_ Hstop]; [lia|].
    destruct Hstop as [_ Hraise]; [lia|].
    apply (Hraise two_shots ten_second_shot t).
    + vm_compute. reflexivity.
    + apply list_elem_of_here.
    + vm_compute. discriminate.
    + exact Ht.
    + exact Hcaptured.
Defined.
